(** * Durable execution: the Redis storage backend and the execution manager

    A shallow embedding of [src/upsonic/durable/storages/redis.py] (class
    [RedisDurableStorage]) and of [src/upsonic/durable/execution.py] (class
    [DurableExecution]).

    Modelling conventions.
    - Python values are the inductive [pyval]; a [dict] with string keys is a
      [gmap string pyval].
    - The Redis server is the record [Redis]: one finite map per value type
      (strings, hashes, sets), each keyed by the full Redis key.  A key is
      assumed to hold one type of value only, as the three key families
      [prefix ++ id], [prefix ++ "meta:" ++ id] and [prefix ++ "index:" ++ s]
      do for identifiers that do not themselves begin with [meta:] or
      [index:]; the WRONGTYPE replies of a real server are outside the model.
      The commands carry their Redis names ([SET], [HSET], [SADD], [SREM],
      [DEL], [GET], [HGETALL], [SMEMBERS]) for the redis-py methods [set],
      [hset], [sadd], [srem], [delete], [get], [hgetall], [smembers].
    - [scan_iter(match=...)] reads its argument as the server reads a MATCH
      pattern, a glob: [stringmatch] below.
    - Functions of the Python standard library that the code calls
      ([json.dumps], [json.loads], [int], [datetime.fromisoformat]) are the
      fields of the class [PyLib], with the exceptions they raise; the clock
      readings [datetime.now(...)] are explicit arguments.
    - Exceptions are the constructors of [exn]; a function that can raise
      returns a [result], and a function that can raise after it has
      written returns the server it leaves with the [result].
    - The [debug] log lines of the manager write nothing to the store and
      are left out. *)

From Stdlib Require Import ZArith Lia Ascii String.
From stdpp Require Import base strings gmap sets list pretty sorting.

Local Open Scope Z_scope.

(** ** Python values *)

(** [PFloat] and [PContainer] (a [list], a [dict] or any other object) are
    kept by the two observations the code makes of them: their truth value
    and their [str()]. *)
Inductive pyval : Type :=
| PNone
| PBool (b : bool)
| PInt (n : Z)
| PFloat (nonzero : bool) (repr : string)
| PStr (s : string)
| PContainer (nonempty : bool) (repr : string).

Inductive exn : Type :=
| DataError
| ValueError
| TypeError
| AttributeError
| OverflowError
| RuntimeError (msg : string).

Inductive result (A : Type) : Type :=
| Ok (a : A)
| Raise (e : exn).
Arguments Ok {A} a.
Arguments Raise {A} e.

(** [bool(v)] *)
Definition truthy (v : pyval) : bool :=
  match v with
  | PNone => false
  | PBool b => b
  | PInt n => negb (n =? 0)
  | PFloat nonzero _ => nonzero
  | PStr s => negb (String.eqb s "")
  | PContainer nonempty _ => nonempty
  end.

(** [str(v)], also what an f-string puts in place of [{v}] *)
Definition py_str (v : pyval) : string :=
  match v with
  | PNone => "None"
  | PBool true => "True"
  | PBool false => "False"
  | PInt n => pretty n
  | PFloat _ repr => repr
  | PStr s => s
  | PContainer _ repr => repr
  end.

(** [a or b] *)
Definition py_or (a b : pyval) : pyval := if truthy a then a else b.

(** [d.get(k)] and [d.get(k, dflt)] *)
Definition dict_get (d : gmap string pyval) (k : string) : pyval :=
  default PNone (d !! k).

Definition dict_get_default (d : gmap string pyval) (k : string) (dflt : pyval) : pyval :=
  default dflt (d !! k).

(** [bool(d)] for a dict: non-empty *)
Definition dict_truthy (d : gmap string pyval) : bool := bool_decide (d ≠ ∅).

Definition is_none (v : pyval) : bool :=
  match v with PNone => true | _ => false end.

(** [bool(s)] for a string read back from Redis *)
Definition str_truthy (s : string) : bool := negb (String.eqb s "").

(** [s.replace('Z', '+00:00')] *)
Fixpoint replace_Z (s : string) : string :=
  match s with
  | EmptyString => EmptyString
  | String c rest =>
      if Ascii.eqb c "Z"%char then "+00:00" +:+ replace_Z rest
      else String c (replace_Z rest)
  end.

(** [s[n:]] *)
Fixpoint string_drop (n : nat) (s : string) : string :=
  match n, s with
  | O, _ => s
  | S n', String _ rest => string_drop n' rest
  | S _, EmptyString => EmptyString
  end.

(** [l[:n]] for an integer [n] of either sign *)
Definition slice_to {A : Type} (l : list A) (n : Z) : list A :=
  if 0 <=? n then take (Z.to_nat n) l
  else take (length l - Z.to_nat (- n))%nat l.

(** A [datetime]: wall-clock microseconds and, when aware, its UTC offset. *)
Record datetime : Type := mkDatetime {
  wall : Z;
  tzinfo : option Z
}.

(** [dt.replace(tzinfo=timezone.utc)] *)
Definition replace_tzinfo_utc (dt : datetime) : datetime :=
  {| wall := wall dt; tzinfo := Some 0 |}.

(** The instant of an aware datetime, in UTC microseconds. *)
Definition instant (dt : datetime) : Z := wall dt - default 0 (tzinfo dt).

(** The two exceptions a conversion of the standard library raises. *)
Inductive conversion_error : Type :=
| OfType
| OfValue.

Definition exn_of (c : conversion_error) : exn :=
  match c with
  | OfType => TypeError
  | OfValue => ValueError
  end.

(** What [json.dumps(state)] gives: the text, or the [TypeError] or
    [ValueError] it raises for a state it cannot serialise. *)
Inductive encoding : Type :=
| Encoded (text : string)
| Unencodable (c : conversion_error).

(** What [ExecutionState(json.loads(text))] gives: the state, for the text
    of a JSON object; [json.JSONDecodeError], for a text that is not JSON;
    the [TypeError] or [ValueError] of [ExecutionState] (a [dict]), for
    JSON that is not an object. *)
Inductive decoding : Type :=
| Decoded (state : gmap string pyval)
| JSONDecodeError
| NotAState (c : conversion_error).

(** The standard-library functions the code relies on.  [json_loads] is
    [json.loads] followed by the [ExecutionState(...)] wrapping, whose class
    is declared in [storage.py], outside the two files embedded here;
    [py_int] is [int] on a string and [fromisoformat] is
    [datetime.fromisoformat], [None] for their [ValueError]. *)
Class PyLib : Type := {
  json_dumps : gmap string pyval → encoding;
  json_loads : string → decoding;
  py_int : string → option Z;
  fromisoformat : string → option datetime
}.

(** ** The Redis server *)

Record Redis : Type := mkRedis {
  kv_strings : gmap string string;
  kv_hashes : gmap string (gmap string string);
  kv_sets : gmap string (gset string)
}.

Definition redis_empty : Redis :=
  {| kv_strings := ∅; kv_hashes := ∅; kv_sets := ∅ |}.

Inductive command : Type :=
| SET (key value : string)
| HSET (key : string) (mapping : gmap string string)
| SADD (key member : string)
| SREM (key member : string)
| DEL (key : string).

(** What redis-py hands back for a command: [True] for SET, a count else. *)
Inductive reply : Type :=
| RBool (b : bool)
| RInt (n : Z).

Definition GET (key : string) (db : Redis) : option string :=
  kv_strings db !! key.

Definition HGETALL (key : string) (db : Redis) : gmap string string :=
  default ∅ (kv_hashes db !! key).

Definition SMEMBERS (key : string) (db : Redis) : gset string :=
  default ∅ (kv_sets db !! key).

Definition key_exists (key : string) (db : Redis) : bool :=
  bool_decide (is_Some (kv_strings db !! key))
  || bool_decide (is_Some (kv_hashes db !! key))
  || bool_decide (is_Some (kv_sets db !! key)).

(** *** MATCH patterns

    The glob-style patterns of the server: [*] for any run of characters,
    [?] for one, [[...]] for a class of characters (with ranges, negated by
    a leading [^]), and a backslash to take the next character as it is. *)
Definition backslash : ascii := ascii_of_nat 92.

Inductive glob_item : Type :=
| GChar (c : ascii)
| GRange (lo hi : ascii).

Inductive glob_token : Type :=
| GStar
| GAny
| GClass (negate : bool) (items : list glob_item)
| GLit (c : ascii).

(** The pattern read from the left; a class that is not closed ends with
    the pattern. *)
Fixpoint glob_tokens (pattern : string) : list glob_token :=
  match pattern with
  | EmptyString => []
  | String c rest =>
      if Ascii.eqb c "*" then GStar :: glob_tokens rest
      else if Ascii.eqb c "?" then GAny :: glob_tokens rest
      else if Ascii.eqb c "[" then
        match rest with
        | String d rest' =>
            if Ascii.eqb d "^" then glob_class true [] rest'
            else glob_class false [] rest
        | EmptyString => glob_class false [] rest
        end
      else if Ascii.eqb c backslash then
        match rest with
        | String d rest' => GLit d :: glob_tokens rest'
        | EmptyString => [GLit c]
        end
      else GLit c :: glob_tokens rest
  end
with glob_class (negate : bool) (items : list glob_item) (pattern : string)
  : list glob_token :=
  match pattern with
  | EmptyString => [GClass negate items]
  | String c rest =>
      if Ascii.eqb c backslash then
        match rest with
        | String d rest' => glob_class negate (GChar d :: items) rest'
        | EmptyString => glob_class negate (GChar c :: items) rest
        end
      else if Ascii.eqb c "]" then GClass negate items :: glob_tokens rest
      else
        match rest with
        | String "-" (String hi rest') => glob_class negate (GRange c hi :: items) rest'
        | _ => glob_class negate (GChar c :: items) rest
        end
  end.

Definition item_matches (c : ascii) (item : glob_item) : bool :=
  match item with
  | GChar d => Ascii.eqb d c
  | GRange lo hi =>
      let lo := nat_of_ascii lo in
      let hi := nat_of_ascii hi in
      let c := nat_of_ascii c in
      ((Nat.min lo hi <=? c) && (c <=? Nat.max lo hi))%nat
  end.

Fixpoint glob_match (tokens : list glob_token) (s : string) : bool :=
  match tokens with
  | [] => match s with EmptyString => true | String _ _ => false end
  | GStar :: tokens' =>
      (fix star (s : string) : bool :=
         glob_match tokens' s
         || match s with
            | EmptyString => false
            | String _ rest => star rest
            end) s
  | GAny :: tokens' =>
      match s with
      | EmptyString => false
      | String _ rest => glob_match tokens' rest
      end
  | GClass negate items :: tokens' =>
      match s with
      | EmptyString => false
      | String c rest =>
          xorb negate (existsb (item_matches c) items) && glob_match tokens' rest
      end
  | GLit d :: tokens' =>
      match s with
      | EmptyString => false
      | String c rest => Ascii.eqb d c && glob_match tokens' rest
      end
  end.

(** Whether the key [s] matches the pattern. *)
Definition stringmatch (pattern s : string) : bool :=
  glob_match (glob_tokens pattern) s.

(** [scan_iter(match=pattern)]: all keys, of any type, that match. *)
Definition scan_iter (pattern : string) (db : Redis) : list string :=
  filter (λ k, stringmatch pattern k = true)
    (elements (dom (kv_strings db) ∪ dom (kv_hashes db) ∪ dom (kv_sets db))).

Definition exec_command (c : command) (db : Redis) : Redis * reply :=
  match c with
  | SET key value =>
      ({| kv_strings := <[key := value]> (kv_strings db);
          kv_hashes := kv_hashes db; kv_sets := kv_sets db |}, RBool true)
  | HSET key mapping =>
      let old := HGETALL key db in
      ({| kv_strings := kv_strings db;
          kv_hashes := <[key := mapping ∪ old]> (kv_hashes db);
          kv_sets := kv_sets db |},
       RInt (Z.of_nat (size (dom mapping ∖ dom old))))
  | SADD key member =>
      let old := SMEMBERS key db in
      ({| kv_strings := kv_strings db; kv_hashes := kv_hashes db;
          kv_sets := <[key := {[member]} ∪ old]> (kv_sets db) |},
       RInt (if bool_decide (member ∈ old) then 0 else 1))
  | SREM key member =>
      let old := SMEMBERS key db in
      let new := old ∖ {[member]} in
      ({| kv_strings := kv_strings db; kv_hashes := kv_hashes db;
          kv_sets := if bool_decide (new = ∅) then delete key (kv_sets db)
                     else <[key := new]> (kv_sets db) |},
       RInt (if bool_decide (member ∈ old) then 1 else 0))
  | DEL key =>
      ({| kv_strings := delete key (kv_strings db);
          kv_hashes := delete key (kv_hashes db);
          kv_sets := delete key (kv_sets db) |},
       RInt (if key_exists key db then 1 else 0))
  end.

(** [pipe.execute()]: the queued commands run in order. *)
Fixpoint pipeline_execute (cmds : list command) (db : Redis) : Redis * list reply :=
  match cmds with
  | [] => (db, [])
  | c :: rest =>
      let '(db1, r) := exec_command c db in
      let '(db2, rs) := pipeline_execute rest db1 in
      (db2, r :: rs)
  end.

(** [isinstance(r, int) and r > 0]; a Python [bool] is an [int]. *)
Definition reply_positive (r : reply) : bool :=
  match r with
  | RBool b => b
  | RInt n => 0 <? n
  end.

(** How redis-py encodes a value it is asked to store: [str], [int] and
    [float] are accepted, anything else raises [DataError]. *)
Definition redis_encode (v : pyval) : option string :=
  match v with
  | PStr s => Some s
  | PInt n => Some (pretty n)
  | PFloat _ repr => Some repr
  | PNone | PBool _ | PContainer _ _ => None
  end.

Definition encode_mapping (m : gmap string pyval) : option (gmap string string) :=
  if bool_decide (map_Forall (λ _ v, is_Some (redis_encode v)) m)
  then Some (omap redis_encode m)
  else None.

(** ** [class RedisDurableStorage] (storages/redis.py) *)

Record RedisDurableStorage : Type := mkStorage {
  prefix : string
}.

Definition _make_key (self : RedisDurableStorage) (execution_id : string) : string :=
  prefix self +:+ execution_id.

Definition _make_metadata_key (self : RedisDurableStorage) (execution_id : string) : string :=
  prefix self +:+ "meta:" +:+ execution_id.

Definition _make_index_key (self : RedisDurableStorage) (status : string) : string :=
  prefix self +:+ "index:" +:+ status.

(** The state as it is serialised: stamped with [saved_at] and [execution_id]. *)
Definition stamp (execution_id : string) (now : string) (state : gmap string pyval)
  : gmap string pyval :=
  <["execution_id" := PStr execution_id]> (<["saved_at" := PStr now]> state).

(** The [metadata] dict of [_save_to_redis], after its [is not None] filter. *)
Definition save_metadata (execution_id : string) (state : gmap string pyval)
  : gmap string pyval :=
  let metadata : gmap string pyval :=
    <["execution_id" := PStr execution_id]>
    (<["status" := py_or (dict_get state "status") (PStr "running")]>
    (<["step_index" := PStr (py_str (dict_get_default state "step_index" (PInt 0)))]>
    (<["step_name" := py_or (dict_get state "step_name") (PStr "unknown")]>
    (<["timestamp" := py_or (dict_get state "timestamp") (PStr "")]>
    (<["saved_at" := py_or (dict_get state "saved_at") (PStr "")]>
    (<["error" := py_or (dict_get state "error") (PStr "")]> ∅)))))) in
  filter (λ kv, is_none kv.2 = false) metadata.

(** The fields of a metadata hash, and of a listed entry. *)
Definition metadata_fields : gset string :=
  {["execution_id"; "status"; "step_index"; "step_name"; "timestamp"; "saved_at"; "error"]}.

(** [save_state_async]; [now] is [datetime.now(timezone.utc).isoformat()].
    [json.dumps] comes first and raises before anything is sent.  The three
    commands go out as one pipeline; redis-py encodes the whole pipeline
    before it sends anything, so a value it cannot encode raises
    [DataError] and leaves the server untouched. *)
Definition save_state_async `{PyLib} (self : RedisDurableStorage)
    (execution_id : string) (state : gmap string pyval) (now : string)
    (db : Redis) : result Redis :=
  let state := stamp execution_id now state in
  match json_dumps state with
  | Unencodable c => Raise (exn_of c)
  | Encoded state_json =>
      let key := _make_key self execution_id in
      let metadata_key := _make_metadata_key self execution_id in
      let metadata := save_metadata execution_id state in
      let status := dict_get_default state "status" (PStr "running") in
      let index_key := _make_index_key self (py_str status) in
      match encode_mapping metadata with
      | None => Raise DataError
      | Some mapping =>
          Ok (pipeline_execute
                [SET key state_json; HSET metadata_key mapping;
                 SADD index_key execution_id]
                db).1
      end
  end.

(** [load_state_async]: [None] for a missing key and for a payload that
    [json.loads] rejects; the [except] clause names [json.JSONDecodeError]
    only, so what [ExecutionState(...)] raises on JSON that is not an
    object goes out to the caller. *)
Definition load_state_async `{PyLib} (self : RedisDurableStorage)
    (execution_id : string) (db : Redis) : result (option (gmap string pyval)) :=
  let key := _make_key self execution_id in
  match GET key db with
  | None => Ok None
  | Some state_json =>
      match json_loads state_json with
      | Decoded state => Ok (Some state)
      | JSONDecodeError => Ok None
      | NotAState c => Raise (exn_of c)
      end
  end.

(** [delete_state_async]: the load comes first, and when it raises nothing
    is deleted. *)
Definition delete_state_async `{PyLib} (self : RedisDurableStorage)
    (execution_id : string) (db : Redis) : Redis * result bool :=
  match load_state_async self execution_id db with
  | Raise e => (db, Raise e)
  | Ok state =>
      let key := _make_key self execution_id in
      let metadata_key := _make_metadata_key self execution_id in
      let index_cmds :=
        match state with
        | Some state =>
            if dict_truthy state then
              let status := dict_get_default state "status" (PStr "running") in
              [SREM (_make_index_key self (py_str status)) execution_id]
            else []
        | None => []
        end in
      let '(db', results) :=
        pipeline_execute ([DEL key; DEL metadata_key] ++ index_cmds) db in
      (db', Ok (existsb reply_positive results))
  end.

(** Optional string to Python value. *)
Definition opt_str (o : option string) : pyval :=
  match o with Some s => PStr s | None => PNone end.

(** The dict appended to [result] for one execution. *)
Definition list_entry (execution_id : string) (metadata : gmap string string)
    (step_index : Z) : gmap string pyval :=
  <["execution_id" := PStr (default execution_id (metadata !! "execution_id"))]>
  (<["status" := opt_str (metadata !! "status")]>
  (<["step_index" := PInt step_index]>
  (<["step_name" := opt_str (metadata !! "step_name")]>
  (<["timestamp" := opt_str (metadata !! "timestamp")]>
  (<["saved_at" := opt_str (metadata !! "saved_at")]>
  (<["error" := opt_str (metadata !! "error")]> ∅)))))).

(** [int(metadata.get("step_index", 0))] *)
Definition step_index_of `{PyLib} (metadata : gmap string string) : result Z :=
  match metadata !! "step_index" with
  | None => Ok 0
  | Some s =>
      match py_int s with
      | Some n => Ok n
      | None => Raise ValueError
      end
  end.

(** The loop "Fetch metadata for each execution". *)
Fixpoint fetch_entries `{PyLib} (self : RedisDurableStorage) (db : Redis)
    (execution_ids : list string) : result (list (gmap string pyval)) :=
  match execution_ids with
  | [] => Ok []
  | execution_id :: rest =>
      let metadata := HGETALL (_make_metadata_key self execution_id) db in
      if bool_decide (metadata ≠ ∅) then
        match step_index_of metadata with
        | Raise e => Raise e
        | Ok n =>
            match fetch_entries self db rest with
            | Raise e => Raise e
            | Ok entries => Ok (list_entry execution_id metadata n :: entries)
            end
        end
      else fetch_entries self db rest
  end.

(** The sort key [x.get("timestamp", "")]. *)
Definition sort_key (x : gmap string pyval) : pyval :=
  dict_get_default x "timestamp" (PStr "").

Definition is_str (v : pyval) : bool :=
  match v with PStr _ => true | _ => false end.

(** [a < b] on the keys that occur: strings, by code point. *)
Definition key_lt (a b : pyval) : bool :=
  match a, b with
  | PStr s, PStr t => negb (String.leb t s)
  | _, _ => false
  end.

(** Stable insertion for a descending order: [x] comes from before every
    element of [l] in the input, so it stays before the elements equal to it. *)
Fixpoint insert_desc (x : gmap string pyval) (l : list (gmap string pyval))
  : list (gmap string pyval) :=
  match l with
  | [] => [x]
  | y :: l' =>
      if key_lt (sort_key x) (sort_key y) then y :: insert_desc x l'
      else x :: y :: l'
  end.

Definition sort_desc (l : list (gmap string pyval)) : list (gmap string pyval) :=
  foldr insert_desc [] l.

(** [result.sort(key=..., reverse=True)]: with two elements or more every
    key is compared at least once, and a key that is not a string ([None],
    from a metadata hash without [timestamp]) cannot be compared. *)
Definition sort_by_timestamp (l : list (gmap string pyval))
  : result (list (gmap string pyval)) :=
  if (2 <=? length l)%nat && negb (forallb (λ x, is_str (sort_key x)) l)
  then Raise TypeError
  else Ok (sort_desc l).

(** "Scan all metadata keys": the identifiers cut out of the keys that
    match the pattern [prefix ++ "meta:*"]. *)
Definition scanned_ids (self : RedisDurableStorage) (db : Redis) : gset string :=
  let pattern := prefix self +:+ "meta:*" in
  list_to_set
    (string_drop (String.length (prefix self +:+ "meta:"))
       <$> scan_iter pattern db).

(** The identifiers [list_executions_async] looks up: the members of the
    status index when [status] is truthy, the scanned ones otherwise. *)
Definition listed_ids (self : RedisDurableStorage) (status : option string)
    (db : Redis) : gset string :=
  match status with
  | Some s =>
      if str_truthy s then SMEMBERS (_make_index_key self s) db
      else scanned_ids self db
  | None => scanned_ids self db
  end.

(** [if limit: result = result[:limit]] *)
Definition apply_limit {A : Type} (limit : option Z) (l : list A) : list A :=
  match limit with
  | Some n => if n =? 0 then l else slice_to l n
  | None => l
  end.

(** [list_executions_async] *)
Definition list_executions_async `{PyLib} (self : RedisDurableStorage)
    (status : option string) (limit : option Z) (db : Redis)
  : result (list (gmap string pyval)) :=
  let execution_ids := listed_ids self status db in
  match fetch_entries self db (elements execution_ids) with
  | Raise e => Raise e
  | Ok entries =>
      match sort_by_timestamp entries with
      | Raise e => Raise e
      | Ok sorted => Ok (apply_limit limit sorted)
      end
  end.

(** The [try] block of the cleanup loop: [fromisoformat] after the [Z]
    replacement, a naive result taken as UTC; [None] stands for the caught
    [ValueError]. *)
Definition parse_timestamp `{PyLib} (timestamp_str : string) : option datetime :=
  match fromisoformat (replace_Z timestamp_str) with
  | Some timestamp =>
      Some (match tzinfo timestamp with
            | None => replace_tzinfo_utc timestamp
            | Some _ => timestamp
            end)
  | None => None
  end.

(** [except (ValueError, AttributeError): continue] *)
Definition skipped (e : exn) : bool :=
  match e with
  | ValueError | AttributeError => true
  | _ => false
  end.

(** The inner loop of [cleanup_old_executions_async] over one index set.
    The delete stands inside the [try]: a [ValueError] out of it is passed
    over, any other exception ends the cleanup where it stands. *)
Fixpoint cleanup_ids `{PyLib} (self : RedisDurableStorage) (cutoff_date : Z)
    (execution_ids : list string) (acc : Redis * Z) : Redis * result Z :=
  match execution_ids with
  | [] => (acc.1, Ok acc.2)
  | execution_id :: rest =>
      let metadata := HGETALL (_make_metadata_key self execution_id) acc.1 in
      match metadata !! "timestamp" with
      | None => cleanup_ids self cutoff_date rest acc
      | Some timestamp_str =>
          if str_truthy timestamp_str then
            match parse_timestamp timestamp_str with
            | Some timestamp =>
                if instant timestamp <? cutoff_date then
                  match delete_state_async self execution_id acc.1 with
                  | (db', Ok deleted) =>
                      cleanup_ids self cutoff_date rest
                        (db', if deleted then acc.2 + 1 else acc.2)
                  | (db', Raise e) =>
                      if skipped e then cleanup_ids self cutoff_date rest (db', acc.2)
                      else (db', Raise e)
                  end
                else cleanup_ids self cutoff_date rest acc
            | None => cleanup_ids self cutoff_date rest acc
            end
          else cleanup_ids self cutoff_date rest acc
      end
  end.

(** The loop [for status in ["completed", "failed"]]. *)
Fixpoint cleanup_statuses `{PyLib} (self : RedisDurableStorage) (cutoff_date : Z)
    (terminal : list string) (acc : Redis * Z) : Redis * result Z :=
  match terminal with
  | [] => (acc.1, Ok acc.2)
  | status :: rest =>
      let execution_ids := SMEMBERS (_make_index_key self status) acc.1 in
      match cleanup_ids self cutoff_date (elements execution_ids) acc with
      | (db', Ok deleted_count) =>
          cleanup_statuses self cutoff_date rest (db', deleted_count)
      | (db', Raise e) => (db', Raise e)
      end
  end.

Definition microseconds_per_day : Z := 86400000000.

(** The bounds of [timedelta(days=...)] and of a [datetime], the latter in
    microseconds from 1970-01-01: 0001-01-01T00:00:00 and
    9999-12-31T23:59:59.999999. *)
Definition max_timedelta_days : Z := 999999999.
Definition datetime_min : Z := -62135596800000000.
Definition datetime_max : Z := 253402300799999999.

(** [datetime.now(timezone.utc) - timedelta(days=older_than_days)]: either
    step raises [OverflowError] out of its range. *)
Definition cutoff_date_of (now older_than_days : Z) : result Z :=
  if Z.abs older_than_days <=? max_timedelta_days then
    let cutoff_date := now - older_than_days * microseconds_per_day in
    if (datetime_min <=? cutoff_date) && (cutoff_date <=? datetime_max)
    then Ok cutoff_date
    else Raise OverflowError
  else Raise OverflowError.

(** [cleanup_old_executions_async]; [now] is [datetime.now(timezone.utc)]
    in microseconds. *)
Definition cleanup_old_executions_async `{PyLib} (self : RedisDurableStorage)
    (older_than_days : Z) (now : Z) (db : Redis) : Redis * result Z :=
  match cutoff_date_of now older_than_days with
  | Raise e => (db, Raise e)
  | Ok cutoff_date => cleanup_statuses self cutoff_date ["completed"; "failed"] (db, 0)
  end.

(** The four statuses the maintenance operations enumerate. *)
Definition statuses : list string := ["running"; "paused"; "completed"; "failed"].

(** [clear_all_indexes] *)
Definition clear_all_indexes (self : RedisDurableStorage) (db : Redis) : Redis :=
  foldl (λ db status, (exec_command (DEL (_make_index_key self status)) db).1)
    db statuses.

(** The body of the scan loop of [rebuild_indexes]. *)
Definition rebuild_step (self : RedisDurableStorage) (db : Redis)
    (metadata_key : string) : Redis :=
  let metadata := HGETALL metadata_key db in
  match metadata !! "status", metadata !! "execution_id" with
  | Some status, Some execution_id =>
      if str_truthy status && str_truthy execution_id then
        (exec_command (SADD (_make_index_key self status) execution_id) db).1
      else db
  | _, _ => db
  end.

(** [rebuild_indexes] *)
Definition rebuild_indexes (self : RedisDurableStorage) (db : Redis) : Redis :=
  let db := clear_all_indexes self db in
  let pattern := prefix self +:+ "meta:*" in
  foldl (rebuild_step self) db (scan_iter pattern db).

(** [scard] *)
Definition SCARD (key : string) (db : Redis) : Z :=
  Z.of_nat (size (SMEMBERS key db)).




(** ** [class DurableExecution] (execution.py) *)

(** [DurableStateSerializer] lives in [serializer.py]; the manager only
    calls its two methods, which are taken as given. *)
Class DurableStateSerializer (Task Context Checkpoint : Type) : Type := {
  serialize_state :
    Task → Context → Z → string → string → option string →
    option (gmap string pyval) → gmap string pyval;
  deserialize_state : gmap string pyval → Checkpoint
}.

Record DurableExecution : Type := mkDurable {
  storage : RedisDurableStorage;
  execution_id : string;
  auto_cleanup : bool;
  debug : bool
}.

(** [_generate_execution_id]; [utcnow] is
    [datetime.utcnow().strftime("%Y%m%d%H%M%S")] and [uuid4] is
    [str(uuid.uuid4())]. *)
Definition _generate_execution_id (utcnow uuid4 : string) : string :=
  let timestamp := utcnow in
  let unique_id := String.substring 0 8 uuid4 in
  timestamp +:+ "-" +:+ unique_id.

(** [DurableExecution.__init__]; the readings [utcnow] and [uuid4] are used
    only when no identifier, or an empty one, is given. *)
Definition DurableExecution__init__ (storage : RedisDurableStorage)
    (execution_id : option string) (auto_cleanup debug : bool)
    (utcnow uuid4 : string) : DurableExecution :=
  {| storage := storage;
     execution_id :=
       match execution_id with
       | Some i => if str_truthy i then i else _generate_execution_id utcnow uuid4
       | None => _generate_execution_id utcnow uuid4
       end;
     auto_cleanup := auto_cleanup;
     debug := debug |}.

(** A coroutine, run to completion against the server. *)
Definition coroutine (A : Type) : Type := Redis → Redis * result A.

Definition save_checkpoint_async `{PyLib} {Task Context Checkpoint : Type}
    `{!DurableStateSerializer Task Context Checkpoint}
    (self : DurableExecution) (task : Task) (context : Context)
    (step_index : Z) (step_name : string) (status : string)
    (error : option string) (agent_state : option (gmap string pyval))
    (now : string) : coroutine unit :=
  λ db,
    let state :=
      serialize_state task context step_index step_name status error agent_state in
    match save_state_async (storage self) (execution_id self) state now db with
    | Ok db' => (db', Ok tt)
    | Raise e => (db, Raise e)
    end.

Definition load_checkpoint_async `{PyLib} {Task Context Checkpoint : Type}
    `{!DurableStateSerializer Task Context Checkpoint}
    (self : DurableExecution) : coroutine (option Checkpoint) :=
  λ db,
    match load_state_async (storage self) (execution_id self) db with
    | Raise e => (db, Raise e)
    | Ok None => (db, Ok None)
    | Ok (Some state) => (db, Ok (Some (deserialize_state state)))
    end.

Definition mark_completed_async `{PyLib} (self : DurableExecution) (now : string)
  : coroutine unit :=
  λ db,
    if auto_cleanup self then
      match delete_state_async (storage self) (execution_id self) db with
      | (db', Ok _) => (db', Ok tt)
      | (db', Raise e) => (db', Raise e)
      end
    else
      match load_state_async (storage self) (execution_id self) db with
      | Raise e => (db, Raise e)
      | Ok (Some state) =>
          if dict_truthy state then
            let state := <["status" := PStr "completed"]> state in
            match save_state_async (storage self) (execution_id self) state now db with
            | Ok db' => (db', Ok tt)
            | Raise e => (db, Raise e)
            end
          else (db, Ok tt)
      | Ok None => (db, Ok tt)
      end.

Definition mark_failed_async `{PyLib} (self : DurableExecution) (error : string)
    (now : string) : coroutine unit :=
  λ db,
    match load_state_async (storage self) (execution_id self) db with
    | Raise e => (db, Raise e)
    | Ok (Some state) =>
        if dict_truthy state then
          let state := <["error" := PStr error]> (<["status" := PStr "failed"]> state) in
          match save_state_async (storage self) (execution_id self) state now db with
          | Ok db' => (db', Ok tt)
          | Raise e => (db, Raise e)
          end
        else (db, Ok tt)
    | Ok None => (db, Ok tt)
    end.

Definition _get_execution_info_async `{PyLib} (self : DurableExecution)
  : coroutine (option (gmap string pyval)) :=
  λ db,
    match load_state_async (storage self) (execution_id self) db with
    | Raise e => (db, Raise e)
    | Ok (Some state) =>
        if dict_truthy state then
          (db, Ok (Some
             (<["execution_id" := PStr (execution_id self)]>
             (<["status" := dict_get state "status"]>
             (<["step_index" := dict_get state "step_index"]>
             (<["step_name" := dict_get state "step_name"]>
             (<["timestamp" := dict_get state "timestamp"]>
             (<["saved_at" := dict_get state "saved_at"]>
             (<["error" := dict_get state "error"]> ∅)))))))))
        else (db, Ok None)
    | Ok None => (db, Ok None)
    end.

(** [load_by_id_async]; [utcnow] and [uuid4] are the readings the
    constructor takes when the identifier is empty. *)
Definition load_by_id_async `{PyLib} (execution_id : string)
    (storage : RedisDurableStorage) (utcnow uuid4 : string)
  : coroutine (option DurableExecution) :=
  λ db,
    match load_state_async storage execution_id db with
    | Raise e => (db, Raise e)
    | Ok None => (db, Ok None)
    | Ok (Some _) =>
        (db, Ok (Some (DurableExecution__init__ storage (Some execution_id)
                         false false utcnow uuid4)))
    end.

(** *** The synchronous wrappers and the event loop

    What [asyncio] tells a wrapper about the calling thread. *)
Inductive event_loop : Type :=
| NoCurrentLoop
| LoopIdle
| LoopRunning.

(** How a wrapper ends: it returns a value after the coroutine ran, it
    returns at once with the coroutine left as a task on the running loop
    ([asyncio.create_task]), or it raises. *)
Inductive outcome (A : Type) : Type :=
| Returned (a : A) (db : Redis)
| Scheduled (task : coroutine A) (db : Redis)
| Failed (e : exn) (db : Redis).
Arguments Returned {A} a db.
Arguments Scheduled {A} task db.
Arguments Failed {A} e db.

Definition run_coroutine {A : Type} (coro : coroutine A) (db : Redis) : outcome A :=
  match coro db with
  | (db', Ok a) => Returned a db'
  | (db', Raise e) => Failed e db'
  end.

(** [asyncio.get_event_loop()] *)
Definition get_event_loop (ctx : event_loop) : result event_loop :=
  match ctx with
  | NoCurrentLoop => Raise (RuntimeError "There is no current event loop")
  | loop => Ok loop
  end.

(** [loop.is_running()] *)
Definition is_running (loop : event_loop) : bool :=
  match loop with LoopRunning => true | _ => false end.

(** [loop.run_until_complete(coro)] *)
Definition run_until_complete {A : Type} (loop : event_loop) (coro : coroutine A)
    (db : Redis) : outcome A :=
  if is_running loop then Failed (RuntimeError "This event loop is already running") db
  else run_coroutine coro db.

(** [asyncio.run(coro)] *)
Definition asyncio_run {A : Type} (ctx : event_loop) (coro : coroutine A)
    (db : Redis) : outcome A :=
  if is_running ctx
  then Failed (RuntimeError "asyncio.run() cannot be called from a running event loop") db
  else run_coroutine coro db.

(** [try: body  except RuntimeError: handler] *)
Definition except_RuntimeError {A : Type} (body : outcome A)
    (handler : Redis → outcome A) : outcome A :=
  match body with
  | Failed (RuntimeError _) db => handler db
  | other => other
  end.

(** The wrapper shape of [save_checkpoint], [mark_completed], [mark_failed]:
    on a running loop the coroutine becomes a background task. *)
Definition sync_or_background {A : Type} (ctx : event_loop) (coro : coroutine A)
    (db : Redis) : outcome A :=
  except_RuntimeError
    (match get_event_loop ctx with
     | Raise e => Failed e db
     | Ok loop =>
         if is_running loop then Scheduled coro db
         else run_until_complete loop coro db
     end)
    (asyncio_run ctx coro).

(** The wrapper shape of [load_checkpoint], [get_execution_info],
    [load_by_id]: on a running loop it raises, inside its own [try]. *)
Definition sync_or_raise {A : Type} (ctx : event_loop) (coro : coroutine A)
    (db : Redis) : outcome A :=
  except_RuntimeError
    (match get_event_loop ctx with
     | Raise e => Failed e db
     | Ok loop =>
         if is_running loop
         then Failed (RuntimeError "Cannot call synchronous method from async context") db
         else run_until_complete loop coro db
     end)
    (asyncio_run ctx coro).

Definition save_checkpoint `{PyLib} {Task Context Checkpoint : Type}
    `{!DurableStateSerializer Task Context Checkpoint}
    (self : DurableExecution) (task : Task) (context : Context)
    (step_index : Z) (step_name : string) (status : string)
    (error : option string) (agent_state : option (gmap string pyval))
    (now : string) (ctx : event_loop) (db : Redis) : outcome unit :=
  sync_or_background ctx
    (save_checkpoint_async self task context step_index step_name status error
       agent_state now) db.

Definition load_checkpoint `{PyLib} {Task Context Checkpoint : Type}
    `{!DurableStateSerializer Task Context Checkpoint}
    (self : DurableExecution) (ctx : event_loop) (db : Redis)
  : outcome (option Checkpoint) :=
  sync_or_raise ctx (load_checkpoint_async self) db.

Definition mark_completed `{PyLib} (self : DurableExecution) (now : string)
    (ctx : event_loop) (db : Redis) : outcome unit :=
  sync_or_background ctx (mark_completed_async self now) db.

Definition mark_failed `{PyLib} (self : DurableExecution) (error : string)
    (now : string) (ctx : event_loop) (db : Redis) : outcome unit :=
  sync_or_background ctx (mark_failed_async self error now) db.

Definition get_execution_info `{PyLib} (self : DurableExecution)
    (ctx : event_loop) (db : Redis) : outcome (option (gmap string pyval)) :=
  sync_or_raise ctx (_get_execution_info_async self) db.

Definition load_by_id `{PyLib} (execution_id : string)
    (storage : RedisDurableStorage) (utcnow uuid4 : string)
    (ctx : event_loop) (db : Redis) : outcome (option DurableExecution) :=
  sync_or_raise ctx (load_by_id_async execution_id storage utcnow uuid4) db.

(** ** Auxiliary notions for the statements *)

(** A field value [v] for which [v or default] is a value redis-py stores. *)
Definition storable (v : pyval) : bool :=
  negb (truthy v) || bool_decide (is_Some (redis_encode v)).

(** A state whose metadata projection redis-py accepts. *)
Definition saveable (state : gmap string pyval) : Prop :=
  storable (dict_get state "status") = true ∧
  storable (dict_get state "step_name") = true ∧
  storable (dict_get state "timestamp") = true ∧
  storable (dict_get state "error") = true.

(** A sequence of saves [(execution_id, state, now)], in order. *)
Fixpoint save_all `{PyLib} (self : RedisDurableStorage)
    (saves : list (string * gmap string pyval * string)) (db : Redis) : result Redis :=
  match saves with
  | [] => Ok db
  | (execution_id, state, now) :: rest =>
      match save_state_async self execution_id state now db with
      | Ok db' => save_all self rest db'
      | Raise e => Raise e
      end
  end.

(** Every metadata hash carries, in its [execution_id] field, the
    identifier its key is made of; [save_state_async] writes them so. *)
Definition metadata_ids_ok (self : RedisDurableStorage) (db : Redis) : Prop :=
  ∀ j h, kv_hashes db !! _make_metadata_key self j = Some h →
         h !! "execution_id" = Some j.

(** Descending order of two listed entries: the first is not before the
    second by its sort key. *)
Definition desc (a b : gmap string pyval) : Prop :=
  key_lt (sort_key a) (sort_key b) = false.

(** The entry [list_executions_async] builds for identifier [i], if any. *)
Definition entry_for `{PyLib} (self : RedisDurableStorage) (db : Redis) (i : string)
    (e : gmap string pyval) : Prop :=
  let metadata := HGETALL (_make_metadata_key self i) db in
  metadata ≠ ∅ ∧ ∃ n, step_index_of metadata = Ok n ∧ e = list_entry i metadata n.

(** The half of the index invariant that saves keep: an identifier is in
    the index set of the status its metadata hash reports. *)
Definition index_sound (self : RedisDurableStorage) (db : Redis) : Prop :=
  ∀ i h s, kv_hashes db !! _make_metadata_key self i = Some h →
           h !! "status" = Some s →
           i ∈ SMEMBERS (_make_index_key self s) db.

(** The status of a state is a non-empty string. *)
Definition has_status (state : gmap string pyval) : Prop :=
  ∃ s, state !! "status" = Some (PStr s) ∧ s ≠ "".

(** An identifier whose keys cannot be taken for keys of another family. *)
Definition plain_id (i : string) : Prop :=
  String.prefix "meta:" i = false ∧ String.prefix "index:" i = false.

(** The test the cleanup loop makes on a metadata hash: a non-empty
    timestamp that parses to an instant before the cutoff. *)
Definition expired `{PyLib} (cutoff_date : Z) (metadata : gmap string string) : bool :=
  match metadata !! "timestamp" with
  | Some timestamp_str =>
      str_truthy timestamp_str &&
      match parse_timestamp timestamp_str with
      | Some timestamp => instant timestamp <? cutoff_date
      | None => false
      end
  | None => false
  end.

(** The two terminal index sets hold exactly the identifiers whose
    metadata reports that status, and only plain identifiers. *)
Definition terminal_index_exact (self : RedisDurableStorage) (db : Redis) : Prop :=
  ∀ S, S ∈ ["completed"; "failed"] →
       ∀ i, (i ∈ SMEMBERS (_make_index_key self S) db ↔
             HGETALL (_make_metadata_key self i) db !! "status" = Some S) ∧
            (i ∈ SMEMBERS (_make_index_key self S) db → plain_id i).

(** [db] is [db0] with the executions of [D] deleted. *)
Definition cleaned (self : RedisDurableStorage) (D : gset string) (db0 db : Redis) : Prop :=
  (∀ j, j ∉ D → plain_id j →
        kv_strings db !! _make_key self j = kv_strings db0 !! _make_key self j ∧
        kv_hashes db !! _make_metadata_key self j =
          kv_hashes db0 !! _make_metadata_key self j) ∧
  (∀ j, j ∈ D →
        kv_strings db !! _make_key self j = None ∧
        kv_hashes db !! _make_metadata_key self j = None) ∧
  (∀ S x, x ∈ SMEMBERS (_make_index_key self S) db →
          x ∈ SMEMBERS (_make_index_key self S) db0) ∧
  (∀ S x, x ∈ SMEMBERS (_make_index_key self S) db0 → x ∉ D →
          x ∈ SMEMBERS (_make_index_key self S) db).

(** The index invariant in full: an identifier is in the index set of a
    status exactly when its metadata hash reports that status. *)
Definition index_exact (self : RedisDurableStorage) (db : Redis) : Prop :=
  ∀ S i, i ∈ SMEMBERS (_make_index_key self S) db ↔
         HGETALL (_make_metadata_key self i) db !! "status" = Some S.

(** The members [rebuild_indexes] puts into the index sets: one for each
    key that matches the scan pattern and whose hash, once the indexes are
    cleared, has a non-empty status and a non-empty identifier. *)
Definition rebuilt (self : RedisDurableStorage) (db : Redis) (K x : string) : Prop :=
  ∃ k status,
    stringmatch (prefix self +:+ "meta:*") k = true ∧
    HGETALL k (clear_all_indexes self db) !! "status" = Some status ∧
    HGETALL k (clear_all_indexes self db) !! "execution_id" = Some x ∧
    status ≠ "" ∧ x ≠ "" ∧ K = _make_index_key self status.

(** A character with a meaning of its own in a MATCH pattern, and a string
    without any. *)
Definition glob_special (c : ascii) : bool :=
  Ascii.eqb c "*" || Ascii.eqb c "?" || Ascii.eqb c "[" || Ascii.eqb c backslash.

Fixpoint glob_free (s : string) : bool :=
  match s with
  | EmptyString => true
  | String c rest => negb (glob_special c) && glob_free rest
  end.

(** A state that [json.dumps] writes and [json.loads] reads back. *)
Definition round_trips `{PyLib} (state : gmap string pyval) : Prop :=
  ∃ text, json_dumps state = Encoded text ∧ json_loads text = Decoded state.

(** What a load makes of the decoding of a payload. *)
Definition loaded (d : decoding) : result (option (gmap string pyval)) :=
  match d with
  | Decoded state => Ok (Some state)
  | JSONDecodeError => Ok None
  | NotAState c => Raise (exn_of c)
  end.

(** A payload whose load returns, and a server that holds no other. *)
Definition loadable `{PyLib} (text : string) : bool :=
  match json_loads text with
  | NotAState _ => false
  | _ => true
  end.

Definition payloads_load `{PyLib} (db : Redis) : Prop :=
  map_Forall (λ _ text, loadable text = true) (kv_strings db).

(** The load of [i] returns. *)
Definition loads `{PyLib} (self : RedisDurableStorage) (db : Redis) (i : string) : Prop :=
  ∃ r, load_state_async self i db = Ok r.

(** ** A reference instance of [PyLib]

    Concrete stand-ins for the four library functions, so that the
    definitions above can be run on explicit inputs.  The codec writes a
    state as the binary digits of its code, and refuses, as [json.dumps]
    does, a state that holds an object whose [repr] is of the form
    [<... object at ...>]; it reads a text that opens a JSON array as
    [json.loads] and [ExecutionState] read it: a list, which is no mapping.
    [ref_int] reads an optional minus sign and decimal digits;
    [ref_fromisoformat] reads [YYYY-MM-DDTHH:MM:SS] with an optional
    [+HH:MM] or [-HH:MM] offset. *)

Definition pyval_to_sum (v : pyval)
  : unit + bool + Z + (bool * string) + string + (bool * string) :=
  match v with
  | PNone => inl (inl (inl (inl (inl tt))))
  | PBool b => inl (inl (inl (inl (inr b))))
  | PInt n => inl (inl (inl (inr n)))
  | PFloat nz r => inl (inl (inr (nz, r)))
  | PStr s => inl (inr s)
  | PContainer ne r => inr (ne, r)
  end.

Definition pyval_of_sum
    (x : unit + bool + Z + (bool * string) + string + (bool * string)) : pyval :=
  match x with
  | inl (inl (inl (inl (inl _)))) => PNone
  | inl (inl (inl (inl (inr b)))) => PBool b
  | inl (inl (inl (inr n))) => PInt n
  | inl (inl (inr (nz, r))) => PFloat nz r
  | inl (inr s) => PStr s
  | inr (ne, r) => PContainer ne r
  end.

Global Instance pyval_eq_dec : EqDecision pyval.
Proof. solve_decision. Defined.

Global Instance exn_eq_dec : EqDecision exn.
Proof. solve_decision. Defined.

Global Instance conversion_error_eq_dec : EqDecision conversion_error.
Proof. solve_decision. Defined.

Global Instance encoding_eq_dec : EqDecision encoding.
Proof. solve_decision. Defined.

Global Instance decoding_eq_dec : EqDecision decoding.
Proof. solve_decision. Defined.

Global Instance result_eq_dec {A : Type} `{EqDecision A} : EqDecision (result A).
Proof. solve_decision. Defined.

Global Instance Redis_eq_dec : EqDecision Redis.
Proof. solve_decision. Defined.

Global Instance pyval_countable : Countable pyval.
Proof.
  apply (inj_countable' pyval_to_sum pyval_of_sum).
  intros []; reflexivity.
Defined.

Fixpoint pos_to_bits (p : positive) : string :=
  match p with
  | xH => EmptyString
  | xO q => String "0"%char (pos_to_bits q)
  | xI q => String "1"%char (pos_to_bits q)
  end.

Fixpoint bits_to_pos (s : string) : option positive :=
  match s with
  | EmptyString => Some xH
  | String c rest =>
      if Ascii.eqb c "0"%char then xO <$> bits_to_pos rest
      else if Ascii.eqb c "1"%char then xI <$> bits_to_pos rest
      else None
  end.

Definition serialisable (v : pyval) : bool :=
  match v with
  | PContainer _ repr => negb (String.prefix "<" repr)
  | _ => true
  end.

Definition ref_dumps (state : gmap string pyval) : encoding :=
  if forallb (λ kv, serialisable kv.2) (map_to_list state)
  then Encoded (pos_to_bits (encode state))
  else Unencodable OfType.

Definition ref_loads (text : string) : decoding :=
  if String.prefix "[" text then NotAState OfType
  else
    match bits_to_pos text ≫= decode with
    | Some state => Decoded state
    | None => JSONDecodeError
    end.

Definition digit_of (c : ascii) : option Z :=
  let n := Z.of_nat (nat_of_ascii c) in
  if (48 <=? n) && (n <=? 57) then Some (n - 48) else None.

(** The value of a non-empty run of decimal digits, most significant first. *)
Fixpoint digits_value (acc : Z) (s : string) : option Z :=
  match s with
  | EmptyString => Some acc
  | String c rest =>
      match digit_of c with
      | Some d => digits_value (10 * acc + d) rest
      | None => None
      end
  end.

Definition parse_digits (s : string) : option Z :=
  match s with
  | EmptyString => None
  | _ => digits_value 0 s
  end.

Definition ref_int (s : string) : option Z :=
  match s with
  | String "-"%char rest => Z.opp <$> parse_digits rest
  | _ => parse_digits s
  end.

(** Days from 1970-01-01 to the civil date [y-m-d]. *)
Definition days_from_civil (y m d : Z) : Z :=
  let y' := if m <=? 2 then y - 1 else y in
  let era := y' / 400 in
  let yoe := y' - era * 400 in
  let doy := (153 * (if 2 <? m then m - 3 else m + 9) + 2) / 5 + d - 1 in
  let doe := yoe * 365 + yoe / 4 - yoe / 100 + doy in
  era * 146097 + doe - 719468.

Definition field (s : string) (start len : nat) : option Z :=
  parse_digits (String.substring start len s).

Definition ref_offset (s : string) : option (option Z) :=
  match s with
  | EmptyString => Some None
  | String sign rest =>
      if (String.length rest =? 5)%nat then
        h ← field rest 0 2;
        m ← field rest 3 2;
        let off := (h * 3600 + m * 60) * 1000000 in
        if Ascii.eqb sign "+"%char then Some (Some off)
        else if Ascii.eqb sign "-"%char then Some (Some (- off))
        else None
      else None
  end.

Definition ref_fromisoformat (s : string) : option datetime :=
  if (19 <=? String.length s)%nat then
    y ← field s 0 4;
    mo ← field s 5 2;
    d ← field s 8 2;
    h ← field s 11 2;
    mi ← field s 14 2;
    sec ← field s 17 2;
    off ← ref_offset (string_drop 19 s);
    Some {| wall := ((days_from_civil y mo d * 24 + h) * 60 + mi) * 60000000
                    + sec * 1000000;
            tzinfo := off |}
  else None.

Definition ref_pylib : PyLib :=
  {| json_dumps := ref_dumps;
     json_loads := ref_loads;
     py_int := ref_int;
     fromisoformat := ref_fromisoformat |}.

(** A serializer for the examples: the state is the dict of its arguments. *)
Definition ref_serializer : DurableStateSerializer unit unit (gmap string pyval) :=
  {| serialize_state := λ _ _ step_index step_name status error agent_state,
       <["step_index" := PInt step_index]>
       (<["step_name" := PStr step_name]>
       (<["status" := PStr status]>
       (<["error" := opt_str error]> ∅)));
     deserialize_state := λ state, state |}.

(** The storage with its default prefix, and two managers over it. *)
Definition ex_storage : RedisDurableStorage := {| prefix := "durable_exec:" |}.

Definition ex_state (status timestamp : string) : gmap string pyval :=
  <["status" := PStr status]>
  (<["step_index" := PInt 1]>
  (<["step_name" := PStr "process"]>
  (<["timestamp" := PStr timestamp]> ∅))).

Definition ex_manager (auto : bool) : DurableExecution :=
  {| storage := ex_storage; execution_id := "job-1";
     auto_cleanup := auto; debug := false |}.

Definition ok_or {A : Type} (dflt : A) (r : result A) : A :=
  match r with Ok a => a | Raise _ => dflt end.

Definition ex_old : string := "2020-01-01T00:00:00+00:00".

(** One execution saved as [running], then as [completed]. *)
Definition ex_saves_completed : list (string * gmap string pyval * string) :=
  [("job-1", ex_state "running" ex_old, "2020-01-01T00:00:05+00:00");
   ("job-1", ex_state "completed" ex_old, "2020-01-01T00:00:09+00:00")].

(** One execution saved as [failed], then resumed and saved as [running]. *)
Definition ex_saves_resumed : list (string * gmap string pyval * string) :=
  [("job-1", ex_state "failed" ex_old, "2020-01-01T00:00:05+00:00");
   ("job-1", ex_state "running" ex_old, "2020-01-01T00:00:09+00:00")].

(** One execution saved under a status outside the four, then as [running]. *)
Definition ex_saves_archived : list (string * gmap string pyval * string) :=
  [("job-1", ex_state "archived" ex_old, "2020-01-01T00:00:05+00:00");
   ("job-1", ex_state "running" ex_old, "2020-01-01T00:00:09+00:00")].


Definition ex_db (saves : list (string * gmap string pyval * string)) : Redis :=
  ok_or redis_empty (@save_all ref_pylib ex_storage saves redis_empty).

(** 2024-01-01T00:00:00Z in microseconds. *)
Definition ex_now : Z := 1704067200000000.

Definition ex_running : gmap string pyval := ex_state "running" ex_old.
Definition ex_completed : gmap string pyval := ex_state "completed" ex_old.
Definition ex_done : gmap string pyval :=
  ex_state "completed" "2021-06-01T00:00:00+00:00".
Definition ex_t1 : string := "2020-01-01T00:00:05+00:00".
Definition ex_t2 : string := "2020-01-01T00:00:09+00:00".
Definition ex_t3 : string := "2020-01-01T00:00:12+00:00".

(** The server after [job-1] has been saved once, as [running]. *)
Definition ex_db1 : Redis := ex_db [("job-1", ex_running, ex_t1)].

(** A population saved once each: a running record, an old and a young
    completed one, a failed one with an unreadable timestamp, an old failed
    one. *)
Definition ex_population : list (string * gmap string pyval * string) :=
  [("job-run", ex_state "running" ex_old, ex_t1);
   ("job-done", ex_state "completed" ex_old, ex_t1);
   ("job-new", ex_state "completed" "2023-12-31T00:00:00Z", ex_t1);
   ("job-bad", ex_state "failed" "yesterday", ex_t1);
   ("job-fail", ex_state "failed" ex_old, ex_t1)].

(** The server after [job-1] was saved as [running] and [job-2] as
    [completed]. *)
Definition ex_db2 : Redis :=
  ex_db [("job-1", ex_running, ex_t1); ("job-2", ex_done, ex_t2)].


(** The unfiltered listing of [ex_db2]. *)
Definition ex_listing2 : list (gmap string pyval) :=
  ok_or [] (@list_executions_async ref_pylib ex_storage None None ex_db2).

(** The unfiltered listing of [ex_db2] after [job-2] was deleted. *)
Definition ex_listing_deleted : list (gmap string pyval) :=
  ok_or []
    (@list_executions_async ref_pylib ex_storage None None
       (@delete_state_async ref_pylib ex_storage "job-2" ex_db2).1).

(** A storage whose prefix holds characters that a MATCH pattern reads as
    a class, and the server after one save through it. *)
Definition ex_glob_storage : RedisDurableStorage := {| prefix := "app[1]:" |}.

Definition ex_glob_db : Redis :=
  ok_or redis_empty
    (@save_state_async ref_pylib ex_glob_storage "job-1" ex_done ex_t1 redis_empty).

(** [ex_db1] after another client has put the JSON array [[1, 2]] under
    the key of [job-1]. *)
Definition ex_foreign_db : Redis :=
  (exec_command (SET "durable_exec:job-1" "[1, 2]") ex_db1).1.

(** [ex_population] after another client has put [[1, 2]] under the key
    of [job-done]. *)
Definition ex_foreign_population : Redis :=
  (exec_command (SET "durable_exec:job-done" "[1, 2]") (ex_db ex_population)).1.

(** A state that holds an object [json.dumps] does not serialise. *)
Definition ex_unserialisable : gmap string pyval :=
  <["agent_state" := PContainer true "<object object at 0x7f3a5c0b8e10>"]> ex_running.

(** * Properties *)

(** Closed, decidable statements about explicit inputs are settled by
    running their decision procedure. *)
Ltac decide_by_computation :=
  lazymatch goal with
  | |- ?P => apply (bool_decide_unpack P); vm_compute; exact I
  end.

(** ** Keys *)

Lemma string_app_cons (c : ascii) (s t : string) :
  String c s +:+ t = String c (s +:+ t).
Proof. reflexivity. Qed.

Lemma string_app_assoc (s t u : string) : (s +:+ t) +:+ u = s +:+ t +:+ u.
Proof.
  induction s as [|c s IH]; [done|]. rewrite !string_app_cons. by f_equal.
Qed.

Lemma _make_key_inj self : Inj (=) (=) (_make_key self).
Proof. intros i j Hij. unfold _make_key in Hij. by apply (inj _) in Hij. Qed.

Lemma _make_metadata_key_inj self : Inj (=) (=) (_make_metadata_key self).
Proof.
  intros i j Hij. unfold _make_metadata_key in Hij.
  apply (inj _) in Hij. by apply (inj _) in Hij.
Qed.

Lemma _make_index_key_inj self : Inj (=) (=) (_make_index_key self).
Proof.
  intros i j Hij. unfold _make_index_key in Hij.
  apply (inj _) in Hij. by apply (inj _) in Hij.
Qed.

Lemma metadata_key_not_index_key self i s :
  _make_metadata_key self i ≠ _make_index_key self s.
Proof.
  unfold _make_metadata_key, _make_index_key. intros Heq.
  apply (inj _) in Heq. discriminate Heq.
Qed.

Lemma prefix_app (p s : string) : String.prefix p (p +:+ s) = true.
Proof.
  induction p as [|c p IH]; [by destruct s|].
  rewrite string_app_cons. simpl.
  destruct (ascii_dec c c); [done | congruence].
Qed.

Lemma string_drop_app (p s : string) : string_drop (String.length p) (p +:+ s) = s.
Proof. induction p as [|c p IH]; [done|]. by rewrite string_app_cons. Qed.

Lemma prefix_split (p k : string) :
  String.prefix p k = true → k = p +:+ string_drop (String.length p) k.
Proof.
  revert k. induction p as [|c p IH]; intros k Hk.
  - by destruct k.
  - destruct k as [|d k]; [done|]. simpl in Hk.
    destruct (ascii_dec c d) as [->|]; [|done].
    rewrite string_app_cons. simpl. f_equal. by apply IH.
Qed.

Lemma str_truthy_true (s : string) : str_truthy s = true ↔ s ≠ "".
Proof.
  unfold str_truthy. destruct (String.eqb_spec s ""); simpl; split; congruence.
Qed.

Lemma elem_of_scan_iter pat (db : Redis) k :
  k ∈ scan_iter pat db ↔
  stringmatch pat k = true ∧
  k ∈ dom (kv_strings db) ∪ dom (kv_hashes db) ∪ dom (kv_sets db).
Proof. unfold scan_iter. by rewrite list_elem_of_filter, elem_of_elements. Qed.

(** *** Patterns without special characters *)

Lemma glob_tokens_plain (c : ascii) (rest : string) :
  glob_special c = false → glob_tokens (String c rest) = GLit c :: glob_tokens rest.
Proof.
  unfold glob_special. intros Hc.
  apply orb_false_elim in Hc as [Hc Hbackslash].
  apply orb_false_elim in Hc as [Hc Hclass].
  apply orb_false_elim in Hc as [Hstar Hany].
  cbn [glob_tokens]. rewrite Hstar, Hany, Hclass, Hbackslash. reflexivity.
Qed.

Lemma glob_match_star (s : string) : glob_match [GStar] s = true.
Proof. induction s as [|c s IH]; [reflexivity|]. exact IH. Qed.

Lemma glob_free_app (p q : string) :
  glob_free p = true → glob_free q = true → glob_free (p +:+ q) = true.
Proof.
  intros Hp Hq. induction p as [|c p IH]; [exact Hq|].
  rewrite string_app_cons. cbn [glob_free] in *.
  apply andb_true_iff in Hp as [Hc Hp]. rewrite Hc. exact (IH Hp).
Qed.

(** A pattern that is a literal followed by [*] selects the keys that
    begin with the literal. *)
Lemma stringmatch_literal_star (p k : string) :
  glob_free p = true → stringmatch (p +:+ "*") k = String.prefix p k.
Proof.
  unfold stringmatch. revert k. induction p as [|c p IH]; intros k Hp.
  - change (glob_match [GStar] k = String.prefix "" k).
    rewrite (glob_match_star k). by destruct k.
  - cbn [glob_free] in Hp. apply andb_true_iff in Hp as [Hc Hp].
    apply negb_true_iff in Hc.
    rewrite string_app_cons, (glob_tokens_plain _ _ Hc).
    destruct k as [|d k]; [reflexivity|].
    cbn [glob_match String.prefix]. rewrite (IH k Hp).
    destruct (ascii_dec c d) as [->|Hne].
    + by rewrite Ascii.eqb_refl.
    + apply Ascii.eqb_neq in Hne. by rewrite Hne.
Qed.

Lemma stringmatch_metadata self (k : string) :
  glob_free (prefix self) = true →
  stringmatch (prefix self +:+ "meta:*") k = String.prefix (prefix self +:+ "meta:") k.
Proof.
  intros Hfree.
  change "meta:*" with ("meta:" +:+ "*"). rewrite <- string_app_assoc.
  apply stringmatch_literal_star. by apply glob_free_app.
Qed.

(** With such a prefix the scan finds every identifier that has a
    metadata hash. *)
Lemma scanned_ids_metadata self (db : Redis) i :
  glob_free (prefix self) = true →
  is_Some (kv_hashes db !! _make_metadata_key self i) → i ∈ scanned_ids self db.
Proof.
  intros Hfree Hi. unfold scanned_ids. cbv zeta.
  apply elem_of_list_to_set, list_elem_of_fmap.
  exists (_make_metadata_key self i). split.
  - unfold _make_metadata_key. by rewrite <- string_app_assoc, string_drop_app.
  - apply elem_of_scan_iter. split.
    + rewrite (stringmatch_metadata _ _ Hfree).
      unfold _make_metadata_key. rewrite <- string_app_assoc. apply prefix_app.
    + by apply elem_of_union_l, elem_of_union_r, elem_of_dom.
Qed.

(** ** Saving and loading *)

Section storage.
Context `{PyLib}.
Implicit Types (self : RedisDurableStorage) (db : Redis).
Implicit Types (state : gmap string pyval) (mapping : gmap string string).

Lemma py_or_str_not_none a s : is_none (py_or a (PStr s)) = false.
Proof. unfold py_or. destruct (truthy a) eqn:Ha; [|done]. by destruct a. Qed.

(** The [is not None] filter of [_save_to_redis] never drops a field. *)
Lemma save_metadata_fields i state :
  save_metadata i state =
    <["execution_id" := PStr i]>
    (<["status" := py_or (dict_get state "status") (PStr "running")]>
    (<["step_index" := PStr (py_str (dict_get_default state "step_index" (PInt 0)))]>
    (<["step_name" := py_or (dict_get state "step_name") (PStr "unknown")]>
    (<["timestamp" := py_or (dict_get state "timestamp") (PStr "")]>
    (<["saved_at" := py_or (dict_get state "saved_at") (PStr "")]>
    (<["error" := py_or (dict_get state "error") (PStr "")]> ∅)))))).
Proof.
  unfold save_metadata. apply map_filter_id.
  intros k v Hkv. simpl.
  repeat (apply lookup_insert_Some in Hkv as [[_ <-]|[_ Hkv]];
          [first [done | apply py_or_str_not_none]|]).
  by rewrite lookup_empty in Hkv.
Qed.

Lemma save_metadata_dom i state : dom (save_metadata i state) = metadata_fields.
Proof.
  rewrite save_metadata_fields, !dom_insert_L, dom_empty_L.
  unfold metadata_fields. set_solver.
Qed.

Lemma encode_mapping_Some (m : gmap string pyval) mapping :
  encode_mapping m = Some mapping →
  mapping = omap redis_encode m ∧ dom mapping = dom m.
Proof.
  unfold encode_mapping. case_bool_decide as Hall; [|done].
  intros [= <-]. split; [done|].
  apply set_eq. intros k. rewrite !elem_of_dom, lookup_omap.
  destruct (m !! k) as [v|] eqn:Hk; simpl.
  - specialize (Hall k v Hk). simpl in Hall.
    split; intros _; [by eexists | exact Hall].
  - split; intros [? ?]; discriminate.
Qed.

Lemma Ok_inj {A : Type} (a b : A) : Ok a = Ok b → a = b.
Proof. by intros [= ->]. Qed.

(** What a successful save leaves on the server. *)
Lemma save_state_async_Ok self i state now db db' :
  save_state_async self i state now db = Ok db' →
  ∃ payload mapping,
    json_dumps (stamp i now state) = Encoded payload ∧
    encode_mapping (save_metadata i (stamp i now state)) = Some mapping ∧
    kv_strings db' = <[_make_key self i := payload]> (kv_strings db) ∧
    kv_hashes db' =
      <[_make_metadata_key self i :=
          mapping ∪ HGETALL (_make_metadata_key self i) db]> (kv_hashes db) ∧
    kv_sets db' =
      <[_make_index_key self
          (py_str (dict_get_default (stamp i now state) "status" (PStr "running"))) :=
          {[i]} ∪ SMEMBERS
                   (_make_index_key self
                      (py_str (dict_get_default (stamp i now state) "status"
                                 (PStr "running")))) db]> (kv_sets db).
Proof.
  unfold save_state_async.
  destruct (json_dumps _) as [payload|c] eqn:Hdumps; [|done].
  destruct (encode_mapping _) as [mapping|] eqn:Henc; [|done].
  intros [= <-]. exists payload, mapping.
  unfold HGETALL, SMEMBERS.
  cbn [pipeline_execute exec_command fst snd kv_strings kv_hashes kv_sets].
  repeat split; reflexivity.
Qed.

(** A save raises what [json.dumps] raises, or else the [DataError] of a
    metadata value that redis-py does not encode. *)
Lemma save_state_async_Raise self i state now db e :
  save_state_async self i state now db = Raise e →
  (∃ c, json_dumps (stamp i now state) = Unencodable c ∧ e = exn_of c) ∨
  (∃ payload, json_dumps (stamp i now state) = Encoded payload ∧
     encode_mapping (save_metadata i (stamp i now state)) = None ∧ e = DataError).
Proof.
  unfold save_state_async.
  destruct (json_dumps _) as [payload|c] eqn:Hdumps.
  - destruct (encode_mapping _); [done|]. intros [= <-]. right. by exists payload.
  - intros [= <-]. left. by exists c.
Qed.

(** Whether a save returns does not depend on the server. *)
Lemma save_state_async_any_server self i state now db db1 db' :
  save_state_async self i state now db = Ok db' →
  ∃ db1', save_state_async self i state now db1 = Ok db1'.
Proof.
  unfold save_state_async.
  destruct (json_dumps _) as [payload|c]; [|done].
  destruct (encode_mapping _) as [mapping|]; [|done].
  intros _. by eexists.
Qed.

(** A load is the decoding of what the primary key holds. *)
Lemma load_state_async_payload self i db payload :
  GET (_make_key self i) db = Some payload →
  load_state_async self i db = loaded (json_loads payload).
Proof. unfold load_state_async. by intros ->. Qed.

Lemma load_after_save self i state now db db' :
  save_state_async self i state now db = Ok db' →
  ∃ payload, json_dumps (stamp i now state) = Encoded payload ∧
             GET (_make_key self i) db' = Some payload.
Proof.
  intros (payload & mapping & Hdumps & _ & Hs & _ & _)%save_state_async_Ok.
  exists payload. split; [exact Hdumps|].
  unfold GET. by rewrite Hs, lookup_insert_eq.
Qed.

(** After the save of a state on which the codec round-trips, a load
    gives the state back, stamped. *)
Lemma load_after_save_round_trips self i state now db db' :
  save_state_async self i state now db = Ok db' →
  round_trips (stamp i now state) →
  load_state_async self i db' = Ok (Some (stamp i now state)).
Proof.
  intros (payload & Hpayload & Hget)%load_after_save (text & Hdumps & Hloads).
  rewrite (load_state_async_payload _ _ _ _ Hget).
  assert (payload = text) as -> by congruence. by rewrite Hloads.
Qed.

(** Two mappings over the same fields: the later one hides the earlier. *)
Lemma union_same_dom (m2 m1 old : gmap string string) :
  dom m1 = dom m2 → m2 ∪ (m1 ∪ old) = m2 ∪ old.
Proof.
  intros Hdom. apply map_eq. intros k. rewrite !lookup_union.
  destruct (m2 !! k) as [v|] eqn:H2; [by rewrite !union_Some_l|].
  assert (m1 !! k = None) as ->.
  { apply not_elem_of_dom. rewrite Hdom. by apply not_elem_of_dom. }
  by rewrite !(left_id_L None _).
Qed.

(** C3. Saving twice under one identifier leaves the second save's payload
    under the primary key and nothing of the first: the primary and the
    metadata entries are those of the second save alone, and a load is the
    decoding of the second payload, which is the second state itself
    (stamped) when the codec round-trips on it.  Under a prefix without
    pattern characters the identifier is one of those a scan finds. *)
Theorem save_twice_last_write_wins self i state1 state2 now1 now2 db db1 db2 :
  save_state_async self i state1 now1 db = Ok db1 →
  save_state_async self i state2 now2 db1 = Ok db2 →
  ∃ payload,
    json_dumps (stamp i now2 state2) = Encoded payload ∧
    GET (_make_key self i) db2 = Some payload ∧
    load_state_async self i db2 = loaded (json_loads payload) ∧
    (json_loads payload = Decoded (stamp i now2 state2) →
     load_state_async self i db2 = Ok (Some (stamp i now2 state2))) ∧
    (glob_free (prefix self) = true → i ∈ scanned_ids self db2) ∧
    (∃ db2', save_state_async self i state2 now2 db = Ok db2' ∧
             kv_strings db2 = kv_strings db2' ∧ kv_hashes db2 = kv_hashes db2').
Proof.
  intros H1 H2.
  destruct (load_after_save _ _ _ _ _ _ H2) as (payload & Hdumps & Hget).
  pose proof (load_state_async_payload _ _ _ _ Hget) as Hload.
  destruct (save_state_async_Ok _ _ _ _ _ _ H1) as (p1 & m1 & _ & He1 & Hs1 & Hh1 & _).
  destruct (save_state_async_Ok _ _ _ _ _ _ H2) as (p2 & m2 & Hd2 & He2 & Hs2 & Hh2 & _).
  assert (p2 = payload) as -> by congruence.
  exists payload. split; [exact Hdumps|]. split; [exact Hget|].
  split; [exact Hload|].
  split; [by intros Hround; rewrite Hload, Hround|].
  split.
  { intros Hfree. apply scanned_ids_metadata; [exact Hfree|].
    rewrite Hh2, lookup_insert_eq. by eexists. }
  destruct (save_state_async_any_server _ _ _ _ _ db _ H2) as [db2' H2'].
  destruct (save_state_async_Ok _ _ _ _ _ _ H2') as (p2' & m2' & Hd2' & He2' & Hs2' & Hh2' & _).
  assert (m2' = m2) as -> by congruence.
  assert (p2' = payload) as -> by congruence.
  exists db2'. split; [exact H2'|]. split.
  - by rewrite Hs2, Hs1, Hs2', insert_insert_eq.
  - rewrite Hh2, Hh2'. unfold HGETALL at 1.
    rewrite Hh1, lookup_insert_eq, insert_insert_eq. simpl.
    f_equal. apply union_same_dom.
    apply encode_mapping_Some in He1 as [_ ->].
    apply encode_mapping_Some in He2 as [_ ->].
    by rewrite !save_metadata_dom.
Qed.

(** The outcomes of a load: [None] when the primary key is missing and
    when [json.loads] rejects the payload; the exception of
    [ExecutionState] when the payload is JSON but no object; and a state
    only as the complete decoding of the stored payload. *)
Lemma load_state_async_cases self i db :
  (GET (_make_key self i) db = None → load_state_async self i db = Ok None) ∧
  (∀ payload, GET (_make_key self i) db = Some payload →
     json_loads payload = JSONDecodeError → load_state_async self i db = Ok None) ∧
  (∀ payload c, GET (_make_key self i) db = Some payload →
     json_loads payload = NotAState c →
     load_state_async self i db = Raise (exn_of c)) ∧
  (∀ state, load_state_async self i db = Ok (Some state) →
     ∃ payload, GET (_make_key self i) db = Some payload ∧
                json_loads payload = Decoded state).
Proof.
  unfold load_state_async. repeat split.
  - by intros ->.
  - by intros payload -> ->.
  - by intros payload c -> ->.
  - intros state. destruct (GET _ db) as [payload|]; [|done].
    destruct (json_loads payload) eqn:Hp; [|done|done].
    intros [= <-]. by exists payload.
Qed.

End storage.

(** ** The manager: completion and failure *)

Section manager.
Context `{PyLib}.
Implicit Types (self : DurableExecution) (db : Redis).
Implicit Types (state : gmap string pyval).

Lemma storable_py_or v d :
  storable v = true → is_Some (redis_encode (py_or v (PStr d))).
Proof.
  unfold storable, py_or. destruct (truthy v); simpl; [|by eauto].
  by intros ?%bool_decide_eq_true.
Qed.

Lemma dict_get_stamp i now state k :
  k ≠ "execution_id" → k ≠ "saved_at" →
  dict_get (stamp i now state) k = dict_get state k.
Proof.
  intros ? ?. unfold dict_get, stamp. by rewrite !lookup_insert_ne.
Qed.

(** The metadata of a saveable state is a mapping redis-py accepts. *)
Lemma encode_mapping_saveable i state now :
  saveable state → is_Some (encode_mapping (save_metadata i (stamp i now state))).
Proof.
  intros (Hstatus & Hname & Hts & Herr).
  destruct (encode_mapping _) as [mapping|] eqn:Henc; [by eexists|].
  exfalso. unfold encode_mapping in Henc.
  case_bool_decide as Hall; [done|]. apply Hall. clear Henc Hall.
  rewrite save_metadata_fields.
  assert (is_Some (redis_encode
            (py_or (dict_get (stamp i now state) "saved_at") (PStr "")))) as Hsaved.
  { unfold dict_get, stamp. rewrite lookup_insert_ne, lookup_insert_eq by done.
    simpl. unfold py_or. by destruct (truthy _); eexists. }
  rewrite (dict_get_stamp i now state "status"),
    (dict_get_stamp i now state "step_name"),
    (dict_get_stamp i now state "timestamp"),
    (dict_get_stamp i now state "error") by done.
  repeat (apply map_Forall_insert_2;
          [first [by eexists | by apply storable_py_or | exact Hsaved]|]).
  apply map_Forall_empty.
Qed.

(** A saveable state that [json.dumps] serialises is saved. *)
Lemma save_state_async_saveable (st : RedisDurableStorage) i state now db payload :
  json_dumps (stamp i now state) = Encoded payload →
  saveable state → ∃ db', save_state_async st i state now db = Ok db'.
Proof.
  intros Hdumps [mapping Henc]%(encode_mapping_saveable i state now).
  unfold save_state_async. rewrite Hdumps, Henc. by eexists.
Qed.

(** A state that [json.dumps] refuses is not saved, and nothing is written. *)
Lemma save_state_async_unencodable (st : RedisDurableStorage) i state now db c :
  json_dumps (stamp i now state) = Unencodable c →
  save_state_async st i state now db = Raise (exn_of c).
Proof. intros Hdumps. unfold save_state_async. by rewrite Hdumps. Qed.

Lemma stamp_nonempty i now state : stamp i now state ≠ ∅.
Proof. unfold stamp. apply insert_non_empty. Qed.

Lemma saveable_stamp i now state : saveable state → saveable (stamp i now state).
Proof. unfold saveable. by rewrite !dict_get_stamp. Qed.

Lemma py_or_encoded_storable v d :
  is_Some (redis_encode (py_or v (PStr d))) → storable v = true.
Proof.
  unfold storable, py_or. destruct (truthy v); simpl; [|done].
  intros ?. by apply bool_decide_eq_true.
Qed.

(** A state that a save has accepted is saveable. *)
Lemma save_state_async_saveable_inv (st : RedisDurableStorage) i state now db db' :
  save_state_async st i state now db = Ok db' → saveable state.
Proof.
  intros (payload & mapping & _ & Henc & _)%save_state_async_Ok.
  unfold encode_mapping in Henc. case_bool_decide as Hall; [|done]. clear Henc.
  rewrite save_metadata_fields in Hall.
  unfold saveable.
  rewrite <- (dict_get_stamp i now state "status"),
    <- (dict_get_stamp i now state "step_name"),
    <- (dict_get_stamp i now state "timestamp"),
    <- (dict_get_stamp i now state "error") by done.
  repeat split; eapply py_or_encoded_storable.
  - by eapply (Hall "status"); simplify_map_eq.
  - by eapply (Hall "step_name"); simplify_map_eq.
  - by eapply (Hall "timestamp"); simplify_map_eq.
  - by eapply (Hall "error"); simplify_map_eq.
Qed.

(** A delete whose load raises writes nothing. *)
Lemma delete_state_async_Raise (st : RedisDurableStorage) i db e :
  load_state_async st i db = Raise e → delete_state_async st i db = (db, Raise e).
Proof. intros Hload. unfold delete_state_async. by rewrite Hload. Qed.

(** A delete returns exactly when its load does. *)
Lemma delete_state_async_returns (st : RedisDurableStorage) i db :
  (∃ r, load_state_async st i db = Ok r) ↔
  (∃ db' deleted, delete_state_async st i db = (db', Ok deleted)).
Proof.
  unfold delete_state_async.
  destruct (load_state_async st i db) as [r|e]; split.
  - intros _. destruct (pipeline_execute _ db) as [db' results]. by eexists _, _.
  - intros _. by eexists.
  - by intros [r [=]].
  - by intros (db' & deleted & [=]).
Qed.

Lemma delete_state_async_strings (st : RedisDurableStorage) i db db' deleted :
  delete_state_async st i db = (db', Ok deleted) →
  kv_strings db' =
    delete (_make_metadata_key st i) (delete (_make_key st i) (kv_strings db)).
Proof.
  unfold delete_state_async.
  destruct (load_state_async st i db) as [[state|]|e];
    [destruct (dict_truthy state)| |]; intros [= <- _]; reflexivity.
Qed.

Lemma load_after_delete (st : RedisDurableStorage) i db db' deleted :
  delete_state_async st i db = (db', Ok deleted) →
  load_state_async st i db' = Ok None.
Proof.
  intros Hs%delete_state_async_strings.
  unfold load_state_async, GET. rewrite Hs.
  destruct (decide (_make_metadata_key st i = _make_key st i)) as [->|Hne].
  - by rewrite lookup_delete_eq.
  - by rewrite lookup_delete_ne, lookup_delete_eq.
Qed.

Lemma dict_truthy_true state : dict_truthy state = true ↔ state ≠ ∅.
Proof. unfold dict_truthy. apply bool_decide_eq_true. Qed.

Lemma storable_PStr s : storable (PStr s) = true.
Proof. unfold storable. simpl. apply orb_true_r. Qed.

Lemma saveable_insert_status state s :
  saveable state → saveable (<["status" := PStr s]> state).
Proof.
  intros (_ & ? & ? & ?). unfold saveable, dict_get.
  rewrite lookup_insert_eq, !lookup_insert_ne by done. repeat split; try done.
  apply storable_PStr.
Qed.

Lemma saveable_insert_error state s :
  saveable state → saveable (<["error" := PStr s]> state).
Proof.
  intros (? & ? & ? & _). unfold saveable, dict_get.
  rewrite lookup_insert_eq, !lookup_insert_ne by done. repeat split; try done.
  apply storable_PStr.
Qed.

(** C6. With auto-cleanup, [mark_completed_async] on a record that loads
    deletes it, and a load that follows finds nothing; when the load raises,
    so does the call, and the server is as it was.  Without auto-cleanup,
    and with a record in place, it saves the loaded state again with
    [status] set to [completed]: when [json.dumps] serialises that state, a
    load that follows decodes the payload, whose [status] is [completed]
    when the codec round-trips on it; when [json.dumps] refuses it, the
    call raises and the server is as it was. *)
Theorem mark_completed_async_effect self now db :
  (auto_cleanup self = true →
   (∀ r, load_state_async (storage self) (execution_id self) db = Ok r →
      ∃ db' deleted,
        delete_state_async (storage self) (execution_id self) db = (db', Ok deleted) ∧
        mark_completed_async self now db = (db', Ok tt) ∧
        GET (_make_key (storage self) (execution_id self)) db' = None ∧
        load_state_async (storage self) (execution_id self) db' = Ok None) ∧
   (∀ e, load_state_async (storage self) (execution_id self) db = Raise e →
      mark_completed_async self now db = (db, Raise e))) ∧
  (auto_cleanup self = false →
   ∀ state,
     load_state_async (storage self) (execution_id self) db = Ok (Some state) →
     state ≠ ∅ → saveable state →
     let state' := stamp (execution_id self) now (<["status" := PStr "completed"]> state) in
     state' !! "status" = Some (PStr "completed") ∧
     (∀ payload, json_dumps state' = Encoded payload →
        ∃ db', mark_completed_async self now db = (db', Ok tt) ∧
               save_state_async (storage self) (execution_id self)
                 (<["status" := PStr "completed"]> state) now db = Ok db' ∧
               GET (_make_key (storage self) (execution_id self)) db' = Some payload ∧
               load_state_async (storage self) (execution_id self) db' =
                 loaded (json_loads payload) ∧
               (json_loads payload = Decoded state' →
                load_state_async (storage self) (execution_id self) db' =
                  Ok (Some state'))) ∧
     (∀ c, json_dumps state' = Unencodable c →
        mark_completed_async self now db = (db, Raise (exn_of c)))).
Proof.
  split.
  - intros Hauto. split.
    + intros r Hload.
      destruct (proj1 (delete_state_async_returns _ _ _) (ex_intro _ r Hload))
        as (db' & deleted & Hdel).
      exists db', deleted. split; [exact Hdel|].
      pose proof (load_after_delete _ _ _ _ _ Hdel) as Hafter.
      pose proof (delete_state_async_strings _ _ _ _ _ Hdel) as Hs.
      split; [|split; [|exact Hafter]].
      * unfold mark_completed_async. by rewrite Hauto, Hdel.
      * unfold GET. rewrite Hs.
        destruct (decide (_make_metadata_key (storage self) (execution_id self)
                          = _make_key (storage self) (execution_id self))) as [->|Hne].
        -- by rewrite lookup_delete_eq.
        -- by rewrite lookup_delete_ne, lookup_delete_eq.
    + intros e Hload. unfold mark_completed_async.
      by rewrite Hauto, (delete_state_async_Raise _ _ _ _ Hload).
  - intros Hauto state Hload Hne Hsave state'. split; [|split].
    + unfold state', stamp. do 2 (rewrite lookup_insert_ne by done).
      apply lookup_insert_eq.
    + intros payload Hdumps.
      destruct (save_state_async_saveable (storage self) (execution_id self)
                  (<["status" := PStr "completed"]> state) now db payload Hdumps)
        as [db' Hdb'].
      { by apply saveable_insert_status. }
      exists db'. unfold mark_completed_async.
      rewrite Hauto, Hload, (proj2 (dict_truthy_true _) Hne), Hdb'.
      destruct (load_after_save _ _ _ _ _ _ Hdb') as (payload' & Hdumps' & Hget).
      assert (payload' = payload) as ->.
      { fold state' in Hdumps'. congruence. }
      pose proof (load_state_async_payload _ _ _ _ Hget) as Hl.
      split; [reflexivity|]. split; [reflexivity|]. split; [exact Hget|].
      split; [exact Hl|].
      intros Hrt. by rewrite Hl, Hrt.
    + intros c Hdumps. unfold mark_completed_async.
      rewrite Hauto, Hload, (proj2 (dict_truthy_true _) Hne).
      by rewrite (save_state_async_unencodable _ _ _ _ _ _ Hdumps).
Qed.

(** C7. [mark_failed_async] without a record leaves the server as it is,
    and when the load raises, so does the call, with the server as it was.
    With a record in place it saves the loaded state again with [status]
    set to [failed] and [error] set to the message: when [json.dumps]
    serialises that state, a load that follows decodes the payload; when
    [json.dumps] refuses it, the call raises and the server is as it
    was. *)
Theorem mark_failed_async_effect self error now db :
  (load_state_async (storage self) (execution_id self) db = Ok None →
   mark_failed_async self error now db = (db, Ok tt)) ∧
  (∀ e, load_state_async (storage self) (execution_id self) db = Raise e →
     mark_failed_async self error now db = (db, Raise e)) ∧
  (∀ state,
     load_state_async (storage self) (execution_id self) db = Ok (Some state) →
     state ≠ ∅ → saveable state →
     let failed := <["error" := PStr error]> (<["status" := PStr "failed"]> state) in
     let state' := stamp (execution_id self) now failed in
     state' !! "status" = Some (PStr "failed") ∧
     state' !! "error" = Some (PStr error) ∧
     (∀ payload, json_dumps state' = Encoded payload →
        ∃ db', mark_failed_async self error now db = (db', Ok tt) ∧
               save_state_async (storage self) (execution_id self) failed now db
                 = Ok db' ∧
               GET (_make_key (storage self) (execution_id self)) db' = Some payload ∧
               load_state_async (storage self) (execution_id self) db' =
                 loaded (json_loads payload) ∧
               (json_loads payload = Decoded state' →
                load_state_async (storage self) (execution_id self) db' =
                  Ok (Some state'))) ∧
     (∀ c, json_dumps state' = Unencodable c →
        mark_failed_async self error now db = (db, Raise (exn_of c)))).
Proof.
  split; [|split].
  - intros Hload. unfold mark_failed_async. by rewrite Hload.
  - intros e Hload. unfold mark_failed_async. by rewrite Hload.
  - intros state Hload Hne Hsave failed state'. split; [|split; [|split]].
    + unfold state', stamp, failed. do 3 (rewrite lookup_insert_ne by done).
      apply lookup_insert_eq.
    + unfold state', stamp, failed. do 2 (rewrite lookup_insert_ne by done).
      apply lookup_insert_eq.
    + intros payload Hdumps.
      destruct (save_state_async_saveable (storage self) (execution_id self)
                  failed now db payload Hdumps) as [db' Hdb'].
      { by apply saveable_insert_error, saveable_insert_status. }
      exists db'. unfold mark_failed_async.
      rewrite Hload, (proj2 (dict_truthy_true _) Hne). fold failed. rewrite Hdb'.
      destruct (load_after_save _ _ _ _ _ _ Hdb') as (payload' & Hdumps' & Hget).
      assert (payload' = payload) as ->.
      { fold state' in Hdumps'. congruence. }
      pose proof (load_state_async_payload _ _ _ _ Hget) as Hl.
      split; [reflexivity|]. split; [reflexivity|]. split; [exact Hget|].
      split; [exact Hl|].
      intros Hrt. by rewrite Hl, Hrt.
    + intros c Hdumps. unfold mark_failed_async.
      rewrite Hload, (proj2 (dict_truthy_true _) Hne). fold failed.
      by rewrite (save_state_async_unencodable _ _ _ _ _ _ Hdumps).
Qed.

End manager.

(** ** Rebuilding the status indexes *)

Section rebuild.
Implicit Types (self : RedisDurableStorage) (db : Redis).

(** Deleting a list of keys, as [clear_all_indexes] does for its four. *)
Lemma clear_fold_lookup self (l : list string) db K :
  let db' := foldl (λ db status,
                      (exec_command (DEL (_make_index_key self status)) db).1) db l in
  (kv_hashes db' !! K =
     if bool_decide (K ∈ _make_index_key self <$> l) then None else kv_hashes db !! K) ∧
  (kv_sets db' !! K =
     if bool_decide (K ∈ _make_index_key self <$> l) then None else kv_sets db !! K).
Proof.
  revert db. induction l as [|s l IH]; intros db; cbn [foldl fmap list_fmap].
  - rewrite bool_decide_eq_false_2 by apply not_elem_of_nil. done.
  - destruct (IH (exec_command (DEL (_make_index_key self s)) db).1) as [Hh Hs].
    cbn zeta in Hh, Hs. rewrite Hh, Hs. clear IH Hh Hs.
    cbn [exec_command fst kv_hashes kv_sets].
    destruct (decide (K ∈ _make_index_key self <$> l)) as [Hin|Hin].
    + rewrite !bool_decide_eq_true_2; [done | by right | done].
    + rewrite (bool_decide_eq_false_2 _ Hin).
      destruct (decide (K = _make_index_key self s)) as [->|Hne].
      * rewrite bool_decide_eq_true_2 by left. by rewrite !lookup_delete_eq.
      * rewrite bool_decide_eq_false_2.
        -- by rewrite !lookup_delete_ne.
        -- intros [?|?]%elem_of_cons; done.
Qed.

Lemma clear_all_indexes_metadata self db j :
  kv_hashes (clear_all_indexes self db) !! _make_metadata_key self j =
  kv_hashes db !! _make_metadata_key self j.
Proof.
  unfold clear_all_indexes.
  rewrite (proj1 (clear_fold_lookup self statuses db _)).
  rewrite bool_decide_eq_false_2; [done|].
  intros (s & Heq & _)%list_elem_of_fmap.
  by apply metadata_key_not_index_key in Heq.
Qed.

Lemma clear_all_indexes_index self db S :
  S ∈ statuses → SMEMBERS (_make_index_key self S) (clear_all_indexes self db) = ∅.
Proof.
  intros HS. unfold SMEMBERS, clear_all_indexes.
  rewrite (proj2 (clear_fold_lookup self statuses db _)).
  rewrite bool_decide_eq_true_2; [done|]. by apply list_elem_of_fmap_2.
Qed.

Lemma rebuild_step_spec self db k :
  kv_hashes (rebuild_step self db k) = kv_hashes db ∧
  ∀ K x, x ∈ SMEMBERS K (rebuild_step self db k) ↔
         x ∈ SMEMBERS K db ∨
         ∃ status, HGETALL k db !! "status" = Some status ∧
                   HGETALL k db !! "execution_id" = Some x ∧
                   status ≠ "" ∧ x ≠ "" ∧ K = _make_index_key self status.
Proof.
  unfold rebuild_step.
  destruct (HGETALL k db !! "status") as [status|] eqn:Hst;
    [destruct (HGETALL k db !! "execution_id") as [eid|] eqn:Hid|].
  - destruct (str_truthy status && str_truthy eid) eqn:Htr.
    + apply andb_true_iff in Htr as [Hs%str_truthy_true He%str_truthy_true].
      cbn [exec_command fst kv_hashes kv_sets]. split; [done|].
      intros K x. unfold SMEMBERS at 1. cbn [kv_sets].
      destruct (decide (K = _make_index_key self status)) as [->|Hne].
      * rewrite lookup_insert_eq. simpl. rewrite elem_of_union, elem_of_singleton.
        split; [intros [->|?]; [right|left]|intros [?|(s' & [= <-] & [= <-] & _)]];
          eauto 10.
      * rewrite lookup_insert_ne by done. fold (SMEMBERS K db).
        split; [by left|]. intros [?|(s' & [= <-] & _ & _ & _ & ->)]; done.
    + split; [done|]. intros K x. split; [by left|].
      intros [?|(s' & [= <-] & [= <-] & Hs%str_truthy_true & He%str_truthy_true & _)];
        [done|]. by rewrite Hs, He in Htr.
  - split; [done|]. intros K x. split; [by left|].
    intros [?|(s' & _ & ? & _)]; done.
  - split; [done|]. intros K x. split; [by left|].
    intros [?|(s' & ? & _)]; done.
Qed.

Lemma rebuild_fold_spec self (ks : list string) db :
  kv_hashes (foldl (rebuild_step self) db ks) = kv_hashes db ∧
  ∀ K x, x ∈ SMEMBERS K (foldl (rebuild_step self) db ks) ↔
         x ∈ SMEMBERS K db ∨
         ∃ k status, k ∈ ks ∧
                     HGETALL k db !! "status" = Some status ∧
                     HGETALL k db !! "execution_id" = Some x ∧
                     status ≠ "" ∧ x ≠ "" ∧ K = _make_index_key self status.
Proof.
  revert db. induction ks as [|k ks IH]; intros db; cbn [foldl].
  - split; [done|]. intros K x. split; [by left|].
    intros [?|(k & s & []%elem_of_nil & _)]. done.
  - destruct (IH (rebuild_step self db k)) as [IHh IHs].
    destruct (rebuild_step_spec self db k) as [Hh Hs].
    split; [by rewrite IHh|]. intros K x. rewrite IHs, Hs.
    assert (∀ k', HGETALL k' (rebuild_step self db k) = HGETALL k' db) as Hget.
    { intros k'. unfold HGETALL. by rewrite Hh. }
    setoid_rewrite Hget. setoid_rewrite elem_of_cons.
    split.
    + intros [[?|(s & ?)]|(k' & s & ? & ?)]; [by left| |]; right.
      * exists k, s. by split; [left|].
      * exists k', s. by split; [right|].
    + intros [?|(k' & s & [->|?] & ?)]; [by left; left| |].
      * left; right. by exists s.
      * right. by exists k', s.
Qed.

Lemma rebuild_indexes_hashes self db j :
  kv_hashes (rebuild_indexes self db) !! _make_metadata_key self j =
  kv_hashes db !! _make_metadata_key self j.
Proof.
  unfold rebuild_indexes. cbv zeta.
  rewrite (proj1 (rebuild_fold_spec self _ _)).
  apply clear_all_indexes_metadata.
Qed.


End rebuild.

(** ** Listing *)

Section listing.
Context `{PyLib}.
Implicit Types (self : RedisDurableStorage) (db : Redis).
Implicit Types (e x y : gmap string pyval) (l : list (gmap string pyval)).

Lemma list_entry_dom i (metadata : gmap string string) n :
  dom (list_entry i metadata n) = metadata_fields.
Proof.
  unfold list_entry. rewrite !dom_insert_L, dom_empty_L.
  unfold metadata_fields. set_solver.
Qed.

Lemma list_entry_status i (metadata : gmap string string) n :
  list_entry i metadata n !! "status" = Some (opt_str (metadata !! "status")).
Proof. unfold list_entry. rewrite lookup_insert_ne by done. apply lookup_insert_eq. Qed.

Lemma fetch_entries_spec self db ids l :
  fetch_entries self db ids = Ok l →
  (∀ e, e ∈ l → ∃ i, i ∈ ids ∧ entry_for self db i e) ∧
  (∀ i, i ∈ ids → HGETALL (_make_metadata_key self i) db ≠ ∅ →
        ∃ e, e ∈ l ∧ entry_for self db i e).
Proof.
  revert l. induction ids as [|i ids IH]; intros l; cbn [fetch_entries].
  - intros [= <-]. split; [by intros e ?%elem_of_nil|by intros i ?%elem_of_nil].
  - case_bool_decide as Hne.
    + destruct (step_index_of _) as [n|] eqn:Hn; [|done].
      destruct (fetch_entries self db ids) as [l'|]; [|done].
      intros [= <-]. destruct (IH l' eq_refl) as [IH1 IH2]. split.
      * intros e [->|He]%elem_of_cons.
        -- exists i. split; [left|]. split; [done|]. by exists n.
        -- destruct (IH1 e He) as (j & ? & ?). exists j. by split; [right|].
      * intros j [->|Hj]%elem_of_cons Hj'.
        -- eexists. split; [left|]. split; [done|]. by exists n.
        -- destruct (IH2 j Hj Hj') as (e & ? & ?). exists e. by split; [right|].
    + intros Hl. destruct (IH l Hl) as [IH1 IH2]. split.
      * intros e He. destruct (IH1 e He) as (j & ? & ?). exists j. by split; [right|].
      * intros j [->|Hj]%elem_of_cons Hj'; [done|]. by apply IH2.
Qed.

Lemma fetch_entries_returns self db ids :
  (∀ i, i ∈ ids →
        ∃ n, step_index_of (HGETALL (_make_metadata_key self i) db) = Ok n) →
  ∃ l, fetch_entries self db ids = Ok l.
Proof.
  induction ids as [|i ids IH]; intros Hok; cbn [fetch_entries]; [by eexists|].
  destruct IH as [l ->]; [intros j Hj; apply Hok; by right|].
  destruct (Hok i) as [n ->]; [by left|].
  case_bool_decide; by eexists.
Qed.

Lemma key_lt_asym (a b : pyval) : key_lt a b = true → key_lt b a = false.
Proof.
  destruct a as [| | | |s|], b as [| | | |t|]; simpl; try done.
  intros Hlt%negb_true_iff. apply negb_false_iff.
  destruct (total String.le s t) as [Hle|Hle]; [by apply Is_true_true|].
  apply Is_true_true in Hle. congruence.
Qed.

Lemma key_lt_trans_str (s t u : string) :
  key_lt (PStr s) (PStr t) = false → key_lt (PStr t) (PStr u) = false →
  key_lt (PStr s) (PStr u) = false.
Proof.
  simpl. intros Hts%negb_false_iff Hut%negb_false_iff. apply negb_false_iff.
  apply Is_true_true. apply Is_true_true in Hts, Hut.
  change (String.le u s). by trans t.
Qed.

Lemma insert_desc_perm x l : insert_desc x l ≡ₚ x :: l.
Proof.
  induction l as [|y l IH]; cbn [insert_desc]; [done|].
  destruct (key_lt _ _); [|done]. by rewrite IH, Permutation_swap.
Qed.

Lemma sort_desc_perm l : sort_desc l ≡ₚ l.
Proof.
  unfold sort_desc. induction l as [|x l IH]; cbn [foldr]; [done|].
  by rewrite insert_desc_perm, IH.
Qed.

Lemma sort_desc_length l : length (sort_desc l) = length l.
Proof. by rewrite sort_desc_perm. Qed.

Lemma insert_desc_sorted x l :
  is_str (sort_key x) = true →
  Forall (λ y, is_str (sort_key y) = true) l →
  StronglySorted desc l → StronglySorted desc (insert_desc x l).
Proof.
  intros Hx Hall Hsorted.
  induction Hsorted as [|y l Hl IH Hy]; cbn [insert_desc].
  - repeat constructor.
  - apply Forall_cons in Hall as [Hystr Hall].
    destruct (key_lt (sort_key x) (sort_key y)) eqn:Hlt.
    + constructor; [by apply IH|].
      rewrite insert_desc_perm. constructor; [|done].
      by apply key_lt_asym.
    + constructor; [by constructor|]. constructor; [done|].
      rewrite Forall_forall in Hy, Hall. apply Forall_forall. intros z Hz.
      specialize (Hy z Hz). specialize (Hall z Hz). unfold desc in *.
      destruct (sort_key x) as [| | | |s|]; try done.
      destruct (sort_key y) as [| | | |t|]; try done.
      destruct (sort_key z) as [| | | |u|]; try done.
      by eapply key_lt_trans_str.
Qed.

Lemma sort_desc_sorted l :
  Forall (λ y, is_str (sort_key y) = true) l → StronglySorted desc (sort_desc l).
Proof.
  unfold sort_desc. induction 1 as [|x l Hx Hall IH]; cbn [foldr]; [constructor|].
  apply insert_desc_sorted; [done| |done].
  fold (sort_desc l). by rewrite sort_desc_perm.
Qed.

(** What [result.sort] gives when it does not raise. *)
Lemma sort_by_timestamp_spec l sorted :
  sort_by_timestamp l = Ok sorted →
  sorted ≡ₚ l ∧ StronglySorted desc sorted.
Proof.
  unfold sort_by_timestamp.
  destruct ((2 <=? length l)%nat && _) eqn:Hc; [done|]. intros [= <-].
  split; [apply sort_desc_perm|].
  apply andb_false_iff in Hc as [Hlen%Nat.leb_gt|Hall%negb_false_iff].
  - destruct l as [|x [|y l]]; [constructor|repeat constructor|simpl in Hlen; lia].
  - apply sort_desc_sorted, Forall_forall. intros x Hx.
    rewrite forallb_forall in Hall. by apply Hall, list_elem_of_In.
Qed.

Lemma sort_by_timestamp_returns l :
  Forall (λ y, is_str (sort_key y) = true) l → sort_by_timestamp l = Ok (sort_desc l).
Proof.
  intros Hall. unfold sort_by_timestamp.
  assert (forallb (λ x, is_str (sort_key x)) l = true) as ->; [|by rewrite andb_false_r].
  apply forallb_forall. intros x Hx%list_elem_of_In.
  rewrite Forall_forall in Hall. by apply Hall.
Qed.

Lemma apply_limit_sublist {A} (limit : option Z) (l : list A) :
  apply_limit limit l `prefix_of` l.
Proof.
  unfold apply_limit, slice_to. destruct limit as [n|]; [|done].
  destruct (n =? 0); [done|]. destruct (0 <=? n); apply prefix_take.
Qed.

(** The listing, when it returns: the entries of the looked-up identifiers
    that have a metadata hash, each with the seven fields, in descending
    order of [timestamp], cut by the limit after the sort. *)
Lemma list_executions_async_spec self status limit db res :
  list_executions_async self status limit db = Ok res →
  ∃ sorted,
    res = apply_limit limit sorted ∧
    StronglySorted desc sorted ∧
    (∀ e, e ∈ sorted ↔ ∃ i, i ∈ listed_ids self status db ∧ entry_for self db i e) ∧
    Forall (λ e, dom e = metadata_fields) sorted.
Proof.
  unfold list_executions_async.
  destruct (fetch_entries _ _ _) as [entries|] eqn:Hfetch; [|done].
  destruct (sort_by_timestamp entries) as [sorted|] eqn:Hsort; [|done].
  intros [= <-]. exists sorted.
  apply sort_by_timestamp_spec in Hsort as [Hperm Hsorted].
  apply fetch_entries_spec in Hfetch as [Hf1 Hf2].
  split; [done|]. split; [done|]. split.
  - intros e. rewrite Hperm. split.
    + intros (i & Hi%elem_of_elements & He)%Hf1. by exists i.
    + intros (i & Hi%elem_of_elements & He).
      destruct (Hf2 i Hi (proj1 He)) as (e' & He' & Hent).
      destruct He as (_ & n & Hn & ->), Hent as (_ & n' & Hn' & ->).
      by assert (n' = n) as <- by congruence.
  - apply Forall_forall. intros e He. rewrite Hperm in He.
    destruct (Hf1 e He) as (i & _ & _ & n & _ & ->). apply list_entry_dom.
Qed.

Lemma list_entry_sort_key i (metadata : gmap string string) n ts :
  metadata !! "timestamp" = Some ts → sort_key (list_entry i metadata n) = PStr ts.
Proof.
  intros Hts. unfold sort_key, dict_get_default, list_entry.
  do 4 (rewrite lookup_insert_ne by done). by rewrite lookup_insert_eq, Hts.
Qed.

(** The listing returns when every hash it reads has a [timestamp] and a
    [step_index] that [int] accepts, as the hashes written by saves of
    integer step indexes do. *)
Lemma list_executions_async_returns self status limit db :
  (∀ i, i ∈ listed_ids self status db →
        let metadata := HGETALL (_make_metadata_key self i) db in
        metadata ≠ ∅ →
        is_Some (metadata !! "timestamp") ∧ ∃ n, step_index_of metadata = Ok n) →
  ∃ res, list_executions_async self status limit db = Ok res.
Proof.
  intros Hok. unfold list_executions_async.
  destruct (fetch_entries_returns self db (elements (listed_ids self status db)))
    as [entries Hfetch].
  { intros i Hi%elem_of_elements.
    destruct (decide (HGETALL (_make_metadata_key self i) db = ∅)) as [->|Hne].
    - exists 0. unfold step_index_of. by rewrite lookup_empty.
    - by destruct (Hok i Hi Hne) as [_ ?]. }
  rewrite Hfetch. rewrite sort_by_timestamp_returns; [by eexists|].
  apply fetch_entries_spec in Hfetch as [Hf _].
  apply Forall_forall. intros e He.
  destruct (Hf e He) as (i & Hi%elem_of_elements & Hne & n & _ & ->).
  destruct (Hok i Hi Hne) as [[ts Hts] _].
  by rewrite (list_entry_sort_key _ _ _ _ Hts).
Qed.

(** Over an exact index the status filter filters: every entry listed for
    [S] has status [S]. *)
Lemma list_executions_async_filtered self S limit db res :
  index_exact self db → S ≠ "" →
  list_executions_async self (Some S) limit db = Ok res →
  Forall (λ e, e !! "status" = Some (PStr S)) res.
Proof.
  intros Hexact HS (sorted & -> & _ & Hentries & _)%list_executions_async_spec.
  apply Forall_forall. intros e He.
  assert (e ∈ sorted) as Hin.
  { eapply elem_of_prefix; [exact He|apply apply_limit_sublist]. }
  apply Hentries in Hin as (i & Hi & _ & n & _ & ->).
  cbn [listed_ids] in Hi. rewrite (proj2 (str_truthy_true S) HS) in Hi.
  apply Hexact in Hi. by rewrite list_entry_status, Hi.
Qed.

(** One entry for each looked-up identifier that has a metadata hash. *)
Lemma fetch_entries_length self db ids l :
  fetch_entries self db ids = Ok l →
  length l =
    length (filter (λ i, HGETALL (_make_metadata_key self i) db ≠ ∅) ids).
Proof.
  revert l. induction ids as [|i ids IH]; intros l; cbn [fetch_entries].
  - by intros [= <-].
  - case_bool_decide as Hne.
    + rewrite filter_cons_True by exact Hne.
      destruct (step_index_of _) as [n|]; [|done].
      destruct (fetch_entries self db ids) as [l'|]; [|done].
      intros [= <-]. cbn [length]. f_equal. by apply IH.
    + rewrite filter_cons_False by (intros Hne'; exact (Hne' Hne)). apply IH.
Qed.

(** C10. A limit of [0] is no limit.  The listing with limit [0] is the
    listing without a limit, raise or return; when it returns, it is the
    full sequence: sorted in descending order of [timestamp], holding
    exactly the entries of the looked-up identifiers, one for each
    identifier that has a metadata hash.  The cut is applied for non-zero
    limits only. *)
Theorem list_limit_zero_is_no_limit self status db :
  list_executions_async self status (Some 0) db =
    list_executions_async self status None db ∧
  (∀ res, list_executions_async self status (Some 0) db = Ok res →
     StronglySorted desc res ∧
     (∀ e, e ∈ res ↔ ∃ i, i ∈ listed_ids self status db ∧ entry_for self db i e) ∧
     length res =
       length (filter (λ i, HGETALL (_make_metadata_key self i) db ≠ ∅)
                 (elements (listed_ids self status db)))) ∧
  (∀ (l : list (gmap string pyval)), apply_limit (Some 0) l = l ∧ apply_limit None l = l) ∧
  (∀ (l : list (gmap string pyval)) n, n ≠ 0 → apply_limit (Some n) l = slice_to l n).
Proof.
  split; [|split; [|split]].
  - unfold list_executions_async. destruct (fetch_entries _ _ _); [|done].
    by destruct (sort_by_timestamp _).
  - intros res Hlist.
    pose proof (list_executions_async_spec _ _ _ _ _ Hlist)
      as (sorted & -> & Hsorted & Hentries & _).
    cbn [apply_limit Z.eqb]. split; [exact Hsorted|]. split; [exact Hentries|].
    unfold list_executions_async in Hlist.
    destruct (fetch_entries _ _ _) as [entries|] eqn:Hfetch; [|done].
    destruct (sort_by_timestamp entries) as [sorted'|] eqn:Hsort; [|done].
    cbn [apply_limit Z.eqb] in Hlist. injection Hlist as ->.
    apply sort_by_timestamp_spec in Hsort as [Hperm _].
    rewrite Hperm. by apply fetch_entries_length.
  - done.
  - intros l n Hn. unfold apply_limit. by rewrite (proj2 (Z.eqb_neq n 0) Hn).
Qed.

End listing.

(** ** Cleanup over an exact index *)

Section cleanup.
Context `{PyLib}.
Implicit Types (self : RedisDurableStorage) (db : Redis) (D : gset string).

Lemma string_length_app (s t : string) :
  String.length (s +:+ t) = (String.length s + String.length t)%nat.
Proof. induction s as [|c s IH]; [done|]. rewrite string_app_cons. simpl. by rewrite IH. Qed.

Lemma key_not_metadata_key self i : _make_key self i ≠ _make_metadata_key self i.
Proof.
  unfold _make_key, _make_metadata_key. intros Heq. apply (inj _) in Heq.
  apply (f_equal String.length) in Heq. rewrite string_length_app in Heq.
  simpl in Heq. lia.
Qed.

Lemma plain_key_not_metadata_key self i j :
  plain_id i → _make_key self i ≠ _make_metadata_key self j.
Proof.
  intros [Hmeta _]. unfold _make_key, _make_metadata_key. intros Heq.
  apply (inj _) in Heq. subst i. by rewrite prefix_app in Hmeta.
Qed.

Lemma plain_key_not_index_key self i s :
  plain_id i → _make_key self i ≠ _make_index_key self s.
Proof.
  intros [_ Hindex]. unfold _make_key, _make_index_key. intros Heq.
  apply (inj _) in Heq. subst i. by rewrite prefix_app in Hindex.
Qed.

Lemma SMEMBERS_SREM K x k m db :
  x ∈ SMEMBERS K (exec_command (SREM k m) db).1 ↔
  x ∈ SMEMBERS K db ∧ ¬ (K = k ∧ x = m).
Proof.
  cbn [exec_command fst]. unfold SMEMBERS at 1. cbn [kv_sets].
  destruct (decide (K = k)) as [->|Hne].
  - case_bool_decide as Hempty.
    + rewrite lookup_delete_eq. cbn [default from_option].
      split; [by intros ?%not_elem_of_empty|]. intros [Hx Hnot].
      assert (x ∈ SMEMBERS k db ∖ {[m]}) as Hin; [|by rewrite Hempty in Hin].
      apply elem_of_difference. split; [done|].
      intros ->%elem_of_singleton. by apply Hnot.
    + rewrite lookup_insert_eq. cbn [default from_option]. unfold id.
      rewrite elem_of_difference, elem_of_singleton.
      split; [intros [? ?]; split; [done|]; by intros [_ ?]|].
      intros [? Hnot]. split; [done|]. intros ->. by apply Hnot.
  - assert (default ∅ ((if bool_decide (SMEMBERS k db ∖ {[m]} = ∅)
                        then delete k (kv_sets db)
                        else <[k := SMEMBERS k db ∖ {[m]}]> (kv_sets db)) !! K)
            = SMEMBERS K db) as ->.
    { unfold SMEMBERS at 3.
      case_bool_decide; [by rewrite lookup_delete_ne|by rewrite lookup_insert_ne]. }
    split; [intros ?; split; [done|]; by intros [? _]|by intros [? _]].
Qed.

Lemma SMEMBERS_DEL K x k db :
  x ∈ SMEMBERS K (exec_command (DEL k) db).1 ↔ x ∈ SMEMBERS K db ∧ K ≠ k.
Proof.
  cbn [exec_command fst]. unfold SMEMBERS. cbn [kv_sets].
  destruct (decide (K = k)) as [->|Hne].
  - rewrite lookup_delete_eq. cbn [default from_option].
    split; [by intros ?%not_elem_of_empty|by intros [_ ?]].
  - rewrite lookup_delete_ne by done. split; [by intros ?|by intros [? _]].
Qed.

Lemma pipeline_execute_cons (c : command) (cs : list command) db :
  pipeline_execute (c :: cs) db =
    ((pipeline_execute cs (exec_command c db).1).1,
     (exec_command c db).2 :: (pipeline_execute cs (exec_command c db).1).2).
Proof.
  cbn [pipeline_execute]. destruct (exec_command c db) as [db1 r]. cbn [fst snd].
  by destruct (pipeline_execute cs db1).
Qed.

(** The index commands of a delete: none, or one SREM of the identifier. *)
Lemma pipeline_index_cmds self i (cmds : list command) db :
  cmds = [] ∨ (∃ s, cmds = [SREM (_make_index_key self s) i]) →
  kv_strings (pipeline_execute cmds db).1 = kv_strings db ∧
  kv_hashes (pipeline_execute cmds db).1 = kv_hashes db ∧
  (∀ K x, x ∈ SMEMBERS K (pipeline_execute cmds db).1 → x ∈ SMEMBERS K db) ∧
  (∀ K x, x ∈ SMEMBERS K db → x ≠ i → x ∈ SMEMBERS K (pipeline_execute cmds db).1).
Proof.
  intros [->|[s ->]].
  - cbn [pipeline_execute fst]. repeat split; tauto.
  - rewrite pipeline_execute_cons. cbn [pipeline_execute fst].
    split; [done|]. split; [done|]. split; intros K x.
    + rewrite SMEMBERS_SREM. tauto.
    + rewrite SMEMBERS_SREM. intros ? ?. split; [done|]. intros [_ ?]. done.
Qed.

(** What a delete that returns does to the three families of keys. *)
Lemma delete_state_async_effect self i db db' deleted :
  delete_state_async self i db = (db', Ok deleted) →
  kv_strings db' =
    delete (_make_metadata_key self i) (delete (_make_key self i) (kv_strings db)) ∧
  kv_hashes db' =
    delete (_make_metadata_key self i) (delete (_make_key self i) (kv_hashes db)) ∧
  (∀ K x, x ∈ SMEMBERS K db' → x ∈ SMEMBERS K db) ∧
  (∀ K x, x ∈ SMEMBERS K db → K ≠ _make_key self i → K ≠ _make_metadata_key self i →
          x ≠ i → x ∈ SMEMBERS K db') ∧
  (is_Some (kv_hashes db !! _make_metadata_key self i) → deleted = true).
Proof.
  unfold delete_state_async.
  destruct (load_state_async self i db) as [r|e]; [|done].
  set (cmds := match r with
               | Some state => if dict_truthy state then [_] else []
               | None => [] end).
  assert (cmds = [] ∨ ∃ s, cmds = [SREM (_make_index_key self s) i]) as Hcmds.
  { unfold cmds. destruct r as [state|]; [|by left].
    destruct (dict_truthy state); [right; by eexists|by left]. }
  clearbody cmds. cbn [app]. rewrite !pipeline_execute_cons.
  set (db1 := (exec_command (DEL (_make_key self i)) db).1).
  set (db2 := (exec_command (DEL (_make_metadata_key self i)) db1).1).
  destruct (pipeline_index_cmds self i cmds db2 Hcmds) as (Hs & Hh & Hsub & Hsup).
  destruct (pipeline_execute cmds db2) as [db3 rs] eqn:Hpipe.
  cbn [fst snd] in *. intros [= <- <-].
  split; [by rewrite Hs|]. split; [by rewrite Hh|]. split; [|split].
  - intros K x Hx%Hsub. unfold db2, db1 in Hx.
    rewrite !SMEMBERS_DEL in Hx. tauto.
  - intros K x Hx Hk Hm Hne. apply Hsup; [|done]. unfold db2, db1.
    rewrite !SMEMBERS_DEL. tauto.
  - intros Hsome. cbn [existsb].
    assert (key_exists (_make_metadata_key self i) db1 = true) as ->;
      [|by rewrite orb_true_r].
    unfold key_exists, db1. cbn [exec_command fst kv_hashes].
    rewrite lookup_delete_ne by apply key_not_metadata_key.
    rewrite (bool_decide_eq_true_2 _ Hsome). by rewrite orb_true_r.
Qed.

(** A delete returns with a server, or raises what its load raises and
    leaves the server as it was. *)
Lemma delete_state_async_cases self i db :
  (∃ db' deleted, delete_state_async self i db = (db', Ok deleted)) ∨
  (∃ e, load_state_async self i db = Raise e ∧
        delete_state_async self i db = (db, Raise e)).
Proof.
  destruct (load_state_async self i db) as [r|e] eqn:Hload.
  - left. apply delete_state_async_returns. by exists r.
  - right. exists e. split; [done|]. by apply delete_state_async_Raise.
Qed.

(** A load reads the primary key only. *)
Lemma load_state_async_ext self i db1 db2 :
  kv_strings db1 !! _make_key self i = kv_strings db2 !! _make_key self i →
  load_state_async self i db1 = load_state_async self i db2.
Proof. intros Heq. unfold load_state_async, GET. by rewrite Heq. Qed.

Lemma loads_of_payloads self db i : payloads_load db → loads self db i.
Proof.
  intros Hall. unfold loads, load_state_async, GET.
  destruct (kv_strings db !! _make_key self i) as [text|] eqn:Hi; [|by eexists].
  specialize (Hall _ _ Hi). cbv beta in Hall. unfold loadable in Hall.
  destruct (json_loads text); [by eexists|by eexists|done].
Qed.

Lemma cleanup_ids_cons self cutoff i rest (acc : Redis * Z) :
  cleanup_ids self cutoff (i :: rest) acc =
    if expired cutoff (HGETALL (_make_metadata_key self i) acc.1) then
      match delete_state_async self i acc.1 with
      | (db', Ok deleted) =>
          cleanup_ids self cutoff rest (db', if deleted then acc.2 + 1 else acc.2)
      | (db', Raise e) =>
          if skipped e then cleanup_ids self cutoff rest (db', acc.2)
          else (db', Raise e)
      end
    else cleanup_ids self cutoff rest acc.
Proof.
  cbn [cleanup_ids]. unfold expired.
  destruct (_ !! "timestamp") as [ts|]; [|done].
  destruct (str_truthy ts); cbn [andb]; [|done].
  destruct (parse_timestamp ts) as [t|]; [|done].
  by destruct (instant t <? cutoff).
Qed.

Lemma cleaned_refl self db : cleaned self ∅ db db.
Proof.
  split; [done|]. split; [by intros j ?%not_elem_of_empty|]. split; [done|]. done.
Qed.

Lemma cleaned_delete self D db0 db i db' deleted :
  cleaned self D db0 db → i ∉ D → plain_id i →
  delete_state_async self i db = (db', Ok deleted) →
  cleaned self ({[i]} ∪ D) db0 db'.
Proof.
  intros (Hkeep & Hgone & Hsub & Hsup) HiD Hplain Hdel.
  destruct (delete_state_async_effect self i db _ _ Hdel) as (Hs & Hh & Hdsub & Hdsup & _).
  clear Hdel.
  split; [|split; [|split]].
  - intros j [Hji HjD]%not_elem_of_union Hj.
    apply not_elem_of_singleton in Hji.
    destruct (Hkeep j HjD Hj) as [<- <-]. rewrite Hs, Hh. split.
    + rewrite !lookup_delete_ne; [done| |].
      * intros Heq. by apply _make_key_inj in Heq.
      * intros Heq. by apply (plain_key_not_metadata_key self j i Hj).
    + rewrite !lookup_delete_ne; [done| |].
      * by apply plain_key_not_metadata_key.
      * intros Heq. by apply _make_metadata_key_inj in Heq.
  - intros j Hj. rewrite Hs, Hh. split; apply lookup_delete_None.
    + destruct (decide (j = i)) as [->|Hji].
      * right. apply lookup_delete_eq.
      * right. apply lookup_delete_None. right.
        apply elem_of_union in Hj as [?%elem_of_singleton|HjD]; [done|].
        by apply Hgone.
    + destruct (decide (j = i)) as [->|Hji]; [by left|].
      right. apply lookup_delete_None. right.
      apply elem_of_union in Hj as [?%elem_of_singleton|HjD]; [done|].
      by apply Hgone.
  - intros S x Hx. by apply Hsub, Hdsub.
  - intros S x Hx [Hxi HxD]%not_elem_of_union.
    apply not_elem_of_singleton in Hxi. apply Hdsup; [by apply Hsup| | |done].
    + intros Heq. by apply (plain_key_not_index_key self i S Hplain).
    + intros Heq. by apply (metadata_key_not_index_key self i S).
Qed.

Lemma expired_hash_exists cutoff (k : string) db :
  expired cutoff (HGETALL k db) = true → is_Some (kv_hashes db !! k).
Proof.
  unfold expired, HGETALL. destruct (kv_hashes db !! k); [by eexists|].
  cbn [default from_option]. by rewrite lookup_empty.
Qed.

(** The inner loop over identifiers not yet deleted, each with a payload
    that loads: it deletes those whose metadata, as it was at the start, is
    expired, counts them and returns. *)
Lemma cleanup_ids_cleaned self cutoff db0 (l : list string) D db n :
  NoDup l → (∀ i, i ∈ l → (i ∉ D) ∧ plain_id i ∧ loads self db0 i) →
  cleaned self D db0 db →
  ∃ db',
    cleanup_ids self cutoff l (db, n) =
      (db', Ok (n + Z.of_nat
                   (length
                      (filter (λ i, expired cutoff
                                      (HGETALL (_make_metadata_key self i) db0) = true)
                         l)))) ∧
    cleaned self
      (D ∪ list_to_set
             (filter (λ i, expired cutoff (HGETALL (_make_metadata_key self i) db0) = true)
                l))
      db0 db'.
Proof.
  intros Hnodup. revert D db n.
  induction Hnodup as [|i l Hil Hnodup IH]; intros D db n Hl Hcl.
  - exists db.
    cbn [cleanup_ids filter list_filter list_to_set foldr length fst snd].
    rewrite (right_id_L ∅ (∪)). split; [|done]. do 2 f_equal. lia.
  - destruct (Hl i) as (HiD & Hplain & [r Hloads]); [by left|].
    rewrite cleanup_ids_cons. cbn [fst snd].
    assert (HGETALL (_make_metadata_key self i) db =
            HGETALL (_make_metadata_key self i) db0) as ->.
    { unfold HGETALL. by destruct (proj1 Hcl i HiD Hplain) as [_ ->]. }
    destruct (expired cutoff (HGETALL (_make_metadata_key self i) db0)) eqn:Hexp.
    + rewrite filter_cons_True by done. cbn [list_to_set foldr length].
      assert (load_state_async self i db = Ok r) as Hload.
      { rewrite <- Hloads. apply load_state_async_ext.
        by destruct (proj1 Hcl i HiD Hplain) as [-> _]. }
      destruct (proj1 (delete_state_async_returns _ _ _) (ex_intro _ r Hload))
        as (db1 & deleted & Hdel).
      rewrite Hdel.
      assert (deleted = true) as ->.
      { apply (delete_state_async_effect self i db _ _ Hdel).
        destruct (proj1 Hcl i HiD Hplain) as [_ ->].
        by apply (expired_hash_exists cutoff). }
      destruct (IH ({[i]} ∪ D) db1 (n + 1)) as (db' & IHn & IHc).
      * intros j Hj. destruct (Hl j) as (HjD & Hjp & Hjl); [by right|].
        split; [|done].
        apply not_elem_of_union. split; [|done].
        apply not_elem_of_singleton. by intros ->.
      * by eapply cleaned_delete.
      * exists db'. split.
        -- rewrite IHn. do 2 f_equal. lia.
        -- by rewrite (comm_L (∪) {[i]} D), <- (assoc_L (∪)) in IHc.
    + rewrite filter_cons_False by (by rewrite Hexp).
      apply IH; [|done]. intros j Hj. apply Hl. by right.
Qed.

(** Cleanup over a store whose terminal index sets are exact and hold
    identifiers whose payloads load, for a cutoff that is a date: it
    returns; the records removed are exactly the completed and failed ones
    whose timestamp is present, parses and is before the cutoff; the count
    returned is their number; every other record is as it was. *)
Lemma cleanup_old_executions_async_exact self older_than_days now db cutoff :
  terminal_index_exact self db →
  cutoff_date_of now older_than_days = Ok cutoff →
  (∀ S j, S ∈ ["completed"; "failed"] →
          j ∈ SMEMBERS (_make_index_key self S) db → loads self db j) →
  ∃ (D : gset string) cleaned_db,
    cleanup_old_executions_async self older_than_days now db =
      (cleaned_db, Ok (Z.of_nat (size D))) ∧
    (∀ j, j ∈ D ↔
          (HGETALL (_make_metadata_key self j) db !! "status" = Some "completed" ∨
           HGETALL (_make_metadata_key self j) db !! "status" = Some "failed") ∧
          expired cutoff (HGETALL (_make_metadata_key self j) db) = true) ∧
    (∀ j, j ∈ D →
          load_state_async self j cleaned_db = Ok None ∧
          HGETALL (_make_metadata_key self j) cleaned_db = ∅) ∧
    (∀ j, j ∉ D → plain_id j →
          GET (_make_key self j) cleaned_db = GET (_make_key self j) db ∧
          HGETALL (_make_metadata_key self j) cleaned_db =
            HGETALL (_make_metadata_key self j) db).
Proof.
  intros Hexact Hcutoff Hloads.
  unfold cleanup_old_executions_async. rewrite Hcutoff.
  cbn [cleanup_statuses fst snd].
  set (P := λ i, expired cutoff (HGETALL (_make_metadata_key self i) db) = true).
  set (Sc := SMEMBERS (_make_index_key self "completed") db).
  set (Sf := SMEMBERS (_make_index_key self "failed") db).
  assert ("completed" ∈ ["completed"; "failed"]) as Hc by (by left).
  assert ("failed" ∈ ["completed"; "failed"]) as Hf by (by right; left).
  destruct (cleanup_ids_cleaned self cutoff db (elements Sc) ∅ db 0)
    as (db1 & Hrun1 & Hcl1).
  { apply NoDup_elements. }
  { intros i Hi%elem_of_elements. split; [apply not_elem_of_empty|].
    split; [by apply (Hexact _ Hc i)|by apply (Hloads _ _ Hc)]. }
  { apply cleaned_refl. }
  fold P in Hcl1, Hrun1. rewrite (left_id_L ∅ (∪)) in Hcl1.
  set (D1 := list_to_set (filter P (elements Sc)) : gset string) in *.
  rewrite Hrun1. clear Hrun1.
  assert (∀ j, j ∈ D1 ↔ j ∈ Sc ∧ P j) as HD1.
  { intros j. unfold D1. by rewrite elem_of_list_to_set, list_elem_of_filter,
      elem_of_elements, (comm and). }
  assert (SMEMBERS (_make_index_key self "failed") db1 = Sf) as ->.
  { apply set_eq. intros x. split; [apply (proj1 (proj2 (proj2 Hcl1)))|].
    intros Hx. apply (proj2 (proj2 (proj2 Hcl1))); [done|].
    intros [HxSc _]%HD1.
    apply (proj1 (Hexact _ Hc x)) in HxSc. apply (proj1 (Hexact _ Hf x)) in Hx.
    congruence. }
  destruct (cleanup_ids_cleaned self cutoff db (elements Sf) D1 db1
              (0 + Z.of_nat (length (filter P (elements Sc)))))
    as (db2 & Hrun2 & Hcl2).
  { apply NoDup_elements. }
  { intros i Hi%elem_of_elements.
    split; [|split; [by apply (Hexact _ Hf i)|by apply (Hloads _ _ Hf)]].
    intros [HiSc _]%HD1.
    apply (proj1 (Hexact _ Hc i)) in HiSc. apply (proj1 (Hexact _ Hf i)) in Hi.
    congruence. }
  { done. }
  fold P in Hcl2, Hrun2.
  set (D2 := list_to_set (filter P (elements Sf)) : gset string) in *.
  rewrite Hrun2. clear Hrun2.
  assert (∀ j, j ∈ D2 ↔ j ∈ Sf ∧ P j) as HD2.
  { intros j. unfold D2. by rewrite elem_of_list_to_set, list_elem_of_filter,
      elem_of_elements, (comm and). }
  exists (D1 ∪ D2), db2. split; [|split; [|split]].
  - do 2 f_equal. rewrite size_union.
    + unfold D1, D2. rewrite !size_list_to_set by apply NoDup_filter, NoDup_elements.
      lia.
    + intros j [HjSc _]%HD1 [HjSf _]%HD2.
      apply (proj1 (Hexact _ Hc j)) in HjSc. apply (proj1 (Hexact _ Hf j)) in HjSf.
      congruence.
  - intros j. rewrite elem_of_union, HD1, HD2.
    unfold Sc, Sf. rewrite (proj1 (Hexact _ Hc j)), (proj1 (Hexact _ Hf j)).
    unfold P. tauto.
  - intros j Hj. destruct (proj1 (proj2 Hcl2) j Hj) as [Hs Hh].
    unfold load_state_async, GET, HGETALL. by rewrite Hs, Hh.
  - intros j Hj Hplain. destruct (proj1 Hcl2 j Hj Hplain) as [Hs Hh].
    unfold GET, HGETALL. by rewrite Hs, Hh.
Qed.

End cleanup.

(** ** The synchronous wrappers on a running event loop *)

Section wrappers.
Context `{PyLib} {Task Context Checkpoint : Type}.
Context `{!DurableStateSerializer Task Context Checkpoint}.

Lemma sync_or_raise_running {A : Type} (coro : coroutine A) db :
  sync_or_raise LoopRunning coro db =
    Failed (RuntimeError "asyncio.run() cannot be called from a running event loop") db.
Proof. reflexivity. Qed.

Lemma sync_or_background_running {A : Type} (coro : coroutine A) db :
  sync_or_background LoopRunning coro db = Scheduled coro db.
Proof. reflexivity. Qed.

(** C8, as the code has it.  Called with the event loop running, the
    wrappers that return a value ([load_checkpoint], [get_execution_info],
    [load_by_id]) raise a [RuntimeError] and leave the server untouched; the
    wrappers that return nothing ([save_checkpoint], [mark_completed],
    [mark_failed]) do not raise: they hand their coroutine to the running
    loop as a task and return at once, nothing written yet. *)
Theorem sync_wrappers_on_running_loop (self : DurableExecution) (task : Task)
    (context : Context) (step_index : Z) (step_name status : string)
    (error : option string) (agent_state : option (gmap string pyval))
    (message now utcnow uuid4 : string) (db : Redis) :
  (∃ msg, load_checkpoint self LoopRunning db = Failed (RuntimeError msg) db) ∧
  (∃ msg, get_execution_info self LoopRunning db = Failed (RuntimeError msg) db) ∧
  (∃ msg, load_by_id (execution_id self) (storage self) utcnow uuid4 LoopRunning db =
            Failed (RuntimeError msg) db) ∧
  save_checkpoint self task context step_index step_name status error agent_state
      now LoopRunning db =
    Scheduled (save_checkpoint_async self task context step_index step_name status
                 error agent_state now) db ∧
  mark_completed self now LoopRunning db = Scheduled (mark_completed_async self now) db ∧
  mark_failed self message now LoopRunning db =
    Scheduled (mark_failed_async self message now) db.
Proof.
  repeat split; try (eexists; apply sync_or_raise_running);
    apply sync_or_background_running.
Qed.

(** Off a running loop every wrapper runs its coroutine to completion. *)
Lemma sync_wrappers_off_loop {A : Type} (ctx : event_loop) (coro : coroutine A) db :
  ctx ≠ LoopRunning →
  (∀ msg db', coro db ≠ (db', Raise (RuntimeError msg))) →
  sync_or_raise ctx coro db = run_coroutine coro db ∧
  sync_or_background ctx coro db = run_coroutine coro db.
Proof.
  intros Hctx Hcoro.
  destruct ctx; [| |done]; unfold sync_or_raise, sync_or_background;
    cbn [get_event_loop is_running except_RuntimeError asyncio_run run_until_complete];
    [done|].
  unfold run_coroutine. destruct (coro db) as [db' [a|e]] eqn:Hc; [done|].
  destruct e; try done. by destruct (Hcoro msg db').
Qed.

End wrappers.

(** ** What saves establish *)

Section invariants.
Context `{PyLib}.
Implicit Types (self : RedisDurableStorage) (db : Redis).

Lemma metadata_ids_ok_empty self : metadata_ids_ok self redis_empty.
Proof. intros j h Hj. cbn [redis_empty kv_hashes] in Hj. by rewrite lookup_empty in Hj. Qed.

Lemma save_state_async_metadata_ids_ok self i state now db db' :
  metadata_ids_ok self db →
  save_state_async self i state now db = Ok db' →
  metadata_ids_ok self db'.
Proof.
  intros Hok (payload & mapping & _ & Henc & _ & Hh & _)%save_state_async_Ok j h.
  rewrite Hh. destruct (decide (j = i)) as [->|Hne].
  - rewrite lookup_insert_eq. intros [= <-].
    apply encode_mapping_Some in Henc as [-> _].
    apply lookup_union_Some_l. rewrite lookup_omap, save_metadata_fields.
    by rewrite lookup_insert_eq.
  - rewrite lookup_insert_ne; [apply Hok|].
    intros Heq. apply _make_metadata_key_inj in Heq. exact (Hne (eq_sym Heq)).
Qed.

Lemma save_all_metadata_ids_ok self saves db db' :
  metadata_ids_ok self db →
  save_all self saves db = Ok db' →
  metadata_ids_ok self db'.
Proof.
  revert db. induction saves as [|[[i state] now] saves IH]; intros db Hok;
    cbn [save_all]; [by intros [= <-]|].
  destruct (save_state_async self i state now db) as [db1|] eqn:Hsave; [|done].
  apply IH. by eapply save_state_async_metadata_ids_ok.
Qed.

(** After a save the identifier is in the index of the saved status, and
    the metadata hash reports that status, for a status that is a
    non-empty string. *)
Lemma save_state_async_indexed self i state now db db' s :
  state !! "status" = Some (PStr s) → s ≠ "" →
  save_state_async self i state now db = Ok db' →
  i ∈ SMEMBERS (_make_index_key self s) db' ∧
  HGETALL (_make_metadata_key self i) db' !! "status" = Some s.
Proof.
  intros Hs Hne (payload & mapping & _ & Henc & _ & Hh & Hsets)%save_state_async_Ok.
  assert (stamp i now state !! "status" = Some (PStr s)) as Hst.
  { unfold stamp. by do 2 (rewrite lookup_insert_ne by done). }
  unfold dict_get_default in Hsets. rewrite Hst in Hsets. cbn [default from_option py_str] in Hsets.
  unfold id in Hsets. split.
  - unfold SMEMBERS at 1. rewrite Hsets, lookup_insert_eq. cbn [default from_option].
    unfold id. apply elem_of_union_l. by apply elem_of_singleton.
  - unfold HGETALL at 1. rewrite Hh, lookup_insert_eq. cbn [default from_option].
    unfold id. apply lookup_union_Some_l.
    apply encode_mapping_Some in Henc as [-> _].
    rewrite lookup_omap, save_metadata_fields.
    rewrite lookup_insert_ne, lookup_insert_eq by done.
    unfold dict_get. rewrite Hst. cbn [default from_option mbind option_bind].
    unfold id, py_or. cbn [truthy].
    by rewrite (proj2 (negb_true_iff _) (proj2 (String.eqb_neq s "") Hne)).
Qed.

(** A save never takes an identifier out of an index set. *)
Lemma save_state_async_index_grows self i state now db db' K x :
  save_state_async self i state now db = Ok db' →
  x ∈ SMEMBERS K db → x ∈ SMEMBERS K db'.
Proof.
  intros (payload & mapping & _ & _ & _ & _ & Hsets)%save_state_async_Ok Hx.
  unfold SMEMBERS at 1. rewrite Hsets.
  match goal with |- context [<[?k := _]> _] => destruct (decide (K = k)) as [->|Hne] end.
  - rewrite lookup_insert_eq. cbn [default from_option]. unfold id.
    by apply elem_of_union_r.
  - by rewrite lookup_insert_ne.
Qed.

(** The index defect in general: an identifier saved under one status and
    then under another stays in the first status's index set, while its
    metadata hash reports the second. *)
Lemma status_change_leaves_stale_index self i state1 state2 now1 now2 db db1 db2 s1 s2 :
  state1 !! "status" = Some (PStr s1) → s1 ≠ "" →
  state2 !! "status" = Some (PStr s2) → s2 ≠ "" →
  save_state_async self i state1 now1 db = Ok db1 →
  save_state_async self i state2 now2 db1 = Ok db2 →
  i ∈ SMEMBERS (_make_index_key self s1) db2 ∧
  i ∈ SMEMBERS (_make_index_key self s2) db2 ∧
  HGETALL (_make_metadata_key self i) db2 !! "status" = Some s2.
Proof.
  intros Hs1 Hn1 Hs2 Hn2 Hsave1 Hsave2.
  destruct (save_state_async_indexed _ _ _ _ _ _ _ Hs1 Hn1 Hsave1) as [Hin1 _].
  destruct (save_state_async_indexed _ _ _ _ _ _ _ Hs2 Hn2 Hsave2) as [Hin2 Hmeta].
  split; [|split; assumption]. eapply save_state_async_index_grows; eassumption.
Qed.

Lemma index_sound_empty self : index_sound self redis_empty.
Proof. intros i h s Hi. cbn [redis_empty kv_hashes] in Hi. by rewrite lookup_empty in Hi. Qed.

Lemma save_state_async_index_sound self i state now db db' :
  index_sound self db → has_status state →
  save_state_async self i state now db = Ok db' →
  index_sound self db'.
Proof.
  intros Hsound (s & Hs & Hne) Hsave j h s' Hj Hst.
  destruct (save_state_async_indexed _ _ _ _ _ _ _ Hs Hne Hsave) as [Hin Hmeta].
  destruct (decide (j = i)) as [->|Hji].
  - unfold HGETALL in Hmeta. rewrite Hj in Hmeta. cbn [default from_option] in Hmeta.
    unfold id in Hmeta. assert (s' = s) as -> by congruence. exact Hin.
  - eapply save_state_async_index_grows; [exact Hsave|].
    apply (Hsound j h s'); [|exact Hst].
    apply save_state_async_Ok in Hsave as (payload & mapping & _ & _ & _ & Hh & _).
    rewrite Hh, lookup_insert_ne in Hj; [exact Hj|].
    intros Heq. apply _make_metadata_key_inj in Heq. exact (Hji (eq_sym Heq)).
Qed.

(** After any sequence of saves whose states carry a status, every
    identifier is in the index set of the status its metadata reports; the
    converse is what [status_change_leaves_stale_index] refutes. *)
Lemma save_all_index_sound self saves db db' :
  index_sound self db →
  Forall (λ save, has_status save.1.2) saves →
  save_all self saves db = Ok db' →
  index_sound self db'.
Proof.
  revert db. induction saves as [|[[i state] now] saves IH]; intros db Hsound Hall;
    cbn [save_all]; [by intros [= <-]|].
  apply Forall_cons in Hall as [Hstate Hall].
  destruct (save_state_async self i state now db) as [db1|] eqn:Hsave; [|discriminate].
  apply IH; [|exact Hall]. eapply save_state_async_index_sound; eassumption.
Qed.

Lemma index_exact_empty self : index_exact self redis_empty.
Proof.
  intros S i. unfold SMEMBERS, HGETALL. cbn [redis_empty kv_sets kv_hashes].
  rewrite !lookup_empty. cbn [default from_option]. rewrite lookup_empty.
  split; [by intros ?%not_elem_of_empty|discriminate].
Qed.

(** The index stays exact across a save of an identifier that is new or
    keeps the status it had. *)
Lemma save_state_async_index_exact self i state now db db' s :
  index_exact self db →
  state !! "status" = Some (PStr s) → s ≠ "" →
  (∀ s0, HGETALL (_make_metadata_key self i) db !! "status" = Some s0 → s0 = s) →
  save_state_async self i state now db = Ok db' →
  index_exact self db'.
Proof.
  intros Hexact Hs Hne Hsame Hsave S j.
  destruct (save_state_async_indexed _ _ _ _ _ _ _ Hs Hne Hsave) as [Hin Hmeta].
  pose proof (save_state_async_index_grows _ _ _ _ _ _ (_make_index_key self S) j Hsave)
    as Hgrow.
  apply save_state_async_Ok in Hsave as (payload & mapping & _ & _ & _ & Hh & Hsets).
  assert (stamp i now state !! "status" = Some (PStr s)) as Hst.
  { unfold stamp. by do 2 (rewrite lookup_insert_ne by done). }
  unfold dict_get_default in Hsets. rewrite Hst in Hsets.
  cbn [default from_option py_str] in Hsets. unfold id in Hsets.
  destruct (decide (j = i)) as [->|Hji].
  - rewrite Hmeta. split.
    + intros Hi. destruct (decide (S = s)) as [->|HSs]; [done|].
      exfalso. apply HSs, Hsame, Hexact.
      unfold SMEMBERS in Hi. rewrite Hsets, lookup_insert_ne in Hi; [exact Hi|].
      intros Heq. apply _make_index_key_inj in Heq. exact (HSs (eq_sym Heq)).
    + intros [= <-]. exact Hin.
  - assert (HGETALL (_make_metadata_key self j) db' =
            HGETALL (_make_metadata_key self j) db) as ->.
    { unfold HGETALL. rewrite Hh, lookup_insert_ne; [done|].
      intros Heq. apply _make_metadata_key_inj in Heq. exact (Hji (eq_sym Heq)). }
    rewrite <- (Hexact S j). split; [|exact Hgrow].
    unfold SMEMBERS at 1. rewrite Hsets.
    destruct (decide (S = s)) as [->|HSs].
    + rewrite lookup_insert_eq. cbn [default from_option]. unfold id.
      intros [Hj%elem_of_singleton|Hj]%elem_of_union; [by destruct Hji|exact Hj].
    + rewrite lookup_insert_ne; [done|].
      intros Heq. apply _make_index_key_inj in Heq. exact (HSs (eq_sym Heq)).
Qed.

Lemma save_all_fresh_index_exact self saves db db' :
  index_exact self db →
  NoDup (saves.*1.*1) →
  (∀ i, i ∈ saves.*1.*1 → kv_hashes db !! _make_metadata_key self i = None) →
  Forall (λ save, has_status save.1.2) saves →
  save_all self saves db = Ok db' →
  index_exact self db'.
Proof.
  revert db. induction saves as [|[[i state] now] saves IH];
    intros db Hexact Hnodup Hfresh Hall; cbn [save_all]; [by intros [= <-]|].
  cbn [fmap list_fmap fst] in Hnodup, Hfresh.
  apply NoDup_cons in Hnodup as [Hi Hnodup].
  apply Forall_cons in Hall as [(s & Hs & Hne) Hall]. cbn [fst snd] in Hs.
  destruct (save_state_async self i state now db) as [db1|] eqn:Hsave; [|discriminate].
  apply IH; [|exact Hnodup| |exact Hall].
  - eapply save_state_async_index_exact; [exact Hexact|exact Hs|exact Hne| |exact Hsave].
    intros s0. unfold HGETALL. rewrite (Hfresh i) by left.
    cbn [default from_option]. by rewrite lookup_empty.
  - intros j Hj.
    apply save_state_async_Ok in Hsave as (payload & mapping & _ & _ & _ & Hh & _).
    rewrite Hh, lookup_insert_ne; [apply Hfresh; by right|].
    intros Heq. apply _make_metadata_key_inj in Heq. by subst j.
Qed.

(** Only saved identifiers enter index sets. *)
Lemma save_all_index_members self (Q : string → Prop) saves db db' :
  (∀ K x, x ∈ SMEMBERS K db → Q x) →
  Forall (λ save, Q save.1.1) saves →
  save_all self saves db = Ok db' →
  ∀ K x, x ∈ SMEMBERS K db' → Q x.
Proof.
  revert db. induction saves as [|[[i state] now] saves IH]; intros db Hdb Hall;
    cbn [save_all]; [by intros [= <-]|].
  apply Forall_cons in Hall as [Hi Hall]. cbn [fst] in Hi.
  destruct (save_state_async self i state now db) as [db1|] eqn:Hsave; [|discriminate].
  apply IH; [|exact Hall]. intros K x.
  apply save_state_async_Ok in Hsave as (payload & mapping & _ & _ & _ & _ & Hsets).
  unfold SMEMBERS at 1. rewrite Hsets.
  match goal with |- context [<[?k := _]> _] => destruct (decide (K = k)) as [->|HK] end.
  - rewrite lookup_insert_eq. cbn [default from_option]. unfold id.
    intros [->%elem_of_singleton|Hx]%elem_of_union; [exact Hi|by eapply Hdb].
  - rewrite lookup_insert_ne by done. apply Hdb.
Qed.

Lemma index_exact_terminal self db :
  index_exact self db →
  (∀ S i, i ∈ SMEMBERS (_make_index_key self S) db → plain_id i) →
  terminal_index_exact self db.
Proof. intros Hexact Hplain S _ i. split; [apply Hexact|apply Hplain]. Qed.

End invariants.

(** ** The reference codec round-trips *)

Lemma bits_to_pos_to_bits (p : positive) : bits_to_pos (pos_to_bits p) = Some p.
Proof. induction p as [p IH|p IH|]; cbn; by rewrite ?IH. Qed.

Lemma pos_to_bits_not_array (p : positive) : String.prefix "[" (pos_to_bits p) = false.
Proof. by destruct p. Qed.

Lemma Encoded_inj (text1 text2 : string) : Encoded text1 = Encoded text2 → text1 = text2.
Proof. by intros [= ->]. Qed.

(** A state without unserialisable objects is written, and read back. *)
Lemma ref_codec_payload (state : gmap string pyval) :
  forallb (λ kv, serialisable kv.2) (map_to_list state) = true →
  @json_dumps ref_pylib state = Encoded (pos_to_bits (encode state)) ∧
  @json_loads ref_pylib (pos_to_bits (encode state)) = Decoded state.
Proof.
  intros Hser. cbn [json_dumps json_loads ref_pylib]. unfold ref_dumps, ref_loads.
  rewrite Hser, pos_to_bits_not_array, bits_to_pos_to_bits. cbn [mbind option_bind].
  by rewrite decode_encode.
Qed.

Lemma ref_codec_roundtrip (state : gmap string pyval) :
  forallb (λ kv, serialisable kv.2) (map_to_list state) = true →
  @round_trips ref_pylib state.
Proof.
  intros [Hdumps Hloads]%ref_codec_payload.
  by exists (pos_to_bits (encode state)).
Qed.

(** ** The definitions on explicit inputs *)

(** C1, on an explicit input.  An execution is saved as [running] and then
    as [completed].  Its metadata hash reports [completed], yet it is a
    member of the [running] index set as well as of the [completed] one:
    the save adds to the new index and nothing takes it out of the old. *)
Theorem index_keeps_old_status :
  ∃ db,
    @save_all ref_pylib ex_storage ex_saves_completed redis_empty = Ok db ∧
    HGETALL (_make_metadata_key ex_storage "job-1") db !! "status" = Some "completed" ∧
    "job-1" ∈ SMEMBERS (_make_index_key ex_storage "completed") db ∧
    "job-1" ∈ SMEMBERS (_make_index_key ex_storage "running") db.
Proof.
  exists (ex_db ex_saves_completed).
  split; [decide_by_computation|].
  split; [decide_by_computation|].
  split; decide_by_computation.
Qed.

(** The two defaults for a missing status differ: with an empty status the
    metadata hash says [running] ([or]), the index key is made of the empty
    string ([get] with a default). *)
Example empty_status_index_mismatch :
  let db := ex_db [("job-1", ex_state "" ex_old, ex_t1)] in
  HGETALL (_make_metadata_key ex_storage "job-1") db !! "status" = Some "running" ∧
  SMEMBERS (_make_index_key ex_storage "running") db = ∅ ∧
  SMEMBERS (_make_index_key ex_storage "") db = {["job-1"]}.
Proof. cbv zeta. decide_by_computation. Qed.

(** C4, on an explicit input.  Another client has put the JSON array
    [[1, 2]] under the key of [job-1].  The payload parses as JSON but is
    no object: [ExecutionState] raises a [TypeError], which the
    [except json.JSONDecodeError] clause lets through, so the load raises
    where the claim has it return [None].  The same holds of every payload
    that [ExecutionState(json.loads(...))] refuses, for every library. *)
Theorem load_raises_on_json_array :
  GET (_make_key ex_storage "job-1") ex_foreign_db = Some "[1, 2]" ∧
  @load_state_async ref_pylib ex_storage "job-1" ex_foreign_db = Raise TypeError ∧
  @load_state_async ref_pylib ex_storage "job-1" ex_foreign_db ≠ Ok None ∧
  (∀ (lib : PyLib) self i db payload c,
     GET (_make_key self i) db = Some payload →
     @json_loads lib payload = NotAState c →
     @load_state_async lib self i db = Raise (exn_of c)).
Proof.
  split; [decide_by_computation|].
  split; [decide_by_computation|].
  split; [decide_by_computation|].
  intros lib self i db payload c Hget Hloads.
  unfold load_state_async. by rewrite Hget, Hloads.
Qed.

(** C5, on an explicit input.  An execution fails, is resumed and saved as
    [running]; its timestamp is older than the cutoff.  The cleanup finds
    it in the [failed] index set and deletes it, a [running] record. *)
Theorem cleanup_removes_resumed_execution :
  let db := ex_db ex_saves_resumed in
  let state := stamp "job-1" "2020-01-01T00:00:09+00:00" (ex_state "running" ex_old) in
  let cleaned := @cleanup_old_executions_async ref_pylib ex_storage 7 ex_now db in
  @save_all ref_pylib ex_storage ex_saves_resumed redis_empty = Ok db ∧
  @load_state_async ref_pylib ex_storage "job-1" db = Ok (Some state) ∧
  state !! "status" = Some (PStr "running") ∧
  HGETALL (_make_metadata_key ex_storage "job-1") db !! "status" = Some "running" ∧
  cleaned.2 = Ok 1 ∧
  @load_state_async ref_pylib ex_storage "job-1" cleaned.1 = Ok None ∧
  HGETALL (_make_metadata_key ex_storage "job-1") cleaned.1 = ∅.
Proof.
  cbv zeta.
  split; [decide_by_computation|].
  split; [decide_by_computation|].
  split; [decide_by_computation|].
  split; [decide_by_computation|].
  split; [decide_by_computation|].
  split; decide_by_computation.
Qed.

(** C9, on an explicit input.  An execution is saved as [running] and then
    as [completed].  Listing with the status filter [running] returns it,
    with [completed] as its status. *)
Theorem list_by_status_returns_other_status :
  let db := ex_db ex_saves_completed in
  let e := list_entry "job-1" (HGETALL (_make_metadata_key ex_storage "job-1") db) 1 in
  @save_all ref_pylib ex_storage ex_saves_completed redis_empty = Ok db ∧
  @list_executions_async ref_pylib ex_storage (Some "running") None db = Ok [e] ∧
  e !! "execution_id" = Some (PStr "job-1") ∧
  e !! "status" = Some (PStr "completed").
Proof.
  cbv zeta.
  split; [decide_by_computation|].
  split; [decide_by_computation|].
  split; decide_by_computation.
Qed.


(** An index set of a status outside the four is not cleared: the stale
    [archived] entry of an execution now [running] survives the rebuild. *)
Example rebuild_indexes_keeps_other_index :
  ∃ db,
    @save_all ref_pylib ex_storage ex_saves_archived redis_empty = Ok db ∧
    HGETALL (_make_metadata_key ex_storage "job-1") (rebuild_indexes ex_storage db)
      !! "status" = Some "running" ∧
    "job-1" ∈ SMEMBERS (_make_index_key ex_storage "archived")
               (rebuild_indexes ex_storage db).
Proof.
  exists (ex_db ex_saves_archived).
  split; [decide_by_computation|]. split; decide_by_computation.
Qed.

(** Under the prefix [app[1]:] the scan pattern [app[1]:meta:*] asks for
    keys that begin with [app1:meta:], and the key [app[1]:meta:job-1] is
    not one: the rebuild empties the [completed] index and puts nothing
    back, and the listing without a filter is empty. *)
Example scan_under_pattern_prefix :
  @save_state_async ref_pylib ex_glob_storage "job-1" ex_done ex_t1 redis_empty
    = Ok ex_glob_db ∧
  glob_free (prefix ex_glob_storage) = false ∧
  HGETALL (_make_metadata_key ex_glob_storage "job-1") ex_glob_db !! "status"
    = Some "completed" ∧
  "job-1" ∈ SMEMBERS (_make_index_key ex_glob_storage "completed") ex_glob_db ∧
  scan_iter "app[1]:meta:*" ex_glob_db = [] ∧
  SMEMBERS (_make_index_key ex_glob_storage "completed")
    (rebuild_indexes ex_glob_storage ex_glob_db) = ∅ ∧
  @list_executions_async ref_pylib ex_glob_storage None None ex_glob_db = Ok [].
Proof.
  split; [decide_by_computation|]. split; [reflexivity|].
  split; [decide_by_computation|]. split; [decide_by_computation|].
  split; [decide_by_computation|]. split; decide_by_computation.
Qed.

(** C8 as stated fails for [save_checkpoint]: called with the event loop
    running it does not raise, it returns with its coroutine scheduled. *)
Lemma save_checkpoint_on_running_loop :
  @save_checkpoint ref_pylib unit unit _ ref_serializer (ex_manager false) tt tt
      0 "fetch" "running" None None "2020-01-01T00:00:05+00:00" LoopRunning redis_empty =
    Scheduled
      (@save_checkpoint_async ref_pylib unit unit _ ref_serializer (ex_manager false)
         tt tt 0 "fetch" "running" None None "2020-01-01T00:00:05+00:00")
      redis_empty ∧
  ∀ e db',
    @save_checkpoint ref_pylib unit unit _ ref_serializer (ex_manager false) tt tt
      0 "fetch" "running" None None "2020-01-01T00:00:05+00:00" LoopRunning redis_empty
    ≠ Failed e db'.
Proof. split; [reflexivity|]. intros e db'. discriminate. Qed.

(** Cleanup run on [ex_population], seven days, at [ex_now]: the two old
    terminal records go, the count is two, the rest stays. *)
Example cleanup_population :
  let db := ex_db ex_population in
  let cleaned_db := (@cleanup_old_executions_async ref_pylib ex_storage 7 ex_now db).1 in
  @save_all ref_pylib ex_storage ex_population redis_empty = Ok db ∧
  (@cleanup_old_executions_async ref_pylib ex_storage 7 ex_now db).2 = Ok 2 ∧
  GET (_make_key ex_storage "job-done") cleaned_db = None ∧
  GET (_make_key ex_storage "job-fail") cleaned_db = None ∧
  GET (_make_key ex_storage "job-run") cleaned_db = GET (_make_key ex_storage "job-run") db ∧
  GET (_make_key ex_storage "job-new") cleaned_db = GET (_make_key ex_storage "job-new") db ∧
  GET (_make_key ex_storage "job-bad") cleaned_db = GET (_make_key ex_storage "job-bad") db ∧
  dom (kv_hashes cleaned_db) =
    {[_make_metadata_key ex_storage "job-run"; _make_metadata_key ex_storage "job-new";
      _make_metadata_key ex_storage "job-bad"]}.
Proof.
  cbv zeta. decide_by_computation.
Qed.

(** A payload that does not load ends the cleanup: with the JSON array
    [[1, 2]] under the key of the old completed record, the delete of that
    record raises [TypeError], which [except (ValueError, AttributeError)]
    lets through, and the old failed record is never looked at.  A number
    of days beyond what [timedelta] takes ends it before it starts. *)
Example cleanup_raises :
  let db := ex_foreign_population in
  let result := @cleanup_old_executions_async ref_pylib ex_storage 7 ex_now db in
  result.2 = Raise TypeError ∧
  @expired ref_pylib (ex_now - 7 * microseconds_per_day)
    (HGETALL (_make_metadata_key ex_storage "job-fail") db) = true ∧
  is_Some (GET (_make_key ex_storage "job-fail") db) ∧
  GET (_make_key ex_storage "job-fail") result.1 =
    GET (_make_key ex_storage "job-fail") db ∧
  @cleanup_old_executions_async ref_pylib ex_storage 1000000000 ex_now db =
    (db, Raise OverflowError).
Proof.
  cbv zeta.
  split; [decide_by_computation|]. split; [decide_by_computation|].
  split; [decide_by_computation|]. split; decide_by_computation.
Qed.

(** The hypothesis of [cleanup_old_executions_async_exact] holds of
    [ex_population], and the statement then keeps the running record. *)
Lemma cleanup_exact_on_population :
  let db := ex_db ex_population in
  terminal_index_exact ex_storage db ∧
  GET (_make_key ex_storage "job-run")
      (@cleanup_old_executions_async ref_pylib ex_storage 7 ex_now db).1 =
    GET (_make_key ex_storage "job-run") db.
Proof.
  cbv zeta.
  assert (@save_all ref_pylib ex_storage ex_population redis_empty =
          Ok (ex_db ex_population)) as Hsaved by decide_by_computation.
  assert (Forall plain_id (ex_population.*1.*1)) as Hplain.
  { unfold ex_population. cbn [fmap list_fmap fst].
    repeat (constructor; [split; reflexivity|]). constructor. }
  assert (terminal_index_exact ex_storage (ex_db ex_population)) as Hexact.
  { apply index_exact_terminal.
    - apply (@save_all_fresh_index_exact ref_pylib ex_storage ex_population redis_empty);
        [apply index_exact_empty| | | |exact Hsaved].
      + unfold ex_population. cbn [fmap list_fmap fst].
        apply (bool_decide_unpack _). vm_compute. exact I.
      + intros i _. apply lookup_empty.
      + unfold ex_population.
        repeat (constructor;
                [eexists; split; [vm_compute; reflexivity|discriminate]|]).
        constructor.
    - intros S. apply (@save_all_index_members ref_pylib ex_storage plain_id
                         ex_population redis_empty); [| |exact Hsaved].
      + intros K x Hx. unfold SMEMBERS in Hx. cbn [redis_empty kv_sets] in Hx.
        rewrite lookup_empty in Hx. cbn [default from_option] in Hx.
        destruct (not_elem_of_empty (C := gset string) _ Hx).
      + rewrite Forall_fmap, Forall_fmap in Hplain. exact Hplain. }
  split; [exact Hexact|].
  assert (@payloads_load ref_pylib (ex_db ex_population)) as Hpayloads
    by decide_by_computation.
  destruct (@cleanup_old_executions_async_exact ref_pylib ex_storage 7 ex_now
              (ex_db ex_population) 1703462400000000 Hexact eq_refl)
    as (D & cleaned_db & -> & HD & _ & Hkeep).
  { intros S j _ _. by apply (@loads_of_payloads ref_pylib). }
  apply Hkeep; [|split; reflexivity].
  intros [[Hst|Hst] _]%HD; vm_compute in Hst; discriminate Hst.
Qed.

(** ** Instances of the statements above *)

Lemma ex_db1_saved :
  @save_state_async ref_pylib ex_storage "job-1" ex_running ex_t1 redis_empty = Ok ex_db1.
Proof. decide_by_computation. Qed.

Lemma ex_db1_load :
  @load_state_async ref_pylib ex_storage "job-1" ex_db1 =
    Ok (Some (stamp "job-1" ex_t1 ex_running)).
Proof. decide_by_computation. Qed.

Lemma ex_running_saveable : saveable (stamp "job-1" ex_t1 ex_running).
Proof. repeat split; decide_by_computation. Qed.


(** [save_twice_last_write_wins] on [job-1], saved as [running] then as
    [completed], with the reference codec. *)
Lemma save_twice_last_write_wins_witness :
  let db2 := ex_db ex_saves_completed in
  @save_state_async ref_pylib ex_storage "job-1" ex_running ex_t1 redis_empty = Ok ex_db1 ∧
  @save_state_async ref_pylib ex_storage "job-1" ex_completed ex_t2 ex_db1 = Ok db2 ∧
  GET (_make_key ex_storage "job-1") db2 =
    Some (pos_to_bits (encode (stamp "job-1" ex_t2 ex_completed))) ∧
  @load_state_async ref_pylib ex_storage "job-1" db2 =
    Ok (Some (stamp "job-1" ex_t2 ex_completed)) ∧
  "job-1" ∈ scanned_ids ex_storage db2.
Proof.
  cbv zeta.
  assert (@save_state_async ref_pylib ex_storage "job-1" ex_completed ex_t2 ex_db1 =
          Ok (ex_db ex_saves_completed)) as H2 by decide_by_computation.
  destruct (ref_codec_payload (stamp "job-1" ex_t2 ex_completed)) as [Hdumps Hloads];
    [decide_by_computation|].
  destruct (@save_twice_last_write_wins ref_pylib ex_storage "job-1" ex_running
              ex_completed ex_t1 ex_t2 redis_empty ex_db1 _ ex_db1_saved H2)
    as (payload & Hpayload & Hget & _ & Hload & Hscan & _).
  assert (payload = pos_to_bits (encode (stamp "job-1" ex_t2 ex_completed))) as ->.
  { exact (Encoded_inj _ _ (eq_trans (eq_sym Hpayload) Hdumps)). }
  split; [exact ex_db1_saved|]. split; [exact H2|]. split; [exact Hget|].
  split; [exact (Hload Hloads)|]. exact (Hscan eq_refl).
Defined.

(** [mark_completed_async_effect] on [ex_db1], with and without
    auto-cleanup, and with auto-cleanup on a server whose payload does not
    load. *)
Lemma mark_completed_async_effect_witness :
  let state := stamp "job-1" ex_t1 ex_running in
  let state' := stamp "job-1" ex_t3 (<["status" := PStr "completed"]> state) in
  auto_cleanup (ex_manager true) = true ∧
  auto_cleanup (ex_manager false) = false ∧
  @load_state_async ref_pylib ex_storage "job-1" ex_db1 = Ok (Some state) ∧
  state ≠ ∅ ∧ saveable state ∧
  (∃ db', @mark_completed_async ref_pylib (ex_manager true) ex_t3 ex_db1 = (db', Ok tt) ∧
          GET (_make_key ex_storage "job-1") db' = None ∧
          @load_state_async ref_pylib ex_storage "job-1" db' = Ok None) ∧
  (∃ db', @mark_completed_async ref_pylib (ex_manager false) ex_t3 ex_db1 = (db', Ok tt) ∧
          @load_state_async ref_pylib ex_storage "job-1" db' = Ok (Some state') ∧
          state' !! "status" = Some (PStr "completed")) ∧
  @mark_completed_async ref_pylib (ex_manager true) ex_t3 ex_foreign_db =
    (ex_foreign_db, Raise TypeError).
Proof.
  cbv zeta.
  split; [reflexivity|]. split; [reflexivity|]. split; [exact ex_db1_load|].
  split; [apply stamp_nonempty|]. split; [exact ex_running_saveable|].
  split; [|split].
  - destruct (proj1 (proj1 (@mark_completed_async_effect ref_pylib (ex_manager true)
                              ex_t3 ex_db1) eq_refl) _ ex_db1_load)
      as (db' & deleted & _ & Hmark & Hget & Hnone).
    exists db'. split; [exact Hmark|]. split; [exact Hget|exact Hnone].
  - destruct (proj2 (@mark_completed_async_effect ref_pylib (ex_manager false) ex_t3 ex_db1)
                eq_refl _ ex_db1_load (stamp_nonempty _ _ _) ex_running_saveable)
      as (Hstatus & Hsaved & _).
    destruct (ref_codec_payload
                (stamp "job-1" ex_t3
                   (<["status" := PStr "completed"]> (stamp "job-1" ex_t1 ex_running))))
      as [Hdumps Hloads]; [decide_by_computation|].
    destruct (Hsaved _ Hdumps) as (db' & Hmark & _ & _ & _ & Hload).
    exists db'. split; [exact Hmark|]. split; [exact (Hload Hloads)|exact Hstatus].
  - apply (proj2 (proj1 (@mark_completed_async_effect ref_pylib (ex_manager true)
                           ex_t3 ex_foreign_db) eq_refl)).
    decide_by_computation.
Defined.

(** [mark_failed_async_effect] on the empty server, on [ex_db1] and on a
    server whose payload does not load. *)
Lemma mark_failed_async_effect_witness :
  let state := stamp "job-1" ex_t1 ex_running in
  let failed := <["error" := PStr "timeout"]> (<["status" := PStr "failed"]> state) in
  let state' := stamp "job-1" ex_t3 failed in
  @load_state_async ref_pylib ex_storage "job-1" redis_empty = Ok None ∧
  @mark_failed_async ref_pylib (ex_manager false) "timeout" ex_t3 redis_empty =
    (redis_empty, Ok tt) ∧
  @load_state_async ref_pylib ex_storage "job-1" ex_db1 = Ok (Some state) ∧
  state ≠ ∅ ∧ saveable state ∧
  (∃ db', @mark_failed_async ref_pylib (ex_manager false) "timeout" ex_t3 ex_db1 =
            (db', Ok tt) ∧
          @load_state_async ref_pylib ex_storage "job-1" db' = Ok (Some state') ∧
          state' !! "status" = Some (PStr "failed") ∧
          state' !! "error" = Some (PStr "timeout")) ∧
  @mark_failed_async ref_pylib (ex_manager false) "timeout" ex_t3 ex_foreign_db =
    (ex_foreign_db, Raise TypeError).
Proof.
  cbv zeta.
  assert (@load_state_async ref_pylib ex_storage "job-1" redis_empty = Ok None) as Hnone
    by reflexivity.
  split; [exact Hnone|]. split.
  - exact (proj1 (@mark_failed_async_effect ref_pylib (ex_manager false) "timeout" ex_t3
                    redis_empty) Hnone).
  - split; [exact ex_db1_load|]. split; [apply stamp_nonempty|].
    split; [exact ex_running_saveable|]. split.
    + destruct (proj2 (proj2 (@mark_failed_async_effect ref_pylib (ex_manager false)
                                "timeout" ex_t3 ex_db1))
                  _ ex_db1_load (stamp_nonempty _ _ _) ex_running_saveable)
        as (Hstatus & Herror & Hsaved & _).
      destruct (ref_codec_payload
                  (stamp "job-1" ex_t3
                     (<["error" := PStr "timeout"]>
                        (<["status" := PStr "failed"]> (stamp "job-1" ex_t1 ex_running)))))
        as [Hdumps Hloads]; [decide_by_computation|].
      destruct (Hsaved _ Hdumps) as (db' & Hmark & _ & _ & _ & Hload).
      exists db'. split; [exact Hmark|].
      split; [exact (Hload Hloads)|split; [exact Hstatus|exact Herror]].
    + apply (proj1 (proj2 (@mark_failed_async_effect ref_pylib (ex_manager false)
                             "timeout" ex_t3 ex_foreign_db))).
      decide_by_computation.
Defined.

(** [list_limit_zero_is_no_limit] on [ex_db2], which holds two executions,
    and on a three-element list. *)
Lemma list_limit_zero_is_no_limit_witness :
  (2 : Z) ≠ 0 ∧
  (∃ res,
     @list_executions_async ref_pylib ex_storage None (Some 0) ex_db2 = Ok res ∧
     @list_executions_async ref_pylib ex_storage None None ex_db2 = Ok res ∧
     length res = 2%nat ∧
     (∃ e1 e2, res = [e1; e2] ∧
               e1 !! "execution_id" = Some (PStr "job-2") ∧
               e2 !! "execution_id" = Some (PStr "job-1") ∧
               desc e1 e2)) ∧
  apply_limit (Some 2) [ex_running; ex_completed; ex_running] =
    slice_to [ex_running; ex_completed; ex_running] 2.
Proof.
  assert ((2 : Z) ≠ 0) as Hne by discriminate.
  destruct (@list_limit_zero_is_no_limit ref_pylib ex_storage None ex_db2)
    as (Hzero & Hfull & _ & Hcut).
  split; [exact Hne|]. split; [|exact (Hcut _ 2 Hne)].
  assert (@list_executions_async ref_pylib ex_storage None (Some 0) ex_db2 = Ok ex_listing2)
    as Hlist by decide_by_computation.
  exists ex_listing2. split; [exact Hlist|]. split; [by rewrite <- Hzero|].
  destruct (Hfull _ Hlist) as (Hsorted & _ & Hlen).
  split.
  - rewrite Hlen. decide_by_computation.
  - assert (∃ e1 e2, ex_listing2 = [e1; e2]) as (e1 & e2 & Heq).
    { destruct ex_listing2 as [|e1 [|e2 [|e3 l]]] eqn:Hl;
        [apply (f_equal length) in Hl; vm_compute in Hl; discriminate Hl ..| |
         apply (f_equal length) in Hl; vm_compute in Hl; discriminate Hl].
      by exists e1, e2. }
    exists e1, e2. split; [exact Heq|].
    assert (ex_listing2 !! 0%nat ≫= (.!! "execution_id") = Some (PStr "job-2"))
      as H1 by decide_by_computation.
    assert (ex_listing2 !! 1%nat ≫= (.!! "execution_id") = Some (PStr "job-1"))
      as H2 by decide_by_computation.
    rewrite Heq in H1, H2, Hsorted. cbn in H1, H2.
    split; [exact H1|]. split; [exact H2|].
    apply StronglySorted_inv in Hsorted as [_ Hall].
    by apply Forall_inv in Hall.
Defined.

(** * Further properties

    Deleting, the frame of a save, the listing and its failures, the
    maintenance operations, the statistics, and the rest of the manager.
    Left out: [set_ttl] (expiry needs the clock of the server), the
    connection set-up of [RedisDurableStorage.__init__], and
    [list_all_executions], which delegates to [list_executions] of the
    base class in [storage.py]. *)

(** ** Deleting *)

Section deleting_commands.
Implicit Types (self : RedisDurableStorage) (db : Redis).

Lemma exec_DEL_absent k db :
  key_exists k db = false → exec_command (DEL k) db = (db, RInt 0).
Proof.
  unfold key_exists. intros Hk.
  apply orb_false_iff in Hk as [Hk Hsets]. apply orb_false_iff in Hk as [Hstr Hhash].
  apply bool_decide_eq_false, eq_None_not_Some in Hstr.
  apply bool_decide_eq_false, eq_None_not_Some in Hhash.
  apply bool_decide_eq_false, eq_None_not_Some in Hsets.
  cbn [exec_command]. unfold key_exists.
  rewrite Hstr, Hhash, Hsets.
  rewrite !delete_id by assumption.
  rewrite !bool_decide_eq_false_2 by (by intros [? ?]).
  by destruct db.
Qed.

Lemma key_exists_DEL K k db :
  key_exists K (exec_command (DEL k) db).1 =
    if decide (K = k) then false else key_exists K db.
Proof.
  cbn [exec_command fst]. unfold key_exists. cbn [kv_strings kv_hashes kv_sets].
  destruct (decide (K = k)) as [->|Hne].
  - rewrite !lookup_delete_eq. rewrite !bool_decide_eq_false_2 by (by intros [? ?]). done.
  - by rewrite !lookup_delete_ne.
Qed.

Lemma key_exists_SREM K k m db :
  key_exists K db = false → key_exists K (exec_command (SREM k m) db).1 = false.
Proof.
  unfold key_exists. intros Hk.
  apply orb_false_iff in Hk as [Hk Hsets]. apply orb_false_iff in Hk as [Hstr Hhash].
  cbn [exec_command fst kv_strings kv_hashes kv_sets]. rewrite Hstr, Hhash.
  cbn [orb]. clear Hstr Hhash.
  apply bool_decide_eq_false, eq_None_not_Some in Hsets.
  apply bool_decide_eq_false. rewrite <- eq_None_not_Some.
  destruct (bool_decide (SMEMBERS k db ∖ {[m]} = ∅)) eqn:Hempty.
  - apply lookup_delete_None. by right.
  - destruct (decide (K = k)) as [->|Hne]; [|by rewrite lookup_insert_ne].
    exfalso. apply bool_decide_eq_false in Hempty. apply Hempty.
    unfold SMEMBERS. rewrite Hsets. cbn [default from_option].
    apply set_eq. intros x. rewrite elem_of_difference.
    split; [by intros [?%not_elem_of_empty _]|by intros ?%not_elem_of_empty].
Qed.

End deleting_commands.

Section deleting_lemmas.
Context `{PyLib}.
Implicit Types (self : RedisDurableStorage) (db : Redis).
Implicit Types (state : gmap string pyval).

Lemma reply_positive_flag (b : bool) : reply_positive (RInt (if b then 1 else 0)) = b.
Proof. by destruct b. Qed.

Lemma load_state_async_exists self i db state :
  load_state_async self i db = Ok (Some state) → key_exists (_make_key self i) db = true.
Proof.
  unfold load_state_async, GET, key_exists.
  destruct (kv_strings db !! _make_key self i) eqn:Hk; [|done]. intros _.
  rewrite bool_decide_eq_true_2 by (by eexists). done.
Qed.

(** The server a delete leaves is the one it found, when it raises, or
    the one it returns with. *)
Lemma delete_state_async_fst self i db :
  (∃ e, delete_state_async self i db = (db, Raise e)) ∨
  (∃ db' deleted, delete_state_async self i db = (db', Ok deleted)).
Proof.
  destruct (delete_state_async_cases self i db) as [?|(e & _ & ?)]; [by right|].
  left. by exists e.
Qed.

(** The value [delete_state_async] returns. *)
Lemma delete_state_async_result self i db db' deleted :
  delete_state_async self i db = (db', Ok deleted) →
  deleted =
    key_exists (_make_key self i) db || key_exists (_make_metadata_key self i) db.
Proof.
  assert (key_exists (_make_metadata_key self i)
            (exec_command (DEL (_make_key self i)) db).1
          = key_exists (_make_metadata_key self i) db) as Hm.
  { rewrite key_exists_DEL. rewrite decide_False; [done|].
    intros Heq. by apply (key_not_metadata_key self i). }
  unfold delete_state_async.
  destruct (load_state_async self i db) as [[state|]|e] eqn:Hload;
    [destruct (dict_truthy state)| |done]; cbn [app]; rewrite !pipeline_execute_cons;
    cbn [pipeline_execute fst snd existsb]; intros Heq;
    apply (f_equal snd) in Heq; cbn [snd] in Heq; apply Ok_inj in Heq;
    subst deleted.
  - rewrite (load_state_async_exists _ _ _ _ Hload). cbn [exec_command snd].
    by rewrite (load_state_async_exists _ _ _ _ Hload).
  - cbn [exec_command fst snd] in *. rewrite !reply_positive_flag, Hm.
    by rewrite orb_false_r.
  - cbn [exec_command fst snd] in *. rewrite !reply_positive_flag, Hm.
    by rewrite orb_false_r.
Qed.

(** The server a delete leaves, by what the load before it found. *)
Lemma delete_state_async_loaded self i db state :
  load_state_async self i db = Ok (Some state) → state ≠ ∅ →
  (delete_state_async self i db).1 =
    (exec_command
       (SREM (_make_index_key self
                (py_str (dict_get_default state "status" (PStr "running")))) i)
       (exec_command (DEL (_make_metadata_key self i))
          (exec_command (DEL (_make_key self i)) db).1).1).1.
Proof.
  intros Hload Hne. unfold delete_state_async.
  rewrite Hload, (proj2 (dict_truthy_true _) Hne). cbn [app].
  rewrite !pipeline_execute_cons. reflexivity.
Qed.

Lemma delete_state_async_unloaded self i db :
  load_state_async self i db = Ok None →
  (delete_state_async self i db).1 =
    (exec_command (DEL (_make_metadata_key self i))
       (exec_command (DEL (_make_key self i)) db).1).1.
Proof.
  intros Hload. unfold delete_state_async. rewrite Hload. cbn [app].
  rewrite !pipeline_execute_cons. reflexivity.
Qed.

Lemma delete_state_async_keys_gone self i db db' deleted :
  delete_state_async self i db = (db', Ok deleted) →
  key_exists (_make_key self i) db' = false ∧
  key_exists (_make_metadata_key self i) db' = false.
Proof.
  assert (key_exists (_make_key self i)
            (exec_command (DEL (_make_metadata_key self i))
               (exec_command (DEL (_make_key self i)) db).1).1 = false ∧
          key_exists (_make_metadata_key self i)
            (exec_command (DEL (_make_metadata_key self i))
               (exec_command (DEL (_make_key self i)) db).1).1 = false) as [Hk Hm].
  { split.
    - rewrite key_exists_DEL. destruct (decide _); [done|].
      rewrite key_exists_DEL. by destruct (decide _).
    - rewrite key_exists_DEL. by destruct (decide _). }
  unfold delete_state_async.
  destruct (load_state_async self i db) as [[state|]|e] eqn:Hload;
    [destruct (dict_truthy state)| |done]; cbn [app]; rewrite !pipeline_execute_cons;
    cbn [pipeline_execute fst snd]; intros Heq;
    apply (f_equal fst) in Heq; cbn [fst] in Heq; subst db';
    try (split; assumption).
  split; by apply key_exists_SREM.
Qed.

Lemma key_exists_false k db :
  key_exists k db = false ↔
  kv_strings db !! k = None ∧ kv_hashes db !! k = None ∧ kv_sets db !! k = None.
Proof.
  unfold key_exists. rewrite !orb_false_iff, !bool_decide_eq_false, <- !eq_None_not_Some.
  tauto.
Qed.

End deleting_lemmas.

Section deleting.
Context `{PyLib}.
Implicit Types (self : RedisDurableStorage) (db : Redis).
Implicit Types (state : gmap string pyval).

(** X1. A [delete_state_async] that returns: the primary key and the
    metadata hash of the identifier are gone and a load finds nothing; when
    a non-empty record was in place the identifier is out of the index set
    of the status that record carried; no index set gains a member; and
    the value returned is [True] exactly when the primary key or the
    metadata key existed.  It returns exactly when the load it starts with
    does; when that load raises, the delete raises the same exception and
    the server is as it was. *)
Theorem delete_state_async_removes self i db :
  (∀ db' deleted,
     delete_state_async self i db = (db', Ok deleted) →
     GET (_make_key self i) db' = None ∧
     load_state_async self i db' = Ok None ∧
     HGETALL (_make_metadata_key self i) db' = ∅ ∧
     (∀ state, load_state_async self i db = Ok (Some state) → state ≠ ∅ →
        i ∉ SMEMBERS
              (_make_index_key self
                 (py_str (dict_get_default state "status" (PStr "running")))) db') ∧
     (∀ K x, x ∈ SMEMBERS K db' → x ∈ SMEMBERS K db) ∧
     deleted =
       key_exists (_make_key self i) db || key_exists (_make_metadata_key self i) db) ∧
  (∀ r, load_state_async self i db = Ok r →
     ∃ db' deleted, delete_state_async self i db = (db', Ok deleted)) ∧
  (∀ e, load_state_async self i db = Raise e →
     delete_state_async self i db = (db, Raise e)).
Proof.
  split; [|split].
  - intros db' deleted Hdel.
    destruct (delete_state_async_keys_gone self i db _ _ Hdel) as [Hk Hm].
    apply key_exists_false in Hk as (Hks & _ & _).
    apply key_exists_false in Hm as (_ & Hmh & _).
    split; [exact Hks|].
    split; [by eapply load_after_delete|].
    split; [unfold HGETALL; by rewrite Hmh|].
    split; [|split].
    + intros state Hload Hne.
      pose proof (delete_state_async_loaded _ _ _ _ Hload Hne) as Hfst.
      rewrite Hdel in Hfst. cbn [fst] in Hfst. rewrite Hfst.
      rewrite SMEMBERS_SREM. intros [_ Hnot]. by apply Hnot.
    + by apply (delete_state_async_effect self i db _ _ Hdel).
    + by eapply delete_state_async_result.
  - intros r Hload. apply delete_state_async_returns. by exists r.
  - intros e Hload. by apply delete_state_async_Raise.
Qed.

(** X2. Deleting an identifier that has neither a primary key nor a
    metadata key returns [False] and leaves the server as it is; so a
    second delete of the same identifier, right after a first that
    returned, returns [False] and changes nothing. *)
Theorem delete_state_async_absent self i db :
  (key_exists (_make_key self i) db = false →
   key_exists (_make_metadata_key self i) db = false →
   delete_state_async self i db = (db, Ok false)) ∧
  (∀ db' deleted,
     delete_state_async self i db = (db', Ok deleted) →
     delete_state_async self i db' = (db', Ok false)).
Proof.
  assert (∀ db0, key_exists (_make_key self i) db0 = false →
                 key_exists (_make_metadata_key self i) db0 = false →
                 delete_state_async self i db0 = (db0, Ok false)) as Habsent.
  { intros db0 Hk Hm.
    assert (load_state_async self i db0 = Ok None) as Hload.
    { unfold load_state_async, GET.
      apply key_exists_false in Hk as (-> & _). done. }
    destruct (proj1 (delete_state_async_returns _ _ _) (ex_intro _ _ Hload))
      as (db1 & deleted & Hdel).
    pose proof (delete_state_async_result _ _ _ _ _ Hdel) as Hres.
    rewrite Hk, Hm in Hres. cbn [orb] in Hres. subst deleted.
    pose proof (delete_state_async_unloaded _ _ _ Hload) as Hfst.
    rewrite Hdel in Hfst. cbn [fst] in Hfst.
    rewrite (exec_DEL_absent _ _ Hk) in Hfst. cbn [fst] in Hfst.
    rewrite (exec_DEL_absent _ _ Hm) in Hfst. cbn [fst] in Hfst.
    by rewrite Hdel, Hfst. }
  split; [apply Habsent|].
  intros db' deleted Hdel.
  destruct (delete_state_async_keys_gone self i db _ _ Hdel) as [Hk Hm].
  by apply Habsent.
Qed.

(** X3. A delete leaves every other execution alone: for two different
    identifiers, neither beginning with [meta:] or [index:], the primary
    record, the load, the metadata hash and the index memberships of the
    one are what they were before the other was deleted. *)
Theorem delete_leaves_other_executions self i j db :
  j ≠ i → plain_id i → plain_id j →
  let db' := (delete_state_async self i db).1 in
  GET (_make_key self j) db' = GET (_make_key self j) db ∧
  load_state_async self j db' = load_state_async self j db ∧
  HGETALL (_make_metadata_key self j) db' = HGETALL (_make_metadata_key self j) db ∧
  (∀ S, j ∈ SMEMBERS (_make_index_key self S) db' ↔
        j ∈ SMEMBERS (_make_index_key self S) db).
Proof.
  intros Hji Hi Hj db'. subst db'.
  destruct (delete_state_async_fst self i db) as [[e ->]|(db' & deleted & Hdel)];
    [done|].
  rewrite Hdel. cbn [fst].
  destruct (delete_state_async_effect self i db _ _ Hdel) as (Hs & Hh & Hsub & Hsup & _).
  clear Hdel.
  assert (GET (_make_key self j) db' = GET (_make_key self j) db) as Hget.
  { unfold GET. rewrite Hs. rewrite !lookup_delete_ne; [done| |].
    - intros Heq. apply _make_key_inj in Heq. by apply Hji.
    - intros Heq. by apply (plain_key_not_metadata_key self j i Hj). }
  split; [exact Hget|]. split; [unfold load_state_async; by rewrite Hget|].
  split.
  - unfold HGETALL. rewrite Hh. rewrite !lookup_delete_ne; [done| |].
    + by apply plain_key_not_metadata_key.
    + intros Heq. apply _make_metadata_key_inj in Heq. by apply Hji.
  - intros S. split; [apply Hsub|]. intros Hin. apply Hsup; [exact Hin| | |exact Hji].
    + intros Heq. by apply (plain_key_not_index_key self i S Hi).
    + intros Heq. by apply (metadata_key_not_index_key self i S).
Qed.

(** X4. A delete keeps an exact index exact, provided the primary record
    and the metadata hash of the deleted identifier agree on its status (as
    they do after a save with a non-empty string status): the one SREM the
    delete issues then removes the only index membership there is. *)
Theorem delete_state_async_index_exact self i db :
  index_exact self db → plain_id i →
  (∀ s, HGETALL (_make_metadata_key self i) db !! "status" = Some s →
        ∃ state, load_state_async self i db = Ok (Some state) ∧ state ≠ ∅ ∧
                 py_str (dict_get_default state "status" (PStr "running")) = s) →
  index_exact self (delete_state_async self i db).1.
Proof.
  intros Hexact Hi Hagree S j.
  destruct (delete_state_async_fst self i db) as [[e ->]|(db' & deleted & Hdel)];
    [apply Hexact|].
  pose proof (delete_state_async_loaded self i db) as Hloaded.
  rewrite Hdel in Hloaded |- *. cbn [fst] in Hloaded |- *.
  destruct (delete_state_async_effect self i db _ _ Hdel) as (Hs & Hh & Hsub & Hsup & _).
  destruct (decide (j = i)) as [->|Hji].
  - destruct (delete_state_async_keys_gone self i db _ _ Hdel) as [_ Hm].
    clear Hdel.
    apply key_exists_false in Hm as (_ & Hmh & _).
    unfold HGETALL at 1. rewrite Hmh. cbn [default from_option].
    rewrite lookup_empty. split; [|discriminate].
    intros Hin. exfalso. pose proof (Hsub _ _ Hin) as Hin0.
    apply Hexact in Hin0. destruct (Hagree S Hin0) as (state & Hload & Hne & Hst).
    revert Hin. rewrite (Hloaded _ Hload Hne), Hst.
    rewrite SMEMBERS_SREM. intros [_ Hnot]. by apply Hnot.
  - clear Hdel.
    assert (HGETALL (_make_metadata_key self j) db' =
            HGETALL (_make_metadata_key self j) db) as ->.
    { unfold HGETALL. rewrite Hh. rewrite !lookup_delete_ne; [done| |].
      - by apply plain_key_not_metadata_key.
      - intros Heq. apply _make_metadata_key_inj in Heq. by apply Hji. }
    rewrite <- (Hexact S j). split; [apply Hsub|].
    intros Hin. apply Hsup; [exact Hin| | |exact Hji].
    + intros Heq. by apply (plain_key_not_index_key self i S Hi).
    + intros Heq. by apply (metadata_key_not_index_key self i S).
Qed.

End deleting.

(** ** What a save writes *)

Section saving.
Context `{PyLib}.
Implicit Types (self : RedisDurableStorage) (db : Redis).
Implicit Types (state : gmap string pyval).

(** The seven fields of the metadata hash after a save. *)
Lemma save_state_async_hash_fields self i state now db db' :
  save_state_async self i state now db = Ok db' →
  let h := HGETALL (_make_metadata_key self i) db' in
  h !! "execution_id" = Some i ∧
  h !! "status" = redis_encode (py_or (dict_get state "status") (PStr "running")) ∧
  h !! "step_index" = Some (py_str (dict_get_default state "step_index" (PInt 0))) ∧
  h !! "step_name" = redis_encode (py_or (dict_get state "step_name") (PStr "unknown")) ∧
  h !! "timestamp" = redis_encode (py_or (dict_get state "timestamp") (PStr "")) ∧
  h !! "saved_at" = Some now ∧
  h !! "error" = redis_encode (py_or (dict_get state "error") (PStr "")).
Proof.
  intros Hsave h. subst h.
  pose proof (save_state_async_saveable_inv _ _ _ _ _ _ Hsave)
    as (Hst & Hname & Hts & Herr).
  apply save_state_async_Ok in Hsave as (payload & mapping & _ & Henc & _ & Hh & _).
  apply encode_mapping_Some in Henc as [-> _].
  assert (HGETALL (_make_metadata_key self i) db' =
          omap redis_encode (save_metadata i (stamp i now state))
          ∪ HGETALL (_make_metadata_key self i) db) as ->.
  { unfold HGETALL at 1. by rewrite Hh, lookup_insert_eq. }
  clear Hh.
  assert (dict_get_default (stamp i now state) "step_index" (PInt 0) =
          dict_get_default state "step_index" (PInt 0)) as Hidx.
  { unfold dict_get_default, stamp. by do 2 (rewrite lookup_insert_ne by done). }
  assert (py_or (dict_get (stamp i now state) "saved_at") (PStr "") = PStr now) as Hsaved.
  { unfold dict_get, stamp. rewrite lookup_insert_ne, lookup_insert_eq by done.
    cbn [default from_option]. unfold id, py_or. cbn [truthy].
    destruct (String.eqb_spec now "") as [->|_]; reflexivity. }
  rewrite save_metadata_fields.
  rewrite (dict_get_stamp i now state "status"),
    (dict_get_stamp i now state "step_name"),
    (dict_get_stamp i now state "timestamp"),
    (dict_get_stamp i now state "error"), Hidx, Hsaved by done.
  set (metadata := <["execution_id" := _]> _).
  set (old := HGETALL _ db).
  assert (∀ k v, metadata !! k = Some v → is_Some (redis_encode v) →
                 (omap redis_encode metadata ∪ old) !! k = redis_encode v) as Hfield.
  { intros k v Hk [s Hs]. rewrite Hs. apply lookup_union_Some_l.
    by rewrite lookup_omap, Hk. }
  split; [apply (Hfield "execution_id" (PStr i)); [done|by eexists]|].
  split; [apply Hfield; [done|by apply storable_py_or]|].
  split; [apply (Hfield "step_index" (PStr _)); [done|by eexists]|].
  split; [apply Hfield; [done|by apply storable_py_or]|].
  split; [apply Hfield; [done|by apply storable_py_or]|].
  split; [apply (Hfield "saved_at" (PStr now)); [done|by eexists]|].
  apply Hfield; [done|by apply storable_py_or].
Qed.

Lemma py_or_PStr (s d : string) : s ≠ "" → py_or (PStr s) (PStr d) = PStr s.
Proof.
  intros Hs. unfold py_or. cbn [truthy].
  by rewrite (proj2 (negb_true_iff _) (proj2 (String.eqb_neq s "") Hs)).
Qed.

Lemma dict_get_Some state k v : state !! k = Some v → dict_get state k = v.
Proof. unfold dict_get. by intros ->. Qed.


(** X5. A save touches one execution only.  For identifiers that do not
    begin with [meta:] or [index:]: the primary record, the load and the
    metadata hash of every other identifier are unchanged, and the index
    sets change by one membership at most, that of the saved identifier in
    the index of [state.get("status", "running")]. *)
Theorem save_state_async_frame self i state now db db' :
  plain_id i →
  save_state_async self i state now db = Ok db' →
  (∀ j, j ≠ i → plain_id j →
     GET (_make_key self j) db' = GET (_make_key self j) db ∧
     load_state_async self j db' = load_state_async self j db ∧
     HGETALL (_make_metadata_key self j) db' = HGETALL (_make_metadata_key self j) db) ∧
  (∀ K x, x ∈ SMEMBERS K db' ↔
          x ∈ SMEMBERS K db ∨
          (x = i ∧
           K = _make_index_key self
                 (py_str (dict_get_default state "status" (PStr "running"))))).
Proof.
  intros _ (payload & mapping & _ & _ & Hs & Hh & Hsets)%save_state_async_Ok.
  assert (dict_get_default (stamp i now state) "status" (PStr "running") =
          dict_get_default state "status" (PStr "running")) as Hst.
  { unfold dict_get_default, stamp. by do 2 (rewrite lookup_insert_ne by done). }
  rewrite Hst in Hsets. split.
  - intros j Hji _.
    assert (GET (_make_key self j) db' = GET (_make_key self j) db) as Hget.
    { unfold GET. rewrite Hs, lookup_insert_ne; [done|].
      intros Heq. apply _make_key_inj in Heq. exact (Hji (eq_sym Heq)). }
    split; [exact Hget|]. split; [unfold load_state_async; by rewrite Hget|].
    unfold HGETALL. rewrite Hh, lookup_insert_ne; [done|].
    intros Heq. apply _make_metadata_key_inj in Heq. exact (Hji (eq_sym Heq)).
  - intros K x. unfold SMEMBERS at 1. rewrite Hsets.
    match goal with |- context [<[?k := _]> _] => destruct (decide (K = k)) as [->|Hne] end.
    + rewrite lookup_insert_eq. cbn [default from_option]. unfold id.
      rewrite elem_of_union, elem_of_singleton. tauto.
    + rewrite lookup_insert_ne by done. fold (SMEMBERS K db). tauto.
Qed.

(** X6. The metadata hash after a save is the projection of the saved
    state: it has the seven fields; [execution_id] and [saved_at] are the
    identifier and the time of the save; [step_index] is the decimal of an
    integer step index, [0] when there is none; each of [status],
    [step_name], [timestamp], [error] is the state's value when that is a
    non-empty string, and [running], [unknown], the empty string, the
    empty string when the state has [None] or nothing there. *)
Theorem save_state_async_metadata self i state now db db' :
  save_state_async self i state now db = Ok db' →
  let h := HGETALL (_make_metadata_key self i) db' in
  metadata_fields ⊆ dom h ∧
  h !! "execution_id" = Some i ∧
  h !! "saved_at" = Some now ∧
  (∀ n, state !! "step_index" = Some (PInt n) → h !! "step_index" = Some (pretty n)) ∧
  (state !! "step_index" = None → h !! "step_index" = Some "0") ∧
  (∀ f s, f ∈ ["status"; "step_name"; "timestamp"; "error"] →
          state !! f = Some (PStr s) → s ≠ "" → h !! f = Some s) ∧
  (dict_get state "status" = PNone → h !! "status" = Some "running") ∧
  (dict_get state "step_name" = PNone → h !! "step_name" = Some "unknown") ∧
  (dict_get state "timestamp" = PNone → h !! "timestamp" = Some "") ∧
  (dict_get state "error" = PNone → h !! "error" = Some "").
Proof.
  intros Hsave h.
  destruct (save_state_async_hash_fields _ _ _ _ _ _ Hsave)
    as (Hid & Hst & Hidx & Hname & Hts & Hsaved & Herr).
  fold h in Hid, Hst, Hidx, Hname, Hts, Hsaved, Herr.
  split.
  { apply save_state_async_Ok in Hsave as (payload & mapping & _ & Henc & _ & Hh & _).
    apply encode_mapping_Some in Henc as [_ Hdom].
    rewrite save_metadata_dom in Hdom.
    unfold h, HGETALL. rewrite Hh, lookup_insert_eq. cbn [default from_option]. unfold id.
    rewrite dom_union_L, Hdom. apply union_subseteq_l. }
  split; [exact Hid|]. split; [exact Hsaved|].
  split; [intros n Hn; rewrite Hidx; unfold dict_get_default; rewrite Hn; reflexivity|].
  split; [intros Hn; rewrite Hidx; unfold dict_get_default; rewrite Hn; reflexivity|].
  split.
  { intros f s Hf Hfs Hs. clear Hsave.
    pose proof (dict_get_Some _ _ _ Hfs) as Hget.
    pose proof (py_or_PStr s) as Hor.
    apply elem_of_cons in Hf as [->|Hf].
    { rewrite Hst, Hget, Hor; [reflexivity|exact Hs]. }
    apply elem_of_cons in Hf as [->|Hf].
    { rewrite Hname, Hget, Hor; [reflexivity|exact Hs]. }
    apply elem_of_cons in Hf as [->|Hf].
    { rewrite Hts, Hget, Hor; [reflexivity|exact Hs]. }
    apply elem_of_cons in Hf as [->|Hf].
    { rewrite Herr, Hget, Hor; [reflexivity|exact Hs]. }
    apply elem_of_nil in Hf. destruct Hf. }
  clear Hsave.
  split; [intros Hn; rewrite Hst, Hn; reflexivity|].
  split; [intros Hn; rewrite Hname, Hn; reflexivity|].
  split; [intros Hn; rewrite Hts, Hn; reflexivity|].
  intros Hn; rewrite Herr, Hn; reflexivity.
Qed.

(** X7. Saving a fresh identifier and deleting it again gives the server
    back: the delete returns [True], the strings and the hashes are the
    ones from before the save, and the index sets are the ones from before
    except that the identifier is out of the index of the saved status
    (where it was not, for a fresh identifier with a clean index). *)
Theorem save_then_delete_restores self i state now db db1 :
  key_exists (_make_key self i) db = false →
  key_exists (_make_metadata_key self i) db = false →
  round_trips (stamp i now state) →
  save_state_async self i state now db = Ok db1 →
  let db2 := (delete_state_async self i db1).1 in
  (delete_state_async self i db1).2 = Ok true ∧
  kv_strings db2 = kv_strings db ∧
  kv_hashes db2 = kv_hashes db ∧
  (∀ K x, x ∈ SMEMBERS K db2 ↔
          x ∈ SMEMBERS K db ∧
          ¬ (x = i ∧
             K = _make_index_key self
                   (py_str (dict_get_default state "status" (PStr "running"))))).
Proof.
  intros Hk Hm (text & Hdumps & Hloads) Hsave db2. subst db2.
  assert (load_state_async self i db1 = Ok (Some (stamp i now state))) as Hload.
  { destruct (load_after_save _ _ _ _ _ _ Hsave) as (payload & Hpayload & Hget).
    rewrite (load_state_async_payload _ _ _ _ Hget).
    assert (payload = text) as -> by congruence. by rewrite Hloads. }
  clear text Hdumps Hloads.
  apply key_exists_false in Hk as (Hks & Hkh & Hkz).
  apply key_exists_false in Hm as (Hms & Hmh & Hmz).
  destruct (proj1 (delete_state_async_returns _ _ _) (ex_intro _ _ Hload))
    as (db2 & deleted & Hdel).
  pose proof (delete_state_async_loaded _ _ _ _ Hload (stamp_nonempty _ _ _)) as Hloaded.
  pose proof (delete_state_async_result _ _ _ _ _ Hdel) as Hres.
  destruct (delete_state_async_effect self i db1 _ _ Hdel) as (Hs & Hh & _).
  rewrite Hdel in Hloaded |- *. cbn [fst snd] in Hloaded |- *. clear Hdel.
  assert (dict_get_default (stamp i now state) "status" (PStr "running") =
          dict_get_default state "status" (PStr "running")) as Hst.
  { unfold dict_get_default, stamp. by do 2 (rewrite lookup_insert_ne by done). }
  split; [|split; [|split]].
  - rewrite Hres, (load_state_async_exists _ _ _ _ Hload). done.
  - rewrite Hs. apply save_state_async_Ok in Hsave as (payload & mapping & _ & _ & -> & _).
    rewrite delete_insert_id by exact Hks. by apply delete_id.
  - rewrite Hh. apply save_state_async_Ok in Hsave as (payload & mapping & _ & _ & _ & -> & _).
    rewrite delete_insert_ne by apply key_not_metadata_key.
    rewrite delete_insert_id by (by apply lookup_delete_None; right).
    by apply delete_id.
  - intros K x.
    rewrite Hloaded, Hst.
    rewrite SMEMBERS_SREM, !SMEMBERS_DEL.
    apply save_state_async_Ok in Hsave as (payload & mapping & _ & _ & _ & _ & Hsets).
    rewrite Hst in Hsets.
    assert (x ∈ SMEMBERS K db1 ↔
            x ∈ SMEMBERS K db ∨
            (x = i ∧ K = _make_index_key self
                           (py_str (dict_get_default state "status" (PStr "running")))))
      as ->.
    { unfold SMEMBERS at 1. rewrite Hsets.
      match goal with |- context [<[?k := _]> _] => destruct (decide (K = k)) as [->|Hne] end.
      - rewrite lookup_insert_eq. cbn [default from_option]. unfold id.
        rewrite elem_of_union, elem_of_singleton. tauto.
      - rewrite lookup_insert_ne by done. fold (SMEMBERS K db). tauto. }
    assert (x ∈ SMEMBERS K db → K ≠ _make_key self i ∧ K ≠ _make_metadata_key self i)
      as Hold.
    { intros Hx. split; intros ->; unfold SMEMBERS in Hx;
        [rewrite Hkz in Hx|rewrite Hmz in Hx]; by apply not_elem_of_empty in Hx. }
    tauto.
Qed.

End saving.

(** ** More on the listing *)

Section listing_more.
Context `{PyLib}.
Implicit Types (self : RedisDurableStorage) (db : Redis).
Implicit Types (e : gmap string pyval) (l : list (gmap string pyval)).

Lemma list_executions_async_unlimited self status db full :
  list_executions_async self status None db = Ok full →
  ∃ entries,
    fetch_entries self db (elements (listed_ids self status db)) = Ok entries ∧
    sort_by_timestamp entries = Ok full ∧
    ∀ limit, list_executions_async self status limit db = Ok (apply_limit limit full).
Proof.
  unfold list_executions_async.
  destruct (fetch_entries _ _ _) as [entries|] eqn:Hfetch; [|done].
  destruct (sort_by_timestamp entries) as [sorted|] eqn:Hsort; [|done].
  cbn [apply_limit]. intros [= <-]. exists entries.
  split; [reflexivity|]. split; [exact Hsort|]. intros limit. reflexivity.
Qed.

Lemma entry_for_nonempty_scanned self db i e :
  glob_free (prefix self) = true →
  entry_for self db i e → i ∈ scanned_ids self db.
Proof.
  intros Hfree [Hne _]. apply scanned_ids_metadata; [exact Hfree|].
  unfold HGETALL in Hne.
  destruct (kv_hashes db !! _make_metadata_key self i); [by eexists|done].
Qed.

(** X8. Under a prefix without pattern characters, the listing without a
    status filter ([None], or the empty string, which [if status:] takes
    for none) and without a limit: its entries are exactly the entries of
    the identifiers that have a non-empty metadata hash, one for each, each
    with the seven fields, in descending order of [timestamp]. *)
Theorem list_executions_async_unfiltered self status db res :
  glob_free (prefix self) = true →
  status = None ∨ status = Some "" →
  list_executions_async self status None db = Ok res →
  (∀ e, e ∈ res ↔ ∃ i, entry_for self db i e) ∧
  StronglySorted desc res ∧
  Forall (λ e, dom e = metadata_fields) res ∧
  length res =
    length (filter (λ i, HGETALL (_make_metadata_key self i) db ≠ ∅)
              (elements (scanned_ids self db))).
Proof.
  intros Hfree Hstatus Hlist.
  assert (listed_ids self status db = scanned_ids self db) as Hids.
  { by destruct Hstatus as [->| ->]. }
  destruct (list_executions_async_unlimited _ _ _ _ Hlist) as (entries & Hfetch & Hsort & _).
  apply list_executions_async_spec in Hlist as (sorted & -> & Hsorted & Hentries & Hdom).
  cbn [apply_limit] in *. rewrite Hids in Hentries, Hfetch.
  split; [|split; [exact Hsorted|split; [exact Hdom|]]].
  - intros e. rewrite Hentries. split; [intros (i & _ & He); by exists i|].
    intros (i & He). exists i. split; [|exact He].
    by eapply entry_for_nonempty_scanned.
  - apply sort_by_timestamp_spec in Hsort as [Hperm _].
    rewrite Hperm. by apply fetch_entries_length.
Qed.

Lemma list_entry_lookups i (metadata : gmap string string) n :
  list_entry i metadata n !! "execution_id" =
    Some (PStr (default i (metadata !! "execution_id"))) ∧
  list_entry i metadata n !! "status" = Some (opt_str (metadata !! "status")) ∧
  list_entry i metadata n !! "step_index" = Some (PInt n) ∧
  list_entry i metadata n !! "saved_at" = Some (opt_str (metadata !! "saved_at")).
Proof. unfold list_entry. repeat split; by simplify_map_eq. Qed.

(** X9. A saved execution is listed.  After a save with a non-empty
    string status and an integer step index that [int] reads back, the
    listing filtered by that status, and under a prefix without pattern
    characters the listing without a filter, hold an entry with the
    identifier, the status, the step index as an integer and the time of
    the save. *)
Theorem saved_execution_is_listed self i state now db db' s n status res :
  state !! "status" = Some (PStr s) → s ≠ "" →
  state !! "step_index" = Some (PInt n) → py_int (pretty n) = Some n →
  save_state_async self i state now db = Ok db' →
  (status = None ∧ glob_free (prefix self) = true) ∨ status = Some s →
  list_executions_async self status None db' = Ok res →
  ∃ e, e ∈ res ∧
       e !! "execution_id" = Some (PStr i) ∧
       e !! "status" = Some (PStr s) ∧
       e !! "step_index" = Some (PInt n) ∧
       e !! "saved_at" = Some (PStr now).
Proof.
  intros Hs Hne Hn Hint Hsave Hstatus Hlist.
  destruct (save_state_async_indexed _ _ _ _ _ _ _ Hs Hne Hsave) as [Hin Hmeta].
  destruct (save_state_async_hash_fields _ _ _ _ _ _ Hsave)
    as (Hid & _ & Hidx & _ & _ & Hsaved & _).
  cbv zeta in Hid, Hidx, Hsaved.
  unfold dict_get_default in Hidx. rewrite Hn in Hidx.
  cbn [default from_option py_str] in Hidx. unfold id in Hidx.
  clear Hsave.
  apply list_executions_async_spec in Hlist as (sorted & -> & _ & Hentries & _).
  cbn [apply_limit].
  set (metadata := HGETALL (_make_metadata_key self i) db') in *.
  exists (list_entry i metadata n).
  destruct (list_entry_lookups i metadata n) as (He1 & He2 & He3 & He4).
  rewrite Hid in He1. rewrite Hmeta in He2. rewrite Hsaved in He4.
  split; [|split; [exact He1|split; [exact He2|split; [exact He3|exact He4]]]].
  apply Hentries. exists i. split.
  - destruct Hstatus as [[-> Hfree]| ->]; cbn [listed_ids].
    + apply scanned_ids_metadata; [exact Hfree|]. fold metadata in Hid. unfold metadata, HGETALL in Hid.
      destruct (kv_hashes db' !! _make_metadata_key self i); [by eexists|].
      cbn [default from_option] in Hid. by rewrite lookup_empty in Hid.
    + rewrite (proj2 (str_truthy_true s) Hne). exact Hin.
  - split.
    + fold metadata. intros Hempty. rewrite Hempty, lookup_empty in Hid. discriminate Hid.
    + exists n. split; [|reflexivity]. fold metadata.
      unfold step_index_of. rewrite Hidx. cbn [py_str]. rewrite Hint. reflexivity.
Qed.

Lemma delete_state_async_metadata_ids_ok self i db :
  metadata_ids_ok self db → metadata_ids_ok self (delete_state_async self i db).1.
Proof.
  intros Hok.
  destruct (delete_state_async_fst self i db) as [[e ->]|(db' & deleted & Hdel)];
    [exact Hok|].
  rewrite Hdel. cbn [fst]. intros j h.
  destruct (delete_state_async_effect self i db _ _ Hdel) as (_ & -> & _).
  intros [_ [_ Hj]%lookup_delete_Some]%lookup_delete_Some. by apply Hok.
Qed.

(** X10. A deleted execution is not listed, under any filter and limit and
    whatever the index sets still hold: on a store whose metadata hashes
    name their own identifier, no entry of a listing made after a
    [delete_state_async] that returned carries the deleted identifier. *)
Theorem deleted_execution_is_not_listed self i status limit db db' deleted res :
  metadata_ids_ok self db →
  delete_state_async self i db = (db', Ok deleted) →
  list_executions_async self status limit db' = Ok res →
  Forall (λ e, e !! "execution_id" ≠ Some (PStr i)) res.
Proof.
  intros Hok Hdel Hlist.
  apply (delete_state_async_metadata_ids_ok self i) in Hok.
  rewrite Hdel in Hok. cbn [fst] in Hok.
  destruct (delete_state_async_keys_gone self i db _ _ Hdel) as [_ Hgone].
  clear Hdel.
  apply key_exists_false in Hgone as (_ & Hgone & _).
  apply list_executions_async_spec in Hlist as (sorted & -> & _ & Hentries & _).
  apply Forall_forall. intros e He.
  assert (e ∈ sorted) as Hin.
  { eapply elem_of_prefix; [exact He|apply apply_limit_sublist]. }
  apply Hentries in Hin as (j & _ & Hne & n & _ & ->).
  destruct (list_entry_lookups j (HGETALL (_make_metadata_key self j) db') n)
    as (-> & _).
  unfold HGETALL in Hne |- *.
  destruct (kv_hashes db' !! _make_metadata_key self j) as [h|] eqn:Hj; [|done].
  cbn [default from_option]. unfold id. rewrite (Hok _ _ Hj). cbn [default from_option].
  intros [= ->]. rewrite Hgone in Hj. discriminate Hj.
Qed.


End listing_more.

(** ** Clearing and rebuilding the indexes *)

Section clearing_rebuilding.
Context `{PyLib}.
Implicit Types (self : RedisDurableStorage) (db : Redis).

Lemma clear_fold_strings self (l : list string) db K :
  kv_strings (foldl (λ db status,
                       (exec_command (DEL (_make_index_key self status)) db).1) db l) !! K =
    if bool_decide (K ∈ _make_index_key self <$> l) then None else kv_strings db !! K.
Proof.
  revert db. induction l as [|s l IH]; intros db; cbn [foldl fmap list_fmap].
  - by rewrite bool_decide_eq_false_2 by apply not_elem_of_nil.
  - rewrite IH. clear IH. cbn [exec_command fst kv_strings].
    destruct (decide (K ∈ _make_index_key self <$> l)) as [Hin|Hin].
    + rewrite !bool_decide_eq_true_2; [done | by right | done].
    + rewrite (bool_decide_eq_false_2 _ Hin).
      destruct (decide (K = _make_index_key self s)) as [->|Hne].
      * rewrite bool_decide_eq_true_2 by left. by rewrite lookup_delete_eq.
      * rewrite bool_decide_eq_false_2.
        -- by rewrite lookup_delete_ne.
        -- intros [?|?]%elem_of_cons; done.
Qed.

Lemma SMEMBERS_clear_all_indexes self db K :
  SMEMBERS K (clear_all_indexes self db) =
    if bool_decide (K ∈ _make_index_key self <$> statuses) then ∅ else SMEMBERS K db.
Proof.
  unfold SMEMBERS, clear_all_indexes.
  rewrite (proj2 (clear_fold_lookup self statuses db K)).
  by case_bool_decide.
Qed.

Lemma statuses_nonempty S : S ∈ statuses → S ≠ "".
Proof.
  intros HS ->. unfold statuses in HS.
  repeat (apply elem_of_cons in HS as [HS|HS]; [discriminate HS|]).
  by apply elem_of_nil in HS.
Qed.

Lemma apply_limit_nil {A} (limit : option Z) : apply_limit limit ([] : list A) = [].
Proof.
  unfold apply_limit, slice_to. destruct limit as [n|]; [|done].
  destruct (n =? 0); [done|]. destruct (0 <=? n); apply take_nil.
Qed.

(** X12. [clear_all_indexes] empties the index sets of the four statuses
    [running], [paused], [completed], [failed] and no other; it leaves every
    metadata hash, and the primary record of every identifier that does not
    begin with [meta:] or [index:].  Right after it a listing filtered by
    one of the four statuses is empty and a cleanup deletes nothing: it
    returns [0], or raises the [OverflowError] of a cutoff that is no
    date. *)
Theorem clear_all_indexes_effect self db :
  let db' := clear_all_indexes self db in
  (∀ S, S ∈ statuses → SMEMBERS (_make_index_key self S) db' = ∅) ∧
  (∀ S, S ∉ statuses →
        SMEMBERS (_make_index_key self S) db' = SMEMBERS (_make_index_key self S) db) ∧
  (∀ i, HGETALL (_make_metadata_key self i) db' = HGETALL (_make_metadata_key self i) db) ∧
  (∀ i, plain_id i →
        GET (_make_key self i) db' = GET (_make_key self i) db ∧
        load_state_async self i db' = load_state_async self i db) ∧
  (∀ S limit, S ∈ statuses →
        list_executions_async self (Some S) limit db' = Ok []) ∧
  (∀ older_than_days now,
        cleanup_old_executions_async self older_than_days now db' =
          (db', match cutoff_date_of now older_than_days with
                | Ok _ => Ok 0
                | Raise e => Raise e
                end)).
Proof.
  intros db'. subst db'.
  assert (∀ S, S ∈ statuses →
               SMEMBERS (_make_index_key self S) (clear_all_indexes self db) = ∅) as Hclear.
  { intros S HS. by apply clear_all_indexes_index. }
  split; [exact Hclear|]. split; [|split; [|split; [|split]]].
  - intros S HS. rewrite SMEMBERS_clear_all_indexes.
    rewrite bool_decide_eq_false_2; [done|].
    intros (S' & Heq & HS')%list_elem_of_fmap.
    apply _make_index_key_inj in Heq. by subst S'.
  - intros i. unfold HGETALL. by rewrite clear_all_indexes_metadata.
  - intros i Hi.
    assert (GET (_make_key self i) (clear_all_indexes self db) =
            GET (_make_key self i) db) as Hget.
    { unfold GET, clear_all_indexes. rewrite clear_fold_strings.
      rewrite bool_decide_eq_false_2; [done|].
      intros (S & Heq & _)%list_elem_of_fmap.
      by apply (plain_key_not_index_key self i S Hi). }
    split; [exact Hget|]. unfold load_state_async. by rewrite Hget.
  - intros S limit HS. unfold list_executions_async. cbn [listed_ids].
    rewrite (proj2 (str_truthy_true S) (statuses_nonempty S HS)).
    rewrite (Hclear S HS), elements_empty. cbn [fetch_entries].
    unfold sort_by_timestamp. cbn [length Nat.leb andb sort_desc foldr].
    by rewrite apply_limit_nil.
  - intros older_than_days now. unfold cleanup_old_executions_async.
    destruct (cutoff_date_of now older_than_days) as [cutoff|e]; [|reflexivity].
    cbn [cleanup_statuses fst snd].
    rewrite (Hclear "completed") by (unfold statuses; right; right; left).
    rewrite elements_empty. cbn [cleanup_ids fst snd].
    rewrite (Hclear "failed") by (unfold statuses; right; right; right; left).
    rewrite elements_empty. reflexivity.
Qed.

Lemma rebuild_step_strings self db k :
  kv_strings (rebuild_step self db k) = kv_strings db.
Proof.
  unfold rebuild_step.
  destruct (HGETALL k db !! "status"); [|done].
  destruct (HGETALL k db !! "execution_id"); [|done].
  by destruct (str_truthy _ && str_truthy _).
Qed.

Lemma rebuild_fold_strings self (ks : list string) db :
  kv_strings (foldl (rebuild_step self) db ks) = kv_strings db.
Proof.
  revert db. induction ks as [|k ks IH]; intros db; cbn [foldl]; [done|].
  by rewrite IH, rebuild_step_strings.
Qed.

Lemma rebuild_indexes_strings self db K :
  kv_strings (rebuild_indexes self db) !! K =
    if bool_decide (K ∈ _make_index_key self <$> statuses) then None
    else kv_strings db !! K.
Proof.
  unfold rebuild_indexes. cbv zeta. rewrite rebuild_fold_strings.
  unfold clear_all_indexes. apply clear_fold_strings.
Qed.

Lemma rebuild_indexes_hashes_lookup self db K :
  kv_hashes (rebuild_indexes self db) !! K =
    if bool_decide (K ∈ _make_index_key self <$> statuses) then None
    else kv_hashes db !! K.
Proof.
  unfold rebuild_indexes. cbv zeta. rewrite (proj1 (rebuild_fold_spec self _ _)).
  unfold clear_all_indexes. apply (clear_fold_lookup self statuses db K).
Qed.

Lemma HGETALL_lookup_Some k (db : Redis) f v :
  HGETALL k db !! f = Some v → is_Some (kv_hashes db !! k).
Proof.
  unfold HGETALL. destruct (kv_hashes db !! k); [by eexists|].
  cbn [default from_option]. by rewrite lookup_empty.
Qed.

(** The index sets after [rebuild_indexes]: what the four deletes leave,
    and one member for each scanned hash with a status and an identifier. *)
Lemma SMEMBERS_rebuild_indexes self db K x :
  x ∈ SMEMBERS K (rebuild_indexes self db) ↔
  (x ∈ SMEMBERS K db ∧ K ∉ _make_index_key self <$> statuses) ∨ rebuilt self db K x.
Proof.
  unfold rebuild_indexes. cbv zeta. rewrite (proj2 (rebuild_fold_spec self _ _)).
  rewrite SMEMBERS_clear_all_indexes.
  assert ((∃ k status,
             k ∈ scan_iter (prefix self +:+ "meta:*") (clear_all_indexes self db) ∧
             HGETALL k (clear_all_indexes self db) !! "status" = Some status ∧
             HGETALL k (clear_all_indexes self db) !! "execution_id" = Some x ∧
             status ≠ "" ∧ x ≠ "" ∧ K = _make_index_key self status)
          ↔ rebuilt self db K x) as ->.
  { unfold rebuilt. split.
    - intros (k & status & [Hk _]%elem_of_scan_iter & Hrest). by exists k, status.
    - intros (k & status & Hk & Hst & Hrest).
      exists k, status. split; [|by split].
      apply elem_of_scan_iter. split; [exact Hk|].
      apply elem_of_union_l, elem_of_union_r, elem_of_dom.
      by eapply HGETALL_lookup_Some. }
  case_bool_decide as Hin.
  - split; [intros [[]%not_elem_of_empty|?]; by right|].
    intros [[_ ?]|?]; [done|by right].
  - tauto.
Qed.

Lemma rebuilt_rebuild_indexes self db K x :
  rebuilt self (rebuild_indexes self db) K x ↔ rebuilt self db K x.
Proof.
  unfold rebuilt.
  assert (∀ k, HGETALL k (clear_all_indexes self (rebuild_indexes self db)) =
               HGETALL k (clear_all_indexes self db)) as Hsame.
  { intros k. unfold HGETALL. f_equal. unfold clear_all_indexes.
    rewrite !(proj1 (clear_fold_lookup self statuses _ k)).
    rewrite rebuild_indexes_hashes_lookup. by case_bool_decide. }
  by setoid_rewrite Hsame.
Qed.

(** X13. [rebuild_indexes] is idempotent: run a second time it leaves the
    strings, the hashes and the members of every set as the first run left
    them. *)
Theorem rebuild_indexes_idempotent self db :
  let db1 := rebuild_indexes self db in
  let db2 := rebuild_indexes self db1 in
  kv_strings db2 = kv_strings db1 ∧
  kv_hashes db2 = kv_hashes db1 ∧
  ∀ K, SMEMBERS K db2 = SMEMBERS K db1.
Proof.
  intros db1 db2. subst db1 db2. split; [|split].
  - apply map_eq. intros K. rewrite !rebuild_indexes_strings.
    by case_bool_decide.
  - apply map_eq. intros K. rewrite !rebuild_indexes_hashes_lookup.
    by case_bool_decide.
  - intros K. apply set_eq. intros x.
    rewrite !SMEMBERS_rebuild_indexes, rebuilt_rebuild_indexes. tauto.
Qed.

End clearing_rebuilding.

(** ** Rebuild and cleanup together *)

Section rebuild_cleanup.
Context `{PyLib}.
Implicit Types (self : RedisDurableStorage) (db : Redis).

Lemma HGETALL_rebuild_indexes self db i :
  HGETALL (_make_metadata_key self i) (rebuild_indexes self db) =
  HGETALL (_make_metadata_key self i) db.
Proof. unfold HGETALL. by rewrite rebuild_indexes_hashes. Qed.

(** Under a prefix without pattern characters, a member of one of the
    four index sets after [rebuild_indexes] has a metadata hash that
    reports the status of the set. *)
Lemma rebuild_indexes_member self db S x :
  glob_free (prefix self) = true →
  metadata_ids_ok self db → S ∈ statuses →
  x ∈ SMEMBERS (_make_index_key self S) (rebuild_indexes self db) →
  x ≠ "" ∧ HGETALL (_make_metadata_key self x) db !! "status" = Some S.
Proof.
  intros Hfree Hok HS
    [[_ Hnot]|(k & status & Hk & Hst & Hid & _ & Hx & Heq)]%SMEMBERS_rebuild_indexes.
  { destruct Hnot. by apply list_elem_of_fmap_2. }
  apply _make_index_key_inj in Heq as <-. split; [exact Hx|].
  rewrite (stringmatch_metadata _ _ Hfree) in Hk. apply prefix_split in Hk.
  rewrite string_app_assoc in Hk.
  set (i := string_drop _ k) in Hk.
  change (prefix self +:+ "meta:" +:+ i) with (_make_metadata_key self i) in Hk.
  clearbody i. subst k.
  unfold HGETALL in Hst, Hid. rewrite clear_all_indexes_metadata in Hst, Hid.
  fold (HGETALL (_make_metadata_key self i) db) in Hst, Hid.
  destruct (HGETALL_lookup_Some _ _ _ _ Hst) as [h Hh].
  unfold HGETALL in Hid. rewrite Hh in Hid. cbn [default from_option] in Hid.
  unfold id in Hid. rewrite (Hok _ _ Hh) in Hid. by injection Hid as ->.
Qed.

Lemma rebuild_indexes_member_of self db S x :
  glob_free (prefix self) = true →
  metadata_ids_ok self db → S ≠ "" → x ≠ "" →
  HGETALL (_make_metadata_key self x) db !! "status" = Some S →
  x ∈ SMEMBERS (_make_index_key self S) (rebuild_indexes self db).
Proof.
  intros Hfree Hok HS Hx Hst. apply SMEMBERS_rebuild_indexes. right.
  exists (_make_metadata_key self x), S.
  split.
  { rewrite (stringmatch_metadata _ _ Hfree).
    unfold _make_metadata_key. rewrite <- string_app_assoc. apply prefix_app. }
  unfold HGETALL. rewrite clear_all_indexes_metadata.
  fold (HGETALL (_make_metadata_key self x) db).
  split; [exact Hst|].
  destruct (HGETALL_lookup_Some _ _ _ _ Hst) as [h Hh].
  unfold HGETALL. rewrite Hh. cbn [default from_option]. unfold id.
  by rewrite (Hok _ _ Hh).
Qed.

(** X14. After [rebuild_indexes] the status filter of the listing filters:
    under a prefix without pattern characters, on a store whose metadata
    hashes name their own identifier, every entry listed for one of the
    four statuses has that status, whatever the index sets held before. *)
Theorem rebuild_indexes_then_list self S limit db res :
  glob_free (prefix self) = true →
  metadata_ids_ok self db → S ∈ statuses →
  list_executions_async self (Some S) limit (rebuild_indexes self db) = Ok res →
  Forall (λ e, e !! "status" = Some (PStr S)) res.
Proof.
  intros Hfree Hok HS (sorted & -> & _ & Hentries & _)%list_executions_async_spec.
  apply Forall_forall. intros e He.
  assert (e ∈ sorted) as Hin.
  { eapply elem_of_prefix; [exact He|apply apply_limit_sublist]. }
  apply Hentries in Hin as (i & Hi & _ & n & _ & ->).
  cbn [listed_ids] in Hi.
  rewrite (proj2 (str_truthy_true S) (statuses_nonempty S HS)) in Hi.
  apply (rebuild_indexes_member self db S i Hfree Hok HS) in Hi as [_ Hst].
  by rewrite list_entry_status, HGETALL_rebuild_indexes, Hst.
Qed.

Lemma cutoff_date_of_Ok now older_than_days cutoff :
  cutoff_date_of now older_than_days = Ok cutoff →
  cutoff = now - older_than_days * microseconds_per_day.
Proof.
  unfold cutoff_date_of. destruct (_ <=? _); [|done].
  destruct (_ && _); [|done]. by intros [= <-].
Qed.

(** X15. After [rebuild_indexes] the cleanup is exact.  Under a prefix
    without pattern characters, on a store whose metadata hashes name their
    own identifier, all of them non-empty and not beginning with [meta:] or
    [index:], where the payloads of the completed and failed executions
    load, a cleanup run after the rebuild for a cutoff that is a date
    returns; it removes exactly the executions whose metadata reports
    [completed] or [failed] with a timestamp that parses to an instant
    before the cutoff, returns their number and leaves every other record
    as it was. *)
Theorem rebuild_indexes_then_cleanup self older_than_days now db cutoff :
  glob_free (prefix self) = true →
  metadata_ids_ok self db →
  (∀ i, is_Some (kv_hashes db !! _make_metadata_key self i) → i ≠ "" ∧ plain_id i) →
  (∀ j, HGETALL (_make_metadata_key self j) db !! "status" = Some "completed" ∨
        HGETALL (_make_metadata_key self j) db !! "status" = Some "failed" →
        loads self db j) →
  cutoff_date_of now older_than_days = Ok cutoff →
  ∃ (D : gset string) cleaned_db,
    cleanup_old_executions_async self older_than_days now (rebuild_indexes self db) =
      (cleaned_db, Ok (Z.of_nat (size D))) ∧
    cutoff = now - older_than_days * microseconds_per_day ∧
    (∀ j, j ∈ D ↔
          (HGETALL (_make_metadata_key self j) db !! "status" = Some "completed" ∨
           HGETALL (_make_metadata_key self j) db !! "status" = Some "failed") ∧
          expired cutoff (HGETALL (_make_metadata_key self j) db) = true) ∧
    (∀ j, j ∈ D →
          load_state_async self j cleaned_db = Ok None ∧
          HGETALL (_make_metadata_key self j) cleaned_db = ∅) ∧
    (∀ j, j ∉ D → plain_id j →
          GET (_make_key self j) cleaned_db = GET (_make_key self j) db ∧
          HGETALL (_make_metadata_key self j) cleaned_db =
            HGETALL (_make_metadata_key self j) db).
Proof.
  intros Hfree Hok Hids Hloads Hcutoff.
  set (rebuilt_db := rebuild_indexes self db).
  assert (∀ S, S ∈ ["completed"; "failed"] → S ∈ statuses) as Hfour.
  { intros S HS. unfold statuses.
    apply elem_of_cons in HS as [->|HS]; [right; right; left|].
    apply elem_of_cons in HS as [->|HS]; [right; right; right; left|].
    apply elem_of_nil in HS. destruct HS. }
  assert (terminal_index_exact self rebuilt_db) as Hexact.
  { intros S HS i. pose proof (Hfour S HS) as HS4.
    unfold rebuilt_db. rewrite HGETALL_rebuild_indexes. split; [split|].
    - intros Hi. by apply (rebuild_indexes_member self db S i Hfree Hok HS4).
    - intros Hst. apply rebuild_indexes_member_of; [exact Hfree|exact Hok| | |exact Hst].
      + by apply statuses_nonempty.
      + by apply Hids, (HGETALL_lookup_Some _ _ _ _ Hst).
    - intros Hi.
      apply (rebuild_indexes_member self db S i Hfree Hok HS4) in Hi as [_ Hst].
      by apply Hids, (HGETALL_lookup_Some _ _ _ _ Hst). }
  assert (∀ j, plain_id j →
               kv_strings rebuilt_db !! _make_key self j =
               kv_strings db !! _make_key self j) as Hstrings.
  { intros j Hplain. unfold rebuilt_db. rewrite rebuild_indexes_strings.
    rewrite bool_decide_eq_false_2; [done|].
    intros (S & Heq & _)%list_elem_of_fmap.
    by apply (plain_key_not_index_key self j S Hplain). }
  destruct (cleanup_old_executions_async_exact self older_than_days now rebuilt_db
              cutoff Hexact Hcutoff) as (D & cleaned_db & Hrun & HD & Hgone & Hkeep).
  { intros S j HS Hj.
    pose proof (proj2 (Hexact S HS j) Hj) as Hplain.
    apply (rebuild_indexes_member self db S j Hfree Hok (Hfour S HS)) in Hj as [_ Hst].
    destruct (Hloads j) as [r Hr].
    { apply elem_of_cons in HS as [->|HS]; [by left|].
      apply elem_of_cons in HS as [->|HS]; [by right|].
      apply elem_of_nil in HS. destruct HS. }
    exists r. rewrite <- Hr. apply load_state_async_ext. by apply Hstrings. }
  exists D, cleaned_db. split; [exact Hrun|].
  split; [by apply cutoff_date_of_Ok|]. split; [|split; [exact Hgone|]].
  - intros j. rewrite HD. unfold rebuilt_db. by rewrite !HGETALL_rebuild_indexes.
  - intros j Hj Hplain. destruct (Hkeep j Hj Hplain) as [-> ->].
    unfold rebuilt_db. rewrite HGETALL_rebuild_indexes. split; [|done].
    unfold GET. by rewrite Hstrings.
Qed.

(** The inner loop of the cleanup deletes only identifiers of its list. *)
Lemma cleanup_ids_frame self cutoff (l : list string) db n :
  (∀ j, plain_id j → j ∉ l →
        kv_strings (cleanup_ids self cutoff l (db, n)).1 !! _make_key self j =
        kv_strings db !! _make_key self j) ∧
  (∀ K h, kv_hashes (cleanup_ids self cutoff l (db, n)).1 !! K = Some h →
          kv_hashes db !! K = Some h) ∧
  (∀ K x, x ∈ SMEMBERS K (cleanup_ids self cutoff l (db, n)).1 → x ∈ SMEMBERS K db) ∧
  (∀ m, (cleanup_ids self cutoff l (db, n)).2 = Ok m →
        n ≤ m ≤ n + Z.of_nat (length l)).
Proof.
  revert db n. induction l as [|i l IH]; intros db n.
  - cbn [cleanup_ids fst snd length].
    repeat split; try tauto; injection H0 as <-; lia.
  - rewrite cleanup_ids_cons. cbn [fst snd].
    assert ((∀ j, plain_id j → j ∉ i :: l →
               kv_strings (cleanup_ids self cutoff l (db, n)).1 !! _make_key self j =
               kv_strings db !! _make_key self j) ∧
            (∀ K h, kv_hashes (cleanup_ids self cutoff l (db, n)).1 !! K = Some h →
                    kv_hashes db !! K = Some h) ∧
            (∀ K x, x ∈ SMEMBERS K (cleanup_ids self cutoff l (db, n)).1 →
                    x ∈ SMEMBERS K db) ∧
            (∀ m, (cleanup_ids self cutoff l (db, n)).2 = Ok m →
                  n ≤ m ≤ n + Z.of_nat (length (i :: l)))) as Hpass.
    { destruct (IH db n) as (IHs & IHh & IHsub & IHn).
      split; [|split; [exact IHh|split; [exact IHsub|]]].
      - intros j Hj [_ Hjl]%not_elem_of_cons. by apply IHs.
      - intros m Hm%IHn. cbn [length]. lia. }
    destruct (expired cutoff (HGETALL (_make_metadata_key self i) db)); [|exact Hpass].
    destruct (delete_state_async_fst self i db) as [[e ->]|(db' & deleted & Hdel)].
    + destruct (skipped e); [exact Hpass|]. cbn [fst snd].
      split; [done|]. split; [done|]. split; [done|]. intros m [=].
    + rewrite Hdel.
      destruct (delete_state_async_effect self i db _ _ Hdel) as (Hs & Hh & Hsub & _).
      clear Hdel Hpass.
      destruct (IH db' (if deleted then n + 1 else n)) as (IHs & IHh & IHsub & IHn).
      split; [|split; [|split]].
      * intros j Hj [Hji Hjl]%not_elem_of_cons. rewrite (IHs j Hj Hjl), Hs.
        rewrite !lookup_delete_ne; [done| |].
        -- intros Heq. apply _make_key_inj in Heq. by apply Hji.
        -- intros Heq. by apply (plain_key_not_metadata_key self j i Hj).
      * intros K h Hk%IHh. rewrite Hh in Hk.
        by apply lookup_delete_Some in Hk as [_ [_ Hk]%lookup_delete_Some].
      * intros K x Hx. by apply Hsub, IHsub.
      * intros m Hm%IHn. cbn [length]. destruct deleted; lia.
Qed.

(** The two loops of the cleanup: it raises on a cutoff that is no date,
    with the server as it was, or runs the loop over the [completed] index
    and, when that returns, the loop over the [failed] index. *)
Lemma cleanup_old_executions_async_loops self older_than_days now db :
  (∃ e, cleanup_old_executions_async self older_than_days now db = (db, Raise e)) ∨
  (let cutoff := now - older_than_days * microseconds_per_day in
   let first :=
     cleanup_ids self cutoff
       (elements (SMEMBERS (_make_index_key self "completed") db)) (db, 0) in
   cleanup_old_executions_async self older_than_days now db =
     match first.2 with
     | Ok n1 =>
         cleanup_ids self cutoff
           (elements (SMEMBERS (_make_index_key self "failed") first.1)) (first.1, n1)
     | Raise e => (first.1, Raise e)
     end).
Proof.
  unfold cleanup_old_executions_async.
  destruct (cutoff_date_of now older_than_days) as [cutoff|e] eqn:Hcutoff;
    [|left; by exists e].
  right. cbv zeta. rewrite <- (cutoff_date_of_Ok _ _ _ Hcutoff).
  cbn [cleanup_statuses fst snd].
  destruct (cleanup_ids self cutoff _ (db, 0)) as [db1 [n1|e]]; cbn [fst snd]; [|done].
  by destruct (cleanup_ids self cutoff _ (db1, n1)) as [db2 [n2|e]].
Qed.

(** What the cleanup leaves alone, whether it returns or raises. *)
Lemma cleanup_old_executions_async_frame self older_than_days now db :
  let result := cleanup_old_executions_async self older_than_days now db in
  (∀ j, plain_id j →
        j ∉ SMEMBERS (_make_index_key self "completed") db →
        j ∉ SMEMBERS (_make_index_key self "failed") db →
        kv_strings result.1 !! _make_key self j = kv_strings db !! _make_key self j) ∧
  (∀ K h, kv_hashes result.1 !! K = Some h → kv_hashes db !! K = Some h) ∧
  (∀ K x, x ∈ SMEMBERS K result.1 → x ∈ SMEMBERS K db) ∧
  (∀ n, result.2 = Ok n →
        0 ≤ n ≤ SCARD (_make_index_key self "completed") db
                + SCARD (_make_index_key self "failed") db).
Proof.
  intros result. subst result.
  destruct (cleanup_old_executions_async_loops self older_than_days now db)
    as [[e ->]|Hrun].
  { cbn [fst snd]. split; [done|]. split; [done|]. split; [done|]. intros n [=]. }
  cbv zeta in Hrun. rewrite Hrun. clear Hrun.
  set (cutoff := now - older_than_days * microseconds_per_day).
  destruct (cleanup_ids_frame self cutoff
              (elements (SMEMBERS (_make_index_key self "completed") db)) db 0)
    as (Hs1 & Hh1 & Hsub1 & Hn1).
  destruct (cleanup_ids self cutoff
              (elements (SMEMBERS (_make_index_key self "completed") db)) (db, 0))
    as [db1 [n1|e]] eqn:Hloop1; cbn [fst snd] in *.
  - destruct (cleanup_ids_frame self cutoff
                (elements (SMEMBERS (_make_index_key self "failed") db1)) db1 n1)
      as (Hs2 & Hh2 & Hsub2 & Hn2).
    assert (size (SMEMBERS (_make_index_key self "failed") db1) ≤
            size (SMEMBERS (_make_index_key self "failed") db))%nat as Hsize.
    { apply subseteq_size. intros x. apply Hsub1. }
    split; [|split; [|split]].
    + intros j Hj Hc Hf. rewrite Hs2, Hs1; [done|exact Hj| |exact Hj|].
      * by rewrite elem_of_elements.
      * rewrite elem_of_elements. intros Hin. by apply Hf, Hsub1.
    + intros K h Hk. by apply Hh1, Hh2.
    + intros K x Hx. by apply Hsub1, Hsub2.
    + intros n Hn%Hn2. specialize (Hn1 n1 eq_refl).
      unfold SCARD. unfold size, set_size in *. cbn [compose] in *. lia.
  - split; [|split; [exact Hh1|split; [exact Hsub1|intros n [=]]]].
    intros j Hj Hc _. apply Hs1; [exact Hj|]. by rewrite elem_of_elements.
Qed.

(** X16. The cleanup deletes nothing outside the two terminal index sets,
    whether it returns or raises: the primary record of an identifier that
    is in neither the [completed] nor the [failed] index set is untouched;
    no index set gains a member; and a count returned is between [0] and
    the sum of the sizes of the two sets. *)
Theorem cleanup_touches_only_terminal_index self older_than_days now db :
  let result := cleanup_old_executions_async self older_than_days now db in
  (∀ j, plain_id j →
        j ∉ SMEMBERS (_make_index_key self "completed") db →
        j ∉ SMEMBERS (_make_index_key self "failed") db →
        GET (_make_key self j) result.1 = GET (_make_key self j) db ∧
        load_state_async self j result.1 = load_state_async self j db) ∧
  (∀ K x, x ∈ SMEMBERS K result.1 → x ∈ SMEMBERS K db) ∧
  (∀ n, result.2 = Ok n →
        0 ≤ n ≤ SCARD (_make_index_key self "completed") db
                + SCARD (_make_index_key self "failed") db).
Proof.
  intros result.
  destruct (cleanup_old_executions_async_frame self older_than_days now db)
    as (Hs & _ & Hsub & Hn).
  fold result in Hs, Hsub, Hn.
  split; [|split; [exact Hsub|exact Hn]].
  intros j Hj Hc Hf.
  assert (GET (_make_key self j) result.1 = GET (_make_key self j) db) as Hget.
  { unfold GET. by apply Hs. }
  split; [exact Hget|]. unfold load_state_async. by rewrite Hget.
Qed.

Lemma cleanup_old_executions_async_hashes self older_than_days now db K h :
  kv_hashes (cleanup_old_executions_async self older_than_days now db).1 !! K = Some h →
  kv_hashes db !! K = Some h.
Proof. apply (cleanup_old_executions_async_frame self older_than_days now db). Qed.

(** X17. Every operation of the storage keeps the metadata hashes named
    after their keys: if each hash carries in [execution_id] the identifier
    its key is made of, it does so after a save, a delete, a cleanup,
    [clear_all_indexes] and [rebuild_indexes]. *)
Theorem metadata_ids_ok_preserved self db :
  metadata_ids_ok self db →
  (∀ i state now db',
     save_state_async self i state now db = Ok db' → metadata_ids_ok self db') ∧
  (∀ i, metadata_ids_ok self (delete_state_async self i db).1) ∧
  (∀ older_than_days now,
     metadata_ids_ok self (cleanup_old_executions_async self older_than_days now db).1) ∧
  metadata_ids_ok self (clear_all_indexes self db) ∧
  metadata_ids_ok self (rebuild_indexes self db).
Proof.
  intros Hok. split; [|split; [|split; [|split]]].
  - intros i state now db' Hsave. by eapply save_state_async_metadata_ids_ok.
  - intros i. by apply delete_state_async_metadata_ids_ok.
  - intros older_than_days now j h Hj.
    by apply Hok, (cleanup_old_executions_async_hashes self older_than_days now).
  - intros j h. rewrite clear_all_indexes_metadata. apply Hok.
  - intros j h. rewrite rebuild_indexes_hashes. apply Hok.
Qed.

End rebuild_cleanup.

(** ** What the cleanup keeps *)

Section cleanup_keeps.
Context `{PyLib}.
Implicit Types (self : RedisDurableStorage) (db : Redis).

(** The inner loop of the cleanup passes over an identifier whose metadata
    is not expired, and the deletes of the others leave it alone. *)
Lemma cleanup_ids_keeps self cutoff i (l : list string) db n :
  plain_id i → (∀ j, j ∈ l → plain_id j) →
  expired cutoff (HGETALL (_make_metadata_key self i) db) = false →
  kv_strings (cleanup_ids self cutoff l (db, n)).1 !! _make_key self i =
    kv_strings db !! _make_key self i ∧
  kv_hashes (cleanup_ids self cutoff l (db, n)).1 !! _make_metadata_key self i =
    kv_hashes db !! _make_metadata_key self i ∧
  (∀ S, i ∈ SMEMBERS (_make_index_key self S) db →
        i ∈ SMEMBERS (_make_index_key self S) (cleanup_ids self cutoff l (db, n)).1).
Proof.
  intros Hi. revert db n. induction l as [|j l IH]; intros db n Hl Hexp.
  - cbn [cleanup_ids fst]. by repeat split.
  - rewrite cleanup_ids_cons. cbn [fst snd].
    assert (∀ j', j' ∈ l → plain_id j') as Hl' by (intros j' Hj'; apply Hl; by right).
    destruct (expired cutoff (HGETALL (_make_metadata_key self j) db)) eqn:Hj;
      [|by apply IH].
    assert (j ≠ i) as Hji by (intros ->; congruence).
    assert (plain_id j) as Hjp by (apply Hl; left).
    destruct (delete_state_async_fst self j db) as [[e ->]|(db' & deleted & Hdel)].
    { destruct (skipped e); [by apply IH|]. cbn [fst]. by repeat split. }
    rewrite Hdel.
    destruct (delete_state_async_effect self j db _ _ Hdel) as (Hs & Hh & _ & Hsup & _).
    clear Hdel.
    assert (kv_strings db' !! _make_key self i =
            kv_strings db !! _make_key self i) as Hs'.
    { rewrite Hs. rewrite !lookup_delete_ne; [done| |].
      - intros Heq. apply _make_key_inj in Heq. by apply Hji.
      - intros Heq. by apply (plain_key_not_metadata_key self i j Hi). }
    assert (kv_hashes db' !! _make_metadata_key self i =
            kv_hashes db !! _make_metadata_key self i) as Hh'.
    { rewrite Hh. rewrite !lookup_delete_ne; [done| |].
      - by apply plain_key_not_metadata_key.
      - intros Heq. apply _make_metadata_key_inj in Heq. by apply Hji. }
    destruct (IH db' (if deleted then n + 1 else n) Hl') as (IHs & IHh & IHsets).
    { unfold HGETALL. rewrite Hh'. exact Hexp. }
    split; [by rewrite IHs|]. split; [by rewrite IHh|].
    intros S HS. apply IHsets, Hsup; [exact HS| | |].
    + intros Heq. by apply (plain_key_not_index_key self j S Hjp).
    + intros Heq. by apply (metadata_key_not_index_key self j S).
    + intros Heq. by apply Hji.
Qed.

(** X30. The cleanup never deletes an execution whose metadata is not
    expired, whatever its status and whatever the index sets hold, and
    whether the cleanup returns or raises: if the metadata hash of an
    identifier has no timestamp, an empty one, one that does not parse, or
    one at or after the cutoff (or if there is no hash at all), then its
    primary record, its metadata hash and its index memberships are still
    there after the cleanup.  Identifiers are taken not to begin with
    [meta:] or [index:]. *)
Theorem cleanup_keeps_unexpired self older_than_days now db i :
  plain_id i →
  (∀ S j, S ∈ ["completed"; "failed"] →
          j ∈ SMEMBERS (_make_index_key self S) db → plain_id j) →
  expired (now - older_than_days * microseconds_per_day)
    (HGETALL (_make_metadata_key self i) db) = false →
  let cleaned_db := (cleanup_old_executions_async self older_than_days now db).1 in
  GET (_make_key self i) cleaned_db = GET (_make_key self i) db ∧
  load_state_async self i cleaned_db = load_state_async self i db ∧
  HGETALL (_make_metadata_key self i) cleaned_db =
    HGETALL (_make_metadata_key self i) db ∧
  (∀ S, i ∈ SMEMBERS (_make_index_key self S) db →
        i ∈ SMEMBERS (_make_index_key self S) cleaned_db).
Proof.
  intros Hi Hplain Hexp cleaned_db. subst cleaned_db.
  destruct (cleanup_old_executions_async_loops self older_than_days now db)
    as [[e ->]|Hrun]; [done|].
  cbv zeta in Hrun. rewrite Hrun. clear Hrun.
  set (cutoff := now - older_than_days * microseconds_per_day) in *.
  destruct (cleanup_ids_keeps self cutoff i
              (elements (SMEMBERS (_make_index_key self "completed") db)) db 0 Hi)
    as (Hs1 & Hh1 & Hsets1); [|exact Hexp|].
  { intros j Hj%elem_of_elements. apply (Hplain "completed"); [left|exact Hj]. }
  destruct (cleanup_ids_frame self cutoff
              (elements (SMEMBERS (_make_index_key self "completed") db)) db 0)
    as (_ & _ & Hsub1 & _).
  destruct (cleanup_ids self cutoff
              (elements (SMEMBERS (_make_index_key self "completed") db)) (db, 0))
    as [db1 [n1|e]]; cbn [fst snd] in *.
  - destruct (cleanup_ids_keeps self cutoff i
                (elements (SMEMBERS (_make_index_key self "failed") db1)) db1 n1 Hi)
      as (Hs2 & Hh2 & Hsets2).
    { intros j Hj%elem_of_elements. apply (Hplain "failed"); [right; left|].
      by apply Hsub1. }
    { unfold HGETALL. rewrite Hh1. exact Hexp. }
    assert (GET (_make_key self i)
              (cleanup_ids self cutoff
                 (elements (SMEMBERS (_make_index_key self "failed") db1)) (db1, n1)).1 =
            GET (_make_key self i) db) as Hget.
    { unfold GET. by rewrite Hs2, Hs1. }
    split; [exact Hget|]. split; [unfold load_state_async; by rewrite Hget|].
    split; [unfold HGETALL; by rewrite Hh2, Hh1|].
    intros S HS. by apply Hsets2, Hsets1.
  - assert (GET (_make_key self i) db1 = GET (_make_key self i) db) as Hget.
    { unfold GET. by rewrite Hs1. }
    split; [exact Hget|]. split; [unfold load_state_async; by rewrite Hget|].
    split; [unfold HGETALL; by rewrite Hh1|]. exact Hsets1.
Qed.

End cleanup_keeps.

(** ** Statistics and keys *)

Section statistics_and_keys.
Implicit Types (self : RedisDurableStorage) (db : Redis).







(** X19. The keys.  Each of the three key makers is injective and a
    metadata key is never an index key; the primary key of an identifier
    that does not begin with [meta:] or [index:] is neither a metadata key
    nor an index key.  The restriction is needed: the primary key of
    [meta:i] is the metadata key of [i], and that of [index:s] the index
    key of [s]. *)
Theorem key_families self :
  (∀ i j, _make_key self i = _make_key self j → i = j) ∧
  (∀ i j, _make_metadata_key self i = _make_metadata_key self j → i = j) ∧
  (∀ s t, _make_index_key self s = _make_index_key self t → s = t) ∧
  (∀ i s, _make_metadata_key self i ≠ _make_index_key self s) ∧
  (∀ i j, plain_id i →
          _make_key self i ≠ _make_metadata_key self j ∧
          _make_key self i ≠ _make_index_key self j) ∧
  (∀ i, _make_key self ("meta:" +:+ i) = _make_metadata_key self i) ∧
  (∀ s, _make_key self ("index:" +:+ s) = _make_index_key self s).
Proof.
  split; [apply _make_key_inj|]. split; [apply _make_metadata_key_inj|].
  split; [apply _make_index_key_inj|]. split; [apply metadata_key_not_index_key|].
  split; [|split; reflexivity].
  intros i j Hi. split.
  - by apply plain_key_not_metadata_key.
  - by apply plain_key_not_index_key.
Qed.

End statistics_and_keys.

(** ** Failures of the listing and of a save *)

Section failures.
Context `{PyLib}.
Implicit Types (self : RedisDurableStorage) (db : Redis).
Implicit Types (state : gmap string pyval).







(** X22. Which states a save accepts.  [json.dumps] comes first: when it
    refuses the stamped state the save raises its exception.  When it
    serialises the state, the save succeeds exactly for the states whose
    [status], [step_name], [timestamp] and [error] are each falsy or a
    value redis-py stores (a [str], an [int], a [float]), and raises
    [DataError] otherwise; in particular it raises [DataError] when one of
    the four is [True] or a non-empty list or dict.  In every case of a
    raise the server is left as it was, the save having no result. *)
Theorem save_state_async_accepts self i state now db :
  (∀ c, json_dumps (stamp i now state) = Unencodable c →
        save_state_async self i state now db = Raise (exn_of c)) ∧
  (∀ payload, json_dumps (stamp i now state) = Encoded payload →
     (saveable state ↔ ∃ db', save_state_async self i state now db = Ok db') ∧
     (¬ saveable state ↔ save_state_async self i state now db = Raise DataError) ∧
     (∀ f v, f ∈ ["status"; "step_name"; "timestamp"; "error"] →
             state !! f = Some v → truthy v = true → redis_encode v = None →
             save_state_async self i state now db = Raise DataError)) ∧
  ((∃ db', save_state_async self i state now db = Ok db') ↔
   saveable state ∧ ∃ payload, json_dumps (stamp i now state) = Encoded payload).
Proof.
  split; [|split].
  - intros c Hdumps. by apply save_state_async_unencodable.
  - intros payload Hdumps.
    assert (saveable state ↔ ∃ db', save_state_async self i state now db = Ok db')
      as Hiff.
    { split; [by apply (save_state_async_saveable self i state now db payload)|].
      intros [db' Hsave]. by eapply save_state_async_saveable_inv. }
    assert (¬ saveable state ↔ save_state_async self i state now db = Raise DataError)
      as Hnot.
    { rewrite Hiff. destruct (save_state_async self i state now db) as [db'|e] eqn:Hsave.
      - split; [intros []; by eexists|done].
      - apply save_state_async_Raise in Hsave
          as [(c & Hc & _)|(payload' & _ & _ & ->)]; [congruence|].
        split; [done|]. by intros _ [? ?]. }
    split; [exact Hiff|]. split; [exact Hnot|].
    intros f v Hf Hfv Htruthy Henc. apply Hnot. intros (Hs & Hn & Ht & He).
    assert (storable v = false) as Hv.
    { unfold storable. rewrite Htruthy, Henc. cbn [negb orb].
      apply bool_decide_eq_false. by intros [? ?]. }
    pose proof (dict_get_Some _ _ _ Hfv) as Hget.
    repeat (apply elem_of_cons in Hf as [->|Hf]; [congruence|]).
    apply elem_of_nil in Hf. destruct Hf.
  - split.
    + intros [db' Hsave]. split; [by eapply save_state_async_saveable_inv|].
      apply save_state_async_Ok in Hsave as (payload & _ & Hdumps & _). by exists payload.
    + intros [Hsaveable [payload Hdumps]].
      by apply (save_state_async_saveable self i state now db payload).
Qed.

End failures.

(** ** What the manager reports *)

Section manager_reports.
Context `{PyLib}.
Implicit Types (self : DurableExecution) (db : Redis).
Implicit Types (state : gmap string pyval).

(** The report for a record that is there. *)
Lemma get_execution_info_async_loaded self db state :
  load_state_async (storage self) (execution_id self) db = Ok (Some state) →
  state ≠ ∅ →
  ∃ info,
    _get_execution_info_async self db = (db, Ok (Some info)) ∧
    dom info = metadata_fields ∧
    info !! "execution_id" = Some (PStr (execution_id self)) ∧
    ∀ f, f ∈ ["status"; "step_index"; "step_name"; "timestamp"; "saved_at"; "error"] →
         info !! f = Some (dict_get state f).
Proof.
  intros Hload Hne. unfold _get_execution_info_async.
  rewrite Hload, (proj2 (dict_truthy_true _) Hne). clear Hload Hne.
  eexists. split; [reflexivity|]. split; [|split].
  - rewrite !dom_insert_L, dom_empty_L. unfold metadata_fields.
    apply set_eq. intros x. rewrite !elem_of_union, !elem_of_singleton.
    rewrite elem_of_empty. tauto.
  - apply lookup_insert_eq.
  - intros f Hf.
    apply elem_of_cons in Hf as [->|Hf].
    { rewrite lookup_insert_ne by done. apply lookup_insert_eq. }
    apply elem_of_cons in Hf as [->|Hf].
    { do 2 (rewrite lookup_insert_ne by done). apply lookup_insert_eq. }
    apply elem_of_cons in Hf as [->|Hf].
    { do 3 (rewrite lookup_insert_ne by done). apply lookup_insert_eq. }
    apply elem_of_cons in Hf as [->|Hf].
    { do 4 (rewrite lookup_insert_ne by done). apply lookup_insert_eq. }
    apply elem_of_cons in Hf as [->|Hf].
    { do 5 (rewrite lookup_insert_ne by done). apply lookup_insert_eq. }
    apply elem_of_cons in Hf as [->|Hf].
    { do 6 (rewrite lookup_insert_ne by done). apply lookup_insert_eq. }
    apply elem_of_nil in Hf. destruct Hf.
Qed.

(** X23. [_get_execution_info_async] writes nothing; it returns [None] when
    there is no record to load and raises what the load raises; after a
    save (with a codec that round-trips) it returns a dict of the seven
    fields with the manager's identifier, the time of the save, and the
    state's own [status], [step_index], [step_name], [timestamp] and
    [error] ([None] where the state has none). *)
Theorem get_execution_info_async_reports self db :
  (_get_execution_info_async self db).1 = db ∧
  (load_state_async (storage self) (execution_id self) db = Ok None →
   _get_execution_info_async self db = (db, Ok None)) ∧
  (∀ e, load_state_async (storage self) (execution_id self) db = Raise e →
   _get_execution_info_async self db = (db, Raise e)) ∧
  (∀ state now db0,
     save_state_async (storage self) (execution_id self) state now db0 = Ok db →
     round_trips (stamp (execution_id self) now state) →
     ∃ info,
       _get_execution_info_async self db = (db, Ok (Some info)) ∧
       dom info = metadata_fields ∧
       info !! "execution_id" = Some (PStr (execution_id self)) ∧
       info !! "saved_at" = Some (PStr now) ∧
       ∀ f, f ∈ ["status"; "step_index"; "step_name"; "timestamp"; "error"] →
            info !! f = Some (dict_get state f)).
Proof.
  split; [|split; [|split]].
  - unfold _get_execution_info_async.
    destruct (load_state_async _ _ db) as [[state|]|e]; [|done|done].
    by destruct (dict_truthy state).
  - intros Hload. unfold _get_execution_info_async. by rewrite Hload.
  - intros e Hload. unfold _get_execution_info_async. by rewrite Hload.
  - intros state now db0 Hsave Hrt.
    pose proof (load_after_save_round_trips _ _ _ _ _ _ Hsave Hrt) as Hload.
    clear Hsave Hrt.
    destruct (get_execution_info_async_loaded self db _ Hload (stamp_nonempty _ _ _))
      as (info & Hinfo & Hdom & Hid & Hfields).
    exists info. split; [exact Hinfo|]. split; [exact Hdom|]. split; [exact Hid|].
    split.
    + rewrite (Hfields "saved_at") by (do 4 right; left).
      unfold dict_get, stamp. rewrite lookup_insert_ne, lookup_insert_eq by done.
      reflexivity.
    + intros f Hf. rewrite <- (dict_get_stamp (execution_id self) now state f).
      * apply Hfields.
        repeat (apply elem_of_cons in Hf as [->|Hf];
                [first [left | right; left | do 2 right; left | do 3 right; left
                       | do 5 right; left]|]).
        apply elem_of_nil in Hf. destruct Hf.
      * intros ->.
        repeat (apply elem_of_cons in Hf as [Hf|Hf]; [discriminate Hf|]).
        apply elem_of_nil in Hf. destruct Hf.
      * intros ->.
        repeat (apply elem_of_cons in Hf as [Hf|Hf]; [discriminate Hf|]).
        apply elem_of_nil in Hf. destruct Hf.
Qed.

(** X24. [mark_failed_async] on a record in place shows everywhere: the
    metadata hash reports [failed] and the message, the identifier is in
    the [failed] index set, and [_get_execution_info_async] reports
    [failed] and the message. *)
Theorem mark_failed_async_visible self error now db state :
  load_state_async (storage self) (execution_id self) db = Ok (Some state) →
  state ≠ ∅ → saveable state →
  let failed := <["error" := PStr error]> (<["status" := PStr "failed"]> state) in
  round_trips (stamp (execution_id self) now failed) →
  ∃ db' info,
    mark_failed_async self error now db = (db', Ok tt) ∧
    HGETALL (_make_metadata_key (storage self) (execution_id self)) db' !! "status" =
      Some "failed" ∧
    HGETALL (_make_metadata_key (storage self) (execution_id self)) db' !! "error" =
      Some error ∧
    execution_id self ∈ SMEMBERS (_make_index_key (storage self) "failed") db' ∧
    _get_execution_info_async self db' = (db', Ok (Some info)) ∧
    info !! "status" = Some (PStr "failed") ∧
    info !! "error" = Some (PStr error).
Proof.
  intros Hload Hne Hsaveable failed Hrt.
  destruct Hrt as (payload & Hdumps & Hloads).
  destruct (save_state_async_saveable (storage self) (execution_id self) failed now db
              payload Hdumps) as [db' Hsave].
  { by apply saveable_insert_error, saveable_insert_status. }
  assert (round_trips (stamp (execution_id self) now failed)) as Hrt
    by (by exists payload).
  clear payload Hdumps Hloads.
  assert (mark_failed_async self error now db = (db', Ok tt)) as Hmark.
  { unfold mark_failed_async.
    rewrite Hload, (proj2 (dict_truthy_true _) Hne). fold failed. by rewrite Hsave. }
  assert (failed !! "status" = Some (PStr "failed")) as Hstatus.
  { unfold failed. rewrite lookup_insert_ne by done. apply lookup_insert_eq. }
  assert (failed !! "error" = Some (PStr error)) as Herror.
  { unfold failed. apply lookup_insert_eq. }
  assert ("failed" ≠ "") as Hne' by discriminate.
  destruct (save_state_async_indexed _ _ _ _ _ _ _ Hstatus Hne' Hsave) as [Hin Hmeta].
  destruct (save_state_async_hash_fields _ _ _ _ _ _ Hsave) as (_ & _ & _ & _ & _ & _ & Herr).
  cbv zeta in Herr. rewrite (dict_get_Some _ _ _ Herror) in Herr.
  pose proof (load_after_save_round_trips _ _ _ _ _ _ Hsave Hrt) as Hload'.
  clear Hsave Hrt.
  destruct (get_execution_info_async_loaded self db' _ Hload' (stamp_nonempty _ _ _))
    as (info & Hinfo & _ & _ & Hfields).
  exists db', info.
  split; [exact Hmark|]. split; [exact Hmeta|]. split.
  { rewrite Herr. unfold py_or. cbn [truthy].
    destruct (String.eqb_spec error "") as [->|_]; reflexivity. }
  split; [exact Hin|]. split; [exact Hinfo|]. split.
  - rewrite (Hfields "status") by left.
    rewrite dict_get_stamp by done. by rewrite (dict_get_Some _ _ _ Hstatus).
  - rewrite (Hfields "error") by (do 5 right; left).
    rewrite dict_get_stamp by done. by rewrite (dict_get_Some _ _ _ Herror).
Qed.

(** X25. [mark_completed_async] on a record in place.  With auto-cleanup
    the metadata hash is gone, [_get_execution_info_async] returns [None]
    and the identifier is out of the index set of the status the record
    carried.  Without it the metadata hash reports [completed], the
    identifier is in the [completed] index set and
    [_get_execution_info_async] reports [completed]. *)
Theorem mark_completed_async_visible self now db state :
  load_state_async (storage self) (execution_id self) db = Ok (Some state) →
  state ≠ ∅ → saveable state →
  let completed := <["status" := PStr "completed"]> state in
  let key := _make_metadata_key (storage self) (execution_id self) in
  (auto_cleanup self = true →
   let db' := (mark_completed_async self now db).1 in
   HGETALL key db' = ∅ ∧
   _get_execution_info_async self db' = (db', Ok None) ∧
   execution_id self ∉
     SMEMBERS (_make_index_key (storage self)
                 (py_str (dict_get_default state "status" (PStr "running")))) db') ∧
  (auto_cleanup self = false →
   round_trips (stamp (execution_id self) now completed) →
   ∃ db' info,
     mark_completed_async self now db = (db', Ok tt) ∧
     HGETALL key db' !! "status" = Some "completed" ∧
     execution_id self ∈ SMEMBERS (_make_index_key (storage self) "completed") db' ∧
     _get_execution_info_async self db' = (db', Ok (Some info)) ∧
     info !! "status" = Some (PStr "completed")).
Proof.
  intros Hload Hne Hsaveable completed key. subst key. split.
  - intros Hauto db'. subst db'. unfold mark_completed_async. rewrite Hauto.
    destruct (proj1 (delete_state_async_returns _ _ _) (ex_intro _ _ Hload))
      as (db' & deleted & Hdel).
    pose proof (delete_state_async_loaded _ _ _ _ Hload Hne) as Hloaded.
    rewrite Hdel in Hloaded |- *. cbn [fst] in Hloaded |- *.
    destruct (delete_state_async_keys_gone (storage self) (execution_id self) db
                _ _ Hdel) as [_ Hm].
    apply key_exists_false in Hm as (_ & Hmh & _).
    split; [unfold HGETALL; by rewrite Hmh|]. split.
    + unfold _get_execution_info_async.
      by rewrite (load_after_delete _ _ _ _ _ Hdel).
    + rewrite Hloaded.
      rewrite SMEMBERS_SREM. intros [_ Hnot]. by apply Hnot.
  - intros Hauto Hrt.
    destruct Hrt as (payload & Hdumps & Hloads).
    destruct (save_state_async_saveable (storage self) (execution_id self) completed now db
                payload Hdumps) as [db' Hsave].
    { by apply saveable_insert_status. }
    assert (round_trips (stamp (execution_id self) now completed)) as Hrt
      by (by exists payload).
    clear payload Hdumps Hloads.
    assert (mark_completed_async self now db = (db', Ok tt)) as Hmark.
    { unfold mark_completed_async.
      rewrite Hauto, Hload, (proj2 (dict_truthy_true _) Hne). fold completed.
      by rewrite Hsave. }
    assert (completed !! "status" = Some (PStr "completed")) as Hstatus.
    { unfold completed. apply lookup_insert_eq. }
    assert ("completed" ≠ "") as Hne' by discriminate.
    destruct (save_state_async_indexed _ _ _ _ _ _ _ Hstatus Hne' Hsave) as [Hin Hmeta].
    pose proof (load_after_save_round_trips _ _ _ _ _ _ Hsave Hrt) as Hload'.
    clear Hsave Hrt.
    destruct (get_execution_info_async_loaded self db' _ Hload' (stamp_nonempty _ _ _))
      as (info & Hinfo & _ & _ & Hfields).
    exists db', info.
    split; [exact Hmark|]. split; [exact Hmeta|]. split; [exact Hin|].
    split; [exact Hinfo|].
    rewrite (Hfields "status") by left.
    rewrite dict_get_stamp by done. by rewrite (dict_get_Some _ _ _ Hstatus).
Qed.

End manager_reports.

(** ** Checkpoints, rehydration and the wrappers off a running loop *)

Section manager_rest.
Context `{PyLib} {Task Context Checkpoint : Type}.
Context `{!DurableStateSerializer Task Context Checkpoint}.
Implicit Types (self : DurableExecution) (db : Redis).
Implicit Types (state : gmap string pyval).

(** X26. A checkpoint saved is the checkpoint loaded.  When
    [save_checkpoint_async] returns it has saved the serialised state under
    the manager's identifier, and (with a codec that round-trips)
    [load_checkpoint_async] then returns the deserialisation of that state,
    stamped with [saved_at] and [execution_id].  When it raises it has
    written nothing, and it raises what [json.dumps] raises on the stamped
    state or else, the state not being saveable, [DataError].  It returns
    for every serialised state that [json.dumps] serialises and that is
    saveable. *)
Theorem save_checkpoint_async_then_load self (task : Task) (context : Context)
    (step_index : Z) (step_name status : string) (error : option string)
    (agent_state : option (gmap string pyval)) (now : string) db :
  let state :=
    serialize_state task context step_index step_name status error agent_state in
  let saved := stamp (execution_id self) now state in
  let save :=
    save_checkpoint_async self task context step_index step_name status error
      agent_state now in
  (∀ db', save db = (db', Ok tt) →
          save_state_async (storage self) (execution_id self) state now db = Ok db' ∧
          (round_trips saved →
           load_checkpoint_async self db' = (db', Ok (Some (deserialize_state saved))))) ∧
  (∀ e db', save db = (db', Raise e) →
            db' = db ∧
            ((∃ c, json_dumps saved = Unencodable c ∧ e = exn_of c) ∨
             ((∃ payload, json_dumps saved = Encoded payload) ∧
              ¬ saveable state ∧ e = DataError))) ∧
  (∀ c, json_dumps saved = Unencodable c → save db = (db, Raise (exn_of c))) ∧
  (∀ payload, json_dumps saved = Encoded payload → saveable state →
              ∃ db', save db = (db', Ok tt)).
Proof.
  intros state saved save. subst save. unfold save_checkpoint_async. fold state.
  split; [|split; [|split]].
  - intros db'.
    destruct (save_state_async _ _ state now db) as [db1|e] eqn:Hsave; [|done].
    intros [= <-]. split; [reflexivity|]. intros Hrt.
    unfold load_checkpoint_async.
    by rewrite (load_after_save_round_trips _ _ _ _ _ _ Hsave Hrt).
  - intros e db'.
    destruct (save_state_async _ _ state now db) as [db1|e'] eqn:Hsave; [done|].
    intros [= <- <-]. split; [reflexivity|].
    apply save_state_async_Raise in Hsave
      as [(c & Hc & ->)|(payload & Hdumps & Henc & ->)].
    + left. by exists c.
    + right. split; [by exists payload|]. split; [|reflexivity].
      intros [mapping Hm]%(encode_mapping_saveable (execution_id self) state now).
      congruence.
  - intros c Hdumps.
    by rewrite (save_state_async_unencodable _ _ _ _ _ _ Hdumps).
  - intros payload Hdumps Hsaveable.
    destruct (save_state_async_saveable (storage self) (execution_id self) state now db
                payload Hdumps Hsaveable) as [db' ->].
    by exists db'.
Qed.

(** X27. [load_by_id_async] for a non-empty identifier returns [None] when
    no record loads, raises what the load raises, and otherwise returns the
    manager the constructor builds for that storage and identifier with
    auto-cleanup off; so [mark_completed_async] on that manager never
    deletes: the primary record is still there afterwards. *)
Theorem load_by_id_async_manager (i : string) (st : RedisDurableStorage)
    (utcnow uuid4 now : string) db :
  i ≠ "" →
  (load_state_async st i db = Ok None →
   load_by_id_async i st utcnow uuid4 db = (db, Ok None)) ∧
  (∀ e, load_state_async st i db = Raise e →
   load_by_id_async i st utcnow uuid4 db = (db, Raise e)) ∧
  (∀ state, load_state_async st i db = Ok (Some state) →
     let m := DurableExecution__init__ st (Some i) false false utcnow uuid4 in
     load_by_id_async i st utcnow uuid4 db = (db, Ok (Some m)) ∧
     storage m = st ∧ execution_id m = i ∧ auto_cleanup m = false ∧
     is_Some (GET (_make_key st i) (mark_completed_async m now db).1)).
Proof.
  intros Hi. split; [|split].
  - intros Hload. unfold load_by_id_async. by rewrite Hload.
  - intros e Hload. unfold load_by_id_async. by rewrite Hload.
  - intros state Hload m.
    split; [unfold load_by_id_async; by rewrite Hload|].
    assert (m = {| storage := st; execution_id := i;
                   auto_cleanup := false; debug := false |}) as ->.
    { unfold m, DurableExecution__init__.
      by rewrite (proj2 (str_truthy_true i) Hi). }
    split; [reflexivity|]. split; [reflexivity|]. split; [reflexivity|].
    assert (is_Some (GET (_make_key st i) db)) as Hget.
    { unfold load_state_async in Hload. destruct (GET (_make_key st i) db); [by eexists|done]. }
    unfold mark_completed_async. cbn [auto_cleanup storage execution_id].
    rewrite Hload. destruct (dict_truthy state); [|exact Hget].
    destruct (save_state_async st i _ now db) as [db'|e] eqn:Hsave; [|exact Hget].
    cbn [fst]. apply save_state_async_Ok in Hsave as (payload & mapping & _ & _ & Hs & _).
    unfold GET. rewrite Hs, lookup_insert_eq. by eexists.
Qed.

Lemma substring_length (n : nat) (s : string) :
  String.length (String.substring 0 n s) = Nat.min n (String.length s).
Proof.
  revert s. induction n as [|n IH]; intros s; [by destruct s|].
  destruct s as [|c s]; [done|]. cbn [String.substring String.length Nat.min].
  by rewrite IH.
Qed.

(** X28. The identifier of a manager is never empty: it is the one given
    when that is non-empty, and a generated one when none or the empty
    string is given.  A generated identifier is the timestamp, a hyphen and
    the first eight characters of the UUID, so 23 characters for a
    14-digit timestamp; beginning with a digit, it begins with neither
    [meta:] nor [index:].  The constructor keeps the storage and the two
    flags. *)
Theorem DurableExecution_identifier (st : RedisDurableStorage) (supplied : option string)
    (auto dbg : bool) (utcnow uuid4 : string) :
  let m := DurableExecution__init__ st supplied auto dbg utcnow uuid4 in
  let generated := _generate_execution_id utcnow uuid4 in
  execution_id m ≠ "" ∧
  (∀ i, supplied = Some i → i ≠ "" → execution_id m = i) ∧
  (supplied = None ∨ supplied = Some "" → execution_id m = generated) ∧
  String.length generated =
    (String.length utcnow + 1 + Nat.min 8 (String.length uuid4))%nat ∧
  (∀ d rest, utcnow = String d rest → is_Some (digit_of d) → plain_id generated) ∧
  storage m = st ∧ auto_cleanup m = auto ∧ debug m = dbg.
Proof.
  intros m generated.
  assert (generated ≠ "") as Hgen.
  { unfold generated, _generate_execution_id. intros Heq.
    apply (f_equal String.length) in Heq. rewrite !string_length_app in Heq.
    cbn [String.length] in Heq. lia. }
  split; [|split; [|split; [|split; [|split]]]].
  - unfold m, DurableExecution__init__. cbn [execution_id].
    destruct supplied as [i|]; [|exact Hgen].
    destruct (str_truthy i) eqn:Hi; [by apply str_truthy_true|exact Hgen].
  - intros i -> Hi. unfold m, DurableExecution__init__. cbn [execution_id].
    by rewrite (proj2 (str_truthy_true i) Hi).
  - intros [->| ->]; reflexivity.
  - unfold generated, _generate_execution_id. rewrite !string_length_app.
    rewrite substring_length. cbn [String.length]. lia.
  - intros d rest -> [n Hd]. unfold generated, _generate_execution_id.
    rewrite string_app_cons. unfold plain_id. cbn [String.prefix].
    split.
    + destruct (ascii_dec "m" d) as [<-|]; [|reflexivity]. discriminate Hd.
    + destruct (ascii_dec "i" d) as [<-|]; [|reflexivity]. discriminate Hd.
  - done.
Qed.

(** X29. Off a running event loop (an idle loop, or no loop at all) each
    synchronous wrapper does what its coroutine does: [load_checkpoint],
    [get_execution_info], [load_by_id], [save_checkpoint], [mark_completed]
    and [mark_failed] run their coroutine to completion and return, or
    raise, what it returns or raises. *)
Theorem sync_wrappers_off_running_loop self (task : Task) (context : Context)
    (step_index : Z) (step_name status : string) (error : option string)
    (agent_state : option (gmap string pyval)) (message now utcnow uuid4 : string)
    (ctx : event_loop) db :
  ctx ≠ LoopRunning →
  load_checkpoint self ctx db = run_coroutine (load_checkpoint_async self) db ∧
  get_execution_info self ctx db = run_coroutine (_get_execution_info_async self) db ∧
  load_by_id (execution_id self) (storage self) utcnow uuid4 ctx db =
    run_coroutine
      (load_by_id_async (execution_id self) (storage self) utcnow uuid4) db ∧
  save_checkpoint self task context step_index step_name status error agent_state
      now ctx db =
    run_coroutine (save_checkpoint_async self task context step_index step_name status
                     error agent_state now) db ∧
  mark_completed self now ctx db = run_coroutine (mark_completed_async self now) db ∧
  mark_failed self message now ctx db =
    run_coroutine (mark_failed_async self message now) db.
Proof.
  intros Hctx.
  assert (∀ c msg, exn_of c ≠ RuntimeError msg) as Hconv by (by intros []).
  assert (∀ (st : RedisDurableStorage) (i : string) state (t : string) (d : Redis)
            msg db',
            match save_state_async st i state t d with
            | Ok db1 => (db1, Ok tt)
            | Raise e => (d, Raise e)
            end ≠ (db', Raise (RuntimeError msg))) as Hsave.
  { intros st i state t d msg db'.
    destruct (save_state_async st i state t d) as [db1|e] eqn:Hs; [done|].
    apply save_state_async_Raise in Hs as [(c & _ & ->)|(payload & _ & _ & ->)];
      [|done].
    intros [= _ Heq]. by apply Hconv in Heq. }
  assert (∀ (st : RedisDurableStorage) (i : string) (d : Redis) msg,
            load_state_async st i d ≠ Raise (RuntimeError msg)) as Hload.
  { intros st i d msg. unfold load_state_async.
    destruct (GET _ d) as [text|]; [|done].
    destruct (json_loads text) as [state| |c]; [done|done|].
    intros [= Heq]. by apply Hconv in Heq. }
  split; [|split; [|split; [|split; [|split]]]].
  - apply sync_wrappers_off_loop; [exact Hctx|]. intros msg db'.
    unfold load_checkpoint_async. pose proof (Hload (storage self) (execution_id self) db msg).
    destruct (load_state_async _ _ db) as [[state|]|e]; [done|done|]. congruence.
  - apply sync_wrappers_off_loop; [exact Hctx|]. intros msg db'.
    unfold _get_execution_info_async.
    pose proof (Hload (storage self) (execution_id self) db msg).
    destruct (load_state_async _ _ db) as [[state|]|e]; [|done|congruence].
    by destruct (dict_truthy state).
  - apply sync_wrappers_off_loop; [exact Hctx|]. intros msg db'.
    unfold load_by_id_async.
    pose proof (Hload (storage self) (execution_id self) db msg).
    destruct (load_state_async _ _ db) as [[state|]|e]; [done|done|]. congruence.
  - apply sync_wrappers_off_loop; [exact Hctx|]. intros msg db'.
    unfold save_checkpoint_async. apply Hsave.
  - apply sync_wrappers_off_loop; [exact Hctx|]. intros msg db'.
    unfold mark_completed_async.
    pose proof (Hload (storage self) (execution_id self) db msg) as Hl.
    destruct (auto_cleanup self).
    + destruct (delete_state_async_cases (storage self) (execution_id self) db)
        as [(db1 & deleted & ->)|(e & He & ->)]; [done|].
      congruence.
    + destruct (load_state_async _ _ db) as [[state|]|e]; [|done|congruence].
      destruct (dict_truthy state); [|done]. apply Hsave.
  - apply sync_wrappers_off_loop; [exact Hctx|]. intros msg db'.
    unfold mark_failed_async.
    pose proof (Hload (storage self) (execution_id self) db msg).
    destruct (load_state_async _ _ db) as [[state|]|e]; [|done|congruence].
    destruct (dict_truthy state); [|done]. apply Hsave.
Qed.

End manager_rest.

(** ** Instances of the further statements *)

Lemma ex_plain_job1 : plain_id "job-1".
Proof. split; reflexivity. Qed.

Lemma ex_plain_job2 : plain_id "job-2".
Proof. split; reflexivity. Qed.

Lemma ex_db2_saved :
  @save_state_async ref_pylib ex_storage "job-2" ex_done ex_t2 ex_db1 = Ok ex_db2.
Proof. decide_by_computation. Qed.

Lemma ex_db1_metadata_ids_ok : metadata_ids_ok ex_storage ex_db1.
Proof.
  apply (@save_state_async_metadata_ids_ok ref_pylib ex_storage "job-1" ex_running ex_t1
           redis_empty); [apply metadata_ids_ok_empty|exact ex_db1_saved].
Qed.

Lemma ex_db2_metadata_ids_ok : metadata_ids_ok ex_storage ex_db2.
Proof.
  apply (@save_state_async_metadata_ids_ok ref_pylib ex_storage "job-2" ex_done ex_t2
           ex_db1); [exact ex_db1_metadata_ids_ok|exact ex_db2_saved].
Qed.

Lemma ex_db1_index_exact : index_exact ex_storage ex_db1.
Proof.
  apply (@save_state_async_index_exact ref_pylib ex_storage "job-1" ex_running ex_t1
           redis_empty ex_db1 "running");
    [apply index_exact_empty|reflexivity|discriminate| |exact ex_db1_saved].
  intros s0 Hs0. vm_compute in Hs0. discriminate Hs0.
Qed.

Lemma ex_round_trips (state : gmap string pyval) :
  forallb (λ kv, serialisable kv.2) (map_to_list state) = true →
  @round_trips ref_pylib state.
Proof. apply ref_codec_roundtrip. Qed.

Lemma ex_foreign_load :
  @load_state_async ref_pylib ex_storage "job-1" ex_foreign_db = Raise TypeError.
Proof. decide_by_computation. Qed.

(** [delete_state_async_removes] on [ex_db2], where the delete of [job-2]
    returns, and on [ex_foreign_db], where the delete of [job-1] raises. *)
Lemma delete_state_async_removes_witness :
  ∃ db',
    @delete_state_async ref_pylib ex_storage "job-2" ex_db2 = (db', Ok true) ∧
    is_Some (GET (_make_key ex_storage "job-2") ex_db2) ∧
    GET (_make_key ex_storage "job-2") db' = None ∧
    @load_state_async ref_pylib ex_storage "job-2" db' = Ok None ∧
    HGETALL (_make_metadata_key ex_storage "job-2") db' = ∅ ∧
    "job-2" ∈ SMEMBERS (_make_index_key ex_storage "completed") ex_db2 ∧
    ("job-2" ∉ SMEMBERS (_make_index_key ex_storage "completed") db') ∧
    @delete_state_async ref_pylib ex_storage "job-1" ex_foreign_db =
      (ex_foreign_db, Raise TypeError).
Proof.
  exists (@delete_state_async ref_pylib ex_storage "job-2" ex_db2).1.
  assert (@delete_state_async ref_pylib ex_storage "job-2" ex_db2 =
          ((@delete_state_async ref_pylib ex_storage "job-2" ex_db2).1, Ok true)) as Hdel
    by decide_by_computation.
  destruct (@delete_state_async_removes ref_pylib ex_storage "job-2" ex_db2)
    as (Hgone & _ & _).
  destruct (Hgone _ _ Hdel) as (Hget & Hload & Hhash & Hindex & _ & _).
  destruct (@delete_state_async_removes ref_pylib ex_storage "job-1" ex_foreign_db)
    as (_ & _ & Hraise).
  split; [exact Hdel|]. split; [decide_by_computation|]. split; [exact Hget|].
  split; [exact Hload|]. split; [exact Hhash|]. split; [decide_by_computation|].
  split; [|exact (Hraise _ ex_foreign_load)].
  assert (@load_state_async ref_pylib ex_storage "job-2" ex_db2 =
          Ok (Some (stamp "job-2" ex_t2 ex_done))) as Hloaded by decide_by_computation.
  exact (Hindex _ Hloaded (stamp_nonempty _ _ _)).
Defined.

Lemma save_state_async_frame_witness :
  plain_id "job-2" ∧
  @save_state_async ref_pylib ex_storage "job-2" ex_done ex_t2 ex_db1 = Ok ex_db2 ∧
  "job-1" ≠ "job-2" ∧ plain_id "job-1" ∧
  @load_state_async ref_pylib ex_storage "job-1" ex_db2 =
    @load_state_async ref_pylib ex_storage "job-1" ex_db1 ∧
  HGETALL (_make_metadata_key ex_storage "job-1") ex_db2 =
    HGETALL (_make_metadata_key ex_storage "job-1") ex_db1.
Proof.
  assert ("job-1" ≠ "job-2") as Hne by discriminate.
  destruct (@save_state_async_frame ref_pylib ex_storage "job-2" ex_done ex_t2
              ex_db1 ex_db2 ex_plain_job2 ex_db2_saved) as [Hframe _].
  destruct (Hframe "job-1" Hne ex_plain_job1) as (_ & Hload & Hhash).
  split; [exact ex_plain_job2|]. split; [exact ex_db2_saved|]. split; [exact Hne|].
  split; [exact ex_plain_job1|]. split; [exact Hload|exact Hhash].
Defined.

Lemma save_state_async_metadata_witness :
  let h := HGETALL (_make_metadata_key ex_storage "job-1") ex_db1 in
  @save_state_async ref_pylib ex_storage "job-1" ex_running ex_t1 redis_empty = Ok ex_db1 ∧
  h !! "execution_id" = Some "job-1" ∧
  h !! "saved_at" = Some ex_t1 ∧
  h !! "step_index" = Some "1" ∧
  h !! "status" = Some "running" ∧
  h !! "error" = Some "".
Proof.
  cbv zeta.
  destruct (@save_state_async_metadata ref_pylib ex_storage "job-1" ex_running ex_t1
              redis_empty ex_db1 ex_db1_saved)
    as (_ & Hid & Hsaved & Hidx & _ & Hfield & _ & _ & _ & Herr).
  split; [exact ex_db1_saved|]. split; [exact Hid|]. split; [exact Hsaved|].
  split; [exact (Hidx 1 eq_refl)|]. split.
  - apply (Hfield "status" "running"); [left|reflexivity|discriminate].
  - apply Herr. reflexivity.
Defined.

Lemma save_then_delete_restores_witness :
  key_exists (_make_key ex_storage "job-1") redis_empty = false ∧
  key_exists (_make_metadata_key ex_storage "job-1") redis_empty = false ∧
  @save_state_async ref_pylib ex_storage "job-1" ex_running ex_t1 redis_empty = Ok ex_db1 ∧
  (@delete_state_async ref_pylib ex_storage "job-1" ex_db1).2 = Ok true ∧
  kv_strings (@delete_state_async ref_pylib ex_storage "job-1" ex_db1).1 = ∅ ∧
  kv_hashes (@delete_state_async ref_pylib ex_storage "job-1" ex_db1).1 = ∅.
Proof.
  assert (key_exists (_make_key ex_storage "job-1") redis_empty = false) as Hk
    by reflexivity.
  assert (key_exists (_make_metadata_key ex_storage "job-1") redis_empty = false) as Hm
    by reflexivity.
  assert (@round_trips ref_pylib (stamp "job-1" ex_t1 ex_running)) as Hrt
    by (apply ex_round_trips; decide_by_computation).
  destruct (@save_then_delete_restores ref_pylib ex_storage "job-1" ex_running ex_t1
              redis_empty ex_db1 Hk Hm Hrt ex_db1_saved)
    as (Hret & Hs & Hh & _).
  split; [exact Hk|]. split; [exact Hm|]. split; [exact ex_db1_saved|].
  split; [exact Hret|]. split; [exact Hs|exact Hh].
Defined.

Lemma delete_leaves_other_executions_witness :
  "job-1" ≠ "job-2" ∧ plain_id "job-2" ∧ plain_id "job-1" ∧
  @load_state_async ref_pylib ex_storage "job-1"
     (@delete_state_async ref_pylib ex_storage "job-2" ex_db2).1 =
    @load_state_async ref_pylib ex_storage "job-1" ex_db2 ∧
  ("job-1" ∈ SMEMBERS (_make_index_key ex_storage "running")
               (@delete_state_async ref_pylib ex_storage "job-2" ex_db2).1 ↔
   "job-1" ∈ SMEMBERS (_make_index_key ex_storage "running") ex_db2).
Proof.
  assert ("job-1" ≠ "job-2") as Hne by discriminate.
  destruct (@delete_leaves_other_executions ref_pylib ex_storage "job-2" "job-1" ex_db2
              Hne ex_plain_job2 ex_plain_job1) as (_ & Hload & _ & Hindex).
  split; [exact Hne|]. split; [exact ex_plain_job2|]. split; [exact ex_plain_job1|].
  split; [exact Hload|exact (Hindex "running")].
Defined.

Lemma delete_state_async_index_exact_witness :
  index_exact ex_storage ex_db1 ∧ plain_id "job-1" ∧
  index_exact ex_storage (@delete_state_async ref_pylib ex_storage "job-1" ex_db1).1.
Proof.
  split; [exact ex_db1_index_exact|]. split; [exact ex_plain_job1|].
  apply (@delete_state_async_index_exact ref_pylib ex_storage "job-1" ex_db1
           ex_db1_index_exact ex_plain_job1).
  intros s Hs. exists (stamp "job-1" ex_t1 ex_running).
  split; [exact ex_db1_load|]. split; [apply stamp_nonempty|].
  vm_compute in Hs. injection Hs as <-. reflexivity.
Defined.

Lemma ex_listing2_listed :
  @list_executions_async ref_pylib ex_storage None None ex_db2 = Ok ex_listing2.
Proof. decide_by_computation. Qed.

Lemma list_executions_async_unfiltered_witness :
  @list_executions_async ref_pylib ex_storage None None ex_db2 = Ok ex_listing2 ∧
  length ex_listing2 = 2%nat ∧
  StronglySorted desc ex_listing2 ∧
  Forall (λ e, dom e = metadata_fields) ex_listing2.
Proof.
  destruct (@list_executions_async_unfiltered ref_pylib ex_storage None ex_db2 ex_listing2
              eq_refl (or_introl eq_refl) ex_listing2_listed)
    as (_ & Hsorted & Hdom & Hlen).
  split; [exact ex_listing2_listed|]. split; [|split; [exact Hsorted|exact Hdom]].
  rewrite Hlen. decide_by_computation.
Defined.

Lemma saved_execution_is_listed_witness :
  ex_done !! "status" = Some (PStr "completed") ∧
  ex_done !! "step_index" = Some (PInt 1) ∧
  ref_int (pretty (1 : Z)) = Some 1 ∧
  @save_state_async ref_pylib ex_storage "job-2" ex_done ex_t2 ex_db1 = Ok ex_db2 ∧
  @list_executions_async ref_pylib ex_storage None None ex_db2 = Ok ex_listing2 ∧
  ∃ e, e ∈ ex_listing2 ∧
       e !! "execution_id" = Some (PStr "job-2") ∧
       e !! "status" = Some (PStr "completed") ∧
       e !! "step_index" = Some (PInt 1) ∧
       e !! "saved_at" = Some (PStr ex_t2).
Proof.
  assert (ex_done !! "status" = Some (PStr "completed")) as Hs by reflexivity.
  assert (ex_done !! "step_index" = Some (PInt 1)) as Hn by reflexivity.
  assert (ref_int (pretty (1 : Z)) = Some 1) as Hint by reflexivity.
  assert ("completed" ≠ "") as Hne by discriminate.
  split; [exact Hs|]. split; [exact Hn|]. split; [exact Hint|].
  split; [exact ex_db2_saved|]. split; [exact ex_listing2_listed|].
  exact (@saved_execution_is_listed ref_pylib ex_storage "job-2" ex_done ex_t2
           ex_db1 ex_db2 "completed" 1 None ex_listing2 Hs Hne Hn Hint ex_db2_saved
           (or_introl (conj eq_refl eq_refl)) ex_listing2_listed).
Defined.

Lemma deleted_execution_is_not_listed_witness :
  let db' := (@delete_state_async ref_pylib ex_storage "job-2" ex_db2).1 in
  metadata_ids_ok ex_storage ex_db2 ∧
  @delete_state_async ref_pylib ex_storage "job-2" ex_db2 = (db', Ok true) ∧
  @list_executions_async ref_pylib ex_storage None None db' = Ok ex_listing_deleted ∧
  length ex_listing_deleted = 1%nat ∧
  Forall (λ e, e !! "execution_id" ≠ Some (PStr "job-2")) ex_listing_deleted.
Proof.
  cbv zeta.
  assert (@delete_state_async ref_pylib ex_storage "job-2" ex_db2 =
          ((@delete_state_async ref_pylib ex_storage "job-2" ex_db2).1, Ok true)) as Hdel
    by decide_by_computation.
  assert (@list_executions_async ref_pylib ex_storage None None
            (@delete_state_async ref_pylib ex_storage "job-2" ex_db2).1 =
          Ok ex_listing_deleted) as Hlist by decide_by_computation.
  split; [exact ex_db2_metadata_ids_ok|]. split; [exact Hdel|]. split; [exact Hlist|].
  split; [decide_by_computation|].
  exact (@deleted_execution_is_not_listed ref_pylib ex_storage "job-2" None None ex_db2
           _ _ ex_listing_deleted ex_db2_metadata_ids_ok Hdel Hlist).
Defined.


(** [rebuild_indexes_then_list] after the two saves of
    [ex_saves_completed]: the listing for [completed] holds the one
    execution, the listing for [running], where it was as well before the
    rebuild, is empty. *)
Lemma rebuild_indexes_then_list_witness :
  let db := ex_db ex_saves_completed in
  glob_free (prefix ex_storage) = true ∧
  metadata_ids_ok ex_storage db ∧
  "completed" ∈ statuses ∧
  "job-1" ∈ SMEMBERS (_make_index_key ex_storage "running") db ∧
  @list_executions_async ref_pylib ex_storage (Some "running") None
     (rebuild_indexes ex_storage db) = Ok [] ∧
  ∃ e, @list_executions_async ref_pylib ex_storage (Some "completed") None
         (rebuild_indexes ex_storage db) = Ok [e] ∧
       e !! "execution_id" = Some (PStr "job-1") ∧
       e !! "status" = Some (PStr "completed").
Proof.
  cbv zeta.
  assert (metadata_ids_ok ex_storage (ex_db ex_saves_completed)) as Hok.
  { apply (@save_all_metadata_ids_ok ref_pylib ex_storage ex_saves_completed redis_empty).
    - apply metadata_ids_ok_empty.
    - decide_by_computation. }
  assert ("completed" ∈ statuses) as Hin by (unfold statuses; right; right; left).
  set (e := list_entry "job-1"
              (HGETALL (_make_metadata_key ex_storage "job-1")
                 (rebuild_indexes ex_storage (ex_db ex_saves_completed))) 1).
  assert (@list_executions_async ref_pylib ex_storage (Some "completed") None
            (rebuild_indexes ex_storage (ex_db ex_saves_completed)) = Ok [e]) as Hlist
    by decide_by_computation.
  pose proof (@rebuild_indexes_then_list ref_pylib ex_storage "completed" None
                (ex_db ex_saves_completed) [e] eq_refl Hok Hin Hlist) as Hall.
  split; [reflexivity|]. split; [exact Hok|]. split; [exact Hin|].
  split; [decide_by_computation|]. split; [decide_by_computation|].
  exists e. split; [exact Hlist|]. split; [decide_by_computation|].
  exact (Forall_inv Hall).
Defined.

Lemma ex_population_hashes i :
  is_Some (kv_hashes (ex_db ex_population) !! _make_metadata_key ex_storage i) →
  i ≠ "" ∧ plain_id i.
Proof.
  intros Hi%elem_of_dom.
  assert (dom (kv_hashes (ex_db ex_population)) =
          {[_make_metadata_key ex_storage "job-run";
            _make_metadata_key ex_storage "job-done";
            _make_metadata_key ex_storage "job-new";
            _make_metadata_key ex_storage "job-bad";
            _make_metadata_key ex_storage "job-fail"]}) as Hdom by decide_by_computation.
  rewrite Hdom in Hi. clear Hdom.
  rewrite !elem_of_union, !elem_of_singleton in Hi.
  destruct Hi as [[[[Hi|Hi]|Hi]|Hi]|Hi];
    apply _make_metadata_key_inj in Hi as ->;
    (split; [discriminate|split; reflexivity]).
Qed.

(** [rebuild_indexes_then_cleanup] on [ex_population], seven days, at
    [ex_now]: the two old terminal records go, the count is two, the
    running record stays. *)
Lemma rebuild_indexes_then_cleanup_witness :
  let db := ex_db ex_population in
  glob_free (prefix ex_storage) = true ∧
  metadata_ids_ok ex_storage db ∧
  (∀ i, is_Some (kv_hashes db !! _make_metadata_key ex_storage i) → i ≠ "" ∧ plain_id i) ∧
  @payloads_load ref_pylib db ∧
  cutoff_date_of ex_now 7 = Ok 1703462400000000 ∧
  ∃ cleaned_db,
    @cleanup_old_executions_async ref_pylib ex_storage 7 ex_now
       (rebuild_indexes ex_storage db) = (cleaned_db, Ok 2) ∧
    @load_state_async ref_pylib ex_storage "job-done" cleaned_db = Ok None ∧
    @load_state_async ref_pylib ex_storage "job-fail" cleaned_db = Ok None ∧
    GET (_make_key ex_storage "job-run") cleaned_db =
      GET (_make_key ex_storage "job-run") db ∧
    GET (_make_key ex_storage "job-bad") cleaned_db =
      GET (_make_key ex_storage "job-bad") db.
Proof.
  cbv zeta.
  assert (metadata_ids_ok ex_storage (ex_db ex_population)) as Hok.
  { apply (@save_all_metadata_ids_ok ref_pylib ex_storage ex_population redis_empty).
    - apply metadata_ids_ok_empty.
    - decide_by_computation. }
  assert (@payloads_load ref_pylib (ex_db ex_population)) as Hpayloads
    by decide_by_computation.
  split; [reflexivity|]. split; [exact Hok|]. split; [exact ex_population_hashes|].
  split; [exact Hpayloads|]. split; [reflexivity|].
  destruct (@rebuild_indexes_then_cleanup ref_pylib ex_storage 7 ex_now
              (ex_db ex_population) 1703462400000000 eq_refl Hok ex_population_hashes
              (λ j _, @loads_of_payloads ref_pylib ex_storage _ j Hpayloads) eq_refl)
    as (D & cleaned_db & Hrun & _ & HD & Hgone & Hkeep).
  assert ("job-done" ∈ D) as Hdone.
  { apply HD. split; [left; decide_by_computation|decide_by_computation]. }
  assert ("job-fail" ∈ D) as Hfail.
  { apply HD. split; [right; decide_by_computation|decide_by_computation]. }
  assert ("job-run" ∉ D) as Hrunning.
  { intros [[Hst|Hst] _]%HD; vm_compute in Hst; discriminate Hst. }
  assert ("job-bad" ∉ D) as Hbad.
  { intros [_ Hexp]%HD. vm_compute in Hexp. discriminate Hexp. }
  exists cleaned_db. split.
  - rewrite Hrun. do 2 f_equal.
    assert (@cleanup_old_executions_async ref_pylib ex_storage 7 ex_now
              (rebuild_indexes ex_storage (ex_db ex_population)) =
            ((@cleanup_old_executions_async ref_pylib ex_storage 7 ex_now
                (rebuild_indexes ex_storage (ex_db ex_population))).1, Ok 2)) as Hcount
      by decide_by_computation.
    rewrite Hrun in Hcount. cbn [fst] in Hcount.
    apply (f_equal snd) in Hcount. cbn [snd] in Hcount. by apply Ok_inj in Hcount.
  - split; [exact (proj1 (Hgone _ Hdone))|]. split; [exact (proj1 (Hgone _ Hfail))|].
    split.
    + exact (proj1 (Hkeep _ Hrunning ltac:(split; reflexivity))).
    + exact (proj1 (Hkeep _ Hbad ltac:(split; reflexivity))).
Defined.

Lemma metadata_ids_ok_preserved_witness :
  metadata_ids_ok ex_storage ex_db1 ∧
  metadata_ids_ok ex_storage ex_db2 ∧
  metadata_ids_ok ex_storage (rebuild_indexes ex_storage ex_db1) ∧
  metadata_ids_ok ex_storage
    (@cleanup_old_executions_async ref_pylib ex_storage 7 ex_now ex_db1).1.
Proof.
  destruct (@metadata_ids_ok_preserved ref_pylib ex_storage ex_db1 ex_db1_metadata_ids_ok)
    as (Hsave & _ & Hcleanup & _ & Hrebuild).
  split; [exact ex_db1_metadata_ids_ok|].
  split; [exact (Hsave _ _ _ _ ex_db2_saved)|].
  split; [exact Hrebuild|exact (Hcleanup 7 ex_now)].
Defined.

Lemma load_by_id_async_manager_witness :
  "job-1" ≠ "" ∧
  @load_state_async ref_pylib ex_storage "job-1" ex_db1 =
    Ok (Some (stamp "job-1" ex_t1 ex_running)) ∧
  @load_by_id_async ref_pylib "job-1" ex_storage "20200101000005"
     "0f8fad5b-d9cb-469f-a165-70867728950e" ex_db1 =
    (ex_db1, Ok (Some (ex_manager false))) ∧
  is_Some (GET (_make_key ex_storage "job-1")
             (@mark_completed_async ref_pylib (ex_manager false) ex_t3 ex_db1).1) ∧
  @load_by_id_async ref_pylib "job-2" ex_storage "20200101000005"
     "0f8fad5b-d9cb-469f-a165-70867728950e" ex_db1 = (ex_db1, Ok None) ∧
  @load_by_id_async ref_pylib "job-1" ex_storage "20200101000005"
     "0f8fad5b-d9cb-469f-a165-70867728950e" ex_foreign_db =
    (ex_foreign_db, Raise TypeError).
Proof.
  assert ("job-1" ≠ "") as Hne1 by discriminate.
  assert ("job-2" ≠ "") as Hne2 by discriminate.
  destruct (@load_by_id_async_manager ref_pylib "job-1" ex_storage "20200101000005"
              "0f8fad5b-d9cb-469f-a165-70867728950e" ex_t3 ex_db1 Hne1)
    as (_ & _ & Hsome).
  destruct (Hsome _ ex_db1_load) as (Hload & _ & _ & _ & Hkept).
  destruct (@load_by_id_async_manager ref_pylib "job-2" ex_storage "20200101000005"
              "0f8fad5b-d9cb-469f-a165-70867728950e" ex_t3 ex_db1 Hne2) as (Hnone & _).
  destruct (@load_by_id_async_manager ref_pylib "job-1" ex_storage "20200101000005"
              "0f8fad5b-d9cb-469f-a165-70867728950e" ex_t3 ex_foreign_db Hne1)
    as (_ & Hraise & _).
  split; [exact Hne1|]. split; [exact ex_db1_load|]. split; [exact Hload|].
  split; [exact Hkept|]. split; [apply Hnone; reflexivity|].
  exact (Hraise _ ex_foreign_load).
Defined.

Lemma sync_wrappers_off_running_loop_witness :
  LoopIdle ≠ LoopRunning ∧ NoCurrentLoop ≠ LoopRunning ∧
  @load_checkpoint ref_pylib unit unit _ ref_serializer (ex_manager false) LoopIdle ex_db1 =
    Returned (Some (stamp "job-1" ex_t1 ex_running)) ex_db1 ∧
  @mark_failed ref_pylib (ex_manager false) "timeout" ex_t3 NoCurrentLoop redis_empty =
    Returned tt redis_empty ∧
  @load_checkpoint ref_pylib unit unit _ ref_serializer (ex_manager false) LoopIdle
     ex_foreign_db = Failed TypeError ex_foreign_db.
Proof.
  assert (LoopIdle ≠ LoopRunning) as Hidle by discriminate.
  assert (NoCurrentLoop ≠ LoopRunning) as Hnone by discriminate.
  destruct (@sync_wrappers_off_running_loop ref_pylib unit unit _ ref_serializer
              (ex_manager false) tt tt 0 "fetch" "running" None None "timeout" ex_t3
              "20200101000005" "0f8fad5b-d9cb-469f-a165-70867728950e"
              LoopIdle ex_db1 Hidle) as (Hload & _).
  destruct (@sync_wrappers_off_running_loop ref_pylib unit unit _ ref_serializer
              (ex_manager false) tt tt 0 "fetch" "running" None None "timeout" ex_t3
              "20200101000005" "0f8fad5b-d9cb-469f-a165-70867728950e"
              NoCurrentLoop redis_empty Hnone) as (_ & _ & _ & _ & _ & Hfail).
  destruct (@sync_wrappers_off_running_loop ref_pylib unit unit _ ref_serializer
              (ex_manager false) tt tt 0 "fetch" "running" None None "timeout" ex_t3
              "20200101000005" "0f8fad5b-d9cb-469f-a165-70867728950e"
              LoopIdle ex_foreign_db Hidle) as (Hforeign & _).
  split; [exact Hidle|]. split; [exact Hnone|]. split; [|split].
  - rewrite Hload. unfold run_coroutine, load_checkpoint_async.
    cbn [storage execution_id ex_manager]. rewrite ex_db1_load. reflexivity.
  - rewrite Hfail. reflexivity.
  - rewrite Hforeign. unfold run_coroutine, load_checkpoint_async.
    cbn [storage execution_id ex_manager]. rewrite ex_foreign_load. reflexivity.
Defined.



Lemma mark_failed_async_visible_witness :
  let state := stamp "job-1" ex_t1 ex_running in
  @load_state_async ref_pylib ex_storage "job-1" ex_db1 = Ok (Some state) ∧
  state ≠ ∅ ∧ saveable state ∧
  ∃ db' info,
    @mark_failed_async ref_pylib (ex_manager false) "timeout" ex_t3 ex_db1 = (db', Ok tt) ∧
    HGETALL (_make_metadata_key ex_storage "job-1") db' !! "status" = Some "failed" ∧
    HGETALL (_make_metadata_key ex_storage "job-1") db' !! "error" = Some "timeout" ∧
    "job-1" ∈ SMEMBERS (_make_index_key ex_storage "failed") db' ∧
    @_get_execution_info_async ref_pylib (ex_manager false) db' = (db', Ok (Some info)) ∧
    info !! "status" = Some (PStr "failed") ∧
    info !! "error" = Some (PStr "timeout").
Proof.
  cbv zeta.
  split; [exact ex_db1_load|]. split; [apply stamp_nonempty|].
  split; [exact ex_running_saveable|].
  refine (@mark_failed_async_visible ref_pylib (ex_manager false) "timeout" ex_t3 ex_db1 _
            ex_db1_load (stamp_nonempty _ _ _) ex_running_saveable _).
  apply ex_round_trips. decide_by_computation.
Defined.

Lemma mark_completed_async_visible_witness :
  let state := stamp "job-1" ex_t1 ex_running in
  @load_state_async ref_pylib ex_storage "job-1" ex_db1 = Ok (Some state) ∧
  state ≠ ∅ ∧ saveable state ∧
  @_get_execution_info_async ref_pylib (ex_manager true)
     (@mark_completed_async ref_pylib (ex_manager true) ex_t3 ex_db1).1 =
    ((@mark_completed_async ref_pylib (ex_manager true) ex_t3 ex_db1).1, Ok None) ∧
  ∃ db' info,
    @mark_completed_async ref_pylib (ex_manager false) ex_t3 ex_db1 = (db', Ok tt) ∧
    HGETALL (_make_metadata_key ex_storage "job-1") db' !! "status" = Some "completed" ∧
    "job-1" ∈ SMEMBERS (_make_index_key ex_storage "completed") db' ∧
    @_get_execution_info_async ref_pylib (ex_manager false) db' = (db', Ok (Some info)) ∧
    info !! "status" = Some (PStr "completed").
Proof.
  cbv zeta.
  split; [exact ex_db1_load|]. split; [apply stamp_nonempty|].
  split; [exact ex_running_saveable|]. split.
  - destruct (proj1 (@mark_completed_async_visible ref_pylib (ex_manager true) ex_t3 ex_db1 _
                       ex_db1_load (stamp_nonempty _ _ _) ex_running_saveable) eq_refl)
      as (_ & Hinfo & _).
    exact Hinfo.
  - refine (proj2 (@mark_completed_async_visible ref_pylib (ex_manager false) ex_t3 ex_db1
                     _ ex_db1_load (stamp_nonempty _ _ _) ex_running_saveable)
              eq_refl _).
    apply ex_round_trips. decide_by_computation.
Defined.

Lemma ex_population_saved :
  @save_all ref_pylib ex_storage ex_population redis_empty = Ok (ex_db ex_population).
Proof. decide_by_computation. Qed.

Lemma ex_population_plain S j :
  j ∈ SMEMBERS (_make_index_key ex_storage S) (ex_db ex_population) → plain_id j.
Proof.
  apply (@save_all_index_members ref_pylib ex_storage plain_id ex_population redis_empty);
    [| |exact ex_population_saved].
  - intros K x Hx. unfold SMEMBERS in Hx. cbn [redis_empty kv_sets] in Hx.
    rewrite lookup_empty in Hx. cbn [default from_option] in Hx.
    destruct (not_elem_of_empty (C := gset string) _ Hx).
  - unfold ex_population. repeat (constructor; [split; reflexivity|]). constructor.
Qed.

Lemma cleanup_keeps_unexpired_witness :
  let db := ex_db ex_population in
  let cleaned_db := (@cleanup_old_executions_async ref_pylib ex_storage 7 ex_now db).1 in
  plain_id "job-bad" ∧
  @expired ref_pylib (ex_now - 7 * microseconds_per_day)
    (HGETALL (_make_metadata_key ex_storage "job-bad") db) = false ∧
  "job-bad" ∈ SMEMBERS (_make_index_key ex_storage "failed") db ∧
  @load_state_async ref_pylib ex_storage "job-bad" cleaned_db =
    @load_state_async ref_pylib ex_storage "job-bad" db ∧
  "job-bad" ∈ SMEMBERS (_make_index_key ex_storage "failed") cleaned_db.
Proof.
  cbv zeta.
  assert (plain_id "job-bad") as Hplain by (split; reflexivity).
  assert (@expired ref_pylib (ex_now - 7 * microseconds_per_day)
            (HGETALL (_make_metadata_key ex_storage "job-bad") (ex_db ex_population))
          = false) as Hexp by decide_by_computation.
  assert ("job-bad" ∈ SMEMBERS (_make_index_key ex_storage "failed") (ex_db ex_population))
    as Hin by decide_by_computation.
  destruct (@cleanup_keeps_unexpired ref_pylib ex_storage 7 ex_now (ex_db ex_population)
              "job-bad" Hplain (λ S j _, ex_population_plain S j) Hexp)
    as (_ & Hload & _ & Hsets).
  split; [exact Hplain|]. split; [exact Hexp|]. split; [exact Hin|].
  split; [exact Hload|exact (Hsets "failed" Hin)].
Defined.

(** [save_state_async_accepts] on a state that holds an object
    [json.dumps] refuses, on a state whose status is [True], and on
    [ex_running]. *)
Lemma save_state_async_accepts_witness :
  @save_state_async ref_pylib ex_storage "job-1" ex_unserialisable ex_t1 redis_empty =
    Raise TypeError ∧
  @save_state_async ref_pylib ex_storage "job-1" (<["status" := PBool true]> ex_running)
     ex_t1 redis_empty = Raise DataError ∧
  ∃ db', @save_state_async ref_pylib ex_storage "job-1" ex_running ex_t1 redis_empty
           = Ok db'.
Proof.
  split; [|split].
  - apply (proj1 (@save_state_async_accepts ref_pylib ex_storage "job-1" ex_unserialisable
                    ex_t1 redis_empty) OfType).
    decide_by_computation.
  - destruct (ref_codec_payload
                (stamp "job-1" ex_t1 (<["status" := PBool true]> ex_running)))
      as [Hdumps _]; [decide_by_computation|].
    destruct (proj1 (proj2 (@save_state_async_accepts ref_pylib ex_storage "job-1"
                              (<["status" := PBool true]> ex_running) ex_t1 redis_empty))
                _ Hdumps) as (_ & _ & Hfield).
    apply (Hfield "status" (PBool true)); [left|reflexivity|reflexivity|reflexivity].
  - apply (proj2 (proj2 (@save_state_async_accepts ref_pylib ex_storage "job-1" ex_running
                           ex_t1 redis_empty))).
    split; [repeat split; decide_by_computation|].
    destruct (ref_codec_payload (stamp "job-1" ex_t1 ex_running)) as [Hdumps _];
      [decide_by_computation|].
    by eexists.
Defined.

(** [save_checkpoint_async_then_load] on the empty server, with the
    reference serializer. *)
Lemma save_checkpoint_async_then_load_witness :
  let saved :=
    stamp "job-1" ex_t1
      (@serialize_state unit unit _ ref_serializer tt tt 2 "fetch" "running" None None) in
  ∃ db',
    @save_checkpoint_async ref_pylib unit unit _ ref_serializer (ex_manager false)
       tt tt 2 "fetch" "running" None None ex_t1 redis_empty = (db', Ok tt) ∧
    @load_checkpoint_async ref_pylib unit unit _ ref_serializer (ex_manager false) db' =
      (db', Ok (Some saved)).
Proof.
  cbv zeta.
  destruct (@save_checkpoint_async_then_load ref_pylib unit unit _ ref_serializer
              (ex_manager false) tt tt 2 "fetch" "running" None None ex_t1 redis_empty)
    as (Hsaved & _ & _ & Hreturns).
  cbv zeta in Hsaved, Hreturns.
  destruct (ref_codec_payload
              (stamp "job-1" ex_t1
                 (@serialize_state unit unit _ ref_serializer tt tt 2 "fetch" "running"
                    None None))) as [Hdumps Hloads]; [decide_by_computation|].
  destruct (Hreturns _ Hdumps) as [db' Hrun].
  { repeat split; decide_by_computation. }
  exists db'. split; [exact Hrun|].
  destruct (Hsaved _ Hrun) as [_ Hload]. apply Hload.
  apply ex_round_trips. decide_by_computation.
Defined.
